(** * PodX Studio: run orchestration (podx/ui/run_manager.py, podx/ui/api.py)

    A shallow embedding of the run registry, the admission gate, the run
    state machine, progress normalisation, the progress channel and the
    bounded history store, with the properties the design document states
    about them.

    Conventions of the embedding
    - A Python [str] is a [string]; characters outside ASCII are carried
      as the bytes of their encoding.
    - A [datetime] is an integer (microseconds on the clock of the host),
      a time without zone as [datetime.now()] makes it; the values
      [datetime.now()] and [uuid.uuid4()] return in a call are arguments
      of the function that makes the call.
    - A method is a function from the state of its object to an outcome
      (a value or a raised exception) and the state left behind. *)

From Stdlib Require Import ZArith Lia Ascii String.
From stdpp Require Import base tactics option strings pretty list gmap sorting.

Set Default Proof Using "Type".

(** ** Python values the modules rely on *)

Module Py.

(** Exceptions that cross a function boundary in the two modules. *)
Inductive exn :=
  | RuntimeError (msg : string)
  | KeyError (key : string)
  | ValueError
  | TypeError
  | AttributeError
  | OSError
  | JSONDecodeError
  | CancelledError
  | Fault (msg : string)          (* any other exception, with its text *)
  | HTTPException (status_code : Z) (detail : string).

(** [CancelledError] derives from [BaseException]: a handler for
    [Exception] lets it through. *)
Definition is_Exception (e : exn) : bool :=
  match e with CancelledError => false | _ => true end.

(** [str(e)] as far as the modules read it. *)
Definition exn_str (e : exn) : string :=
  match e with
  | RuntimeError m => m
  | KeyError k => k
  | Fault m => m
  | HTTPException _ d => d
  | ValueError => "ValueError"
  | TypeError => "TypeError"
  | AttributeError => "AttributeError"
  | OSError => "OSError"
  | JSONDecodeError => "JSONDecodeError"
  | CancelledError => ""
  end.

Inductive outcome (A : Type) :=
  | Ret (a : A)
  | Raise (e : exn).
Arguments Ret {A} a.
Arguments Raise {A} e.

(** State and exceptions: what a raising call has already written stays
    written. *)
Definition M (S A : Type) : Type := S → outcome A * S.

Definition ret {S A} (a : A) : M S A := λ s, (Ret a, s).
Definition raise {S A} (e : exn) : M S A := λ s, (Raise e, s).
Definition bind {S A B} (m : M S A) (k : A → M S B) : M S B :=
  λ s, match m s with
       | (Ret a, s') => k a s'
       | (Raise e, s') => (Raise e, s')
       end.
Definition get {S} : M S S := λ s, (Ret s, s).
Definition modify {S} (f : S → S) : M S unit := λ s, (Ret tt, f s).

(** [try: body  except <caught>: handler]. *)
Definition try_except {S A} (body : M S A) (caught : exn → bool)
    (handler : exn → M S A) : M S A :=
  λ s, match body s with
       | (Ret a, s') => (Ret a, s')
       | (Raise e, s') => if caught e then handler e s' else (Raise e, s')
       end.

(** [try: body  finally: cleanup]. *)
Definition try_finally {S A} (body : M S A) (cleanup : M S unit) : M S A :=
  λ s, match body s with
       | (r, s') =>
           match cleanup s' with
           | (Ret _, s'') => (r, s'')
           | (Raise e, s'') => (Raise e, s'')
           end
       end.

(** [for x in xs: acc = body acc x], the loop's local variables being
    [acc]. *)
Fixpoint for_each {S A B} (xs : list A) (acc : B) (body : B → A → M S B)
    : M S B :=
  match xs with
  | [] => ret acc
  | x :: xs' => bind (body acc x) (λ acc', for_each xs' acc' body)
  end.

Definition exec {S A} (m : M S A) (s : S) : S := (m s).2.
Definition returned {S A} (m : M S A) (s : S) : outcome A := (m s).1.

(** *** [dict] with string keys, in insertion order *)

Section Dict.
Context {V : Type}.

Fixpoint dict_get (k : string) (d : list (string * V)) : option V :=
  match d with
  | [] => None
  | (k', v) :: d' => if decide (k' = k) then Some v else dict_get k d'
  end.

(** [d[k] = v]: an existing key keeps its place, a new one goes last. *)
Fixpoint dict_set (k : string) (v : V) (d : list (string * V))
    : list (string * V) :=
  match d with
  | [] => [(k, v)]
  | (k', v') :: d' =>
      if decide (k' = k) then (k, v) :: d' else (k', v') :: dict_set k v d'
  end.

Definition dict_values (d : list (string * V)) : list V := d.*2.
Definition dict_keys (d : list (string * V)) : list string := d.*1.
End Dict.

(** *** Slices and sorting *)

(** [l[:n]]; a negative [n] counts from the end. *)
Definition slice_to {A} (n : Z) (l : list A) : list A :=
  if (n <? 0)%Z then take (length l - Z.to_nat (- n)) l
  else take (Z.to_nat n) l.

(** [l.sort(key=key, reverse=True)]: descending and stable, elements
    with equal keys keep the order they had.  The embedding is the stable
    insertion sort; a stable sort has one possible output. *)
Section Sort.
Context {A : Type} (key : A → Z).

Fixpoint insert_desc (x : A) (l : list A) : list A :=
  match l with
  | [] => [x]
  | y :: l' =>
      if (key y <=? key x)%Z then x :: y :: l' else y :: insert_desc x l'
  end.

Fixpoint sort_desc (l : list A) : list A :=
  match l with
  | [] => []
  | x :: l' => insert_desc x (sort_desc l')
  end.
End Sort.

(** *** Strings *)

Definition lower_ascii (c : ascii) : ascii :=
  let n := nat_of_ascii c in
  if (65 <=? n)%nat && (n <=? 90)%nat then ascii_of_nat (n + 32) else c.

(** [s.lower()].  Only the letters A to Z are mapped: the lower-casing of
    no other character gives text that can take part in an occurrence of
    the words a callback's text is searched for. *)
Fixpoint lower (s : string) : string :=
  match s with
  | EmptyString => EmptyString
  | String c s' => String (lower_ascii c) (lower s')
  end.

(** [needle in hay]. *)
Fixpoint contains (needle hay : string) : bool :=
  String.prefix needle hay ||
  match hay with
  | EmptyString => false
  | String _ hay' => contains needle hay'
  end.

End Py.
Export Py.

Declare Scope py_scope.
Delimit Scope py_scope with py.
Notation "'let!' x ':=' m 'in' k" := (bind m (λ x, k))
  (at level 10, x pattern, m at level 100, k at level 200,
   format "'[v' 'let!'  x  :=  m  'in' '/' k ']'") : py_scope.
Notation "'do!' m 'in' k" := (bind m (λ _, k))
  (at level 10, m at level 100, k at level 200,
   format "'[v' 'do!'  m  'in' '/' k ']'") : py_scope.
Open Scope py_scope.

(** ** What the modules import *)

(** [podx.domain] and the standard library's [datetime] are used through
    the operations below and nothing more. *)
Class Domain := {
  (** [podx.domain.PipelineConfig], a dataclass. *)
  PipelineConfig : Type;
  (** Values that JSON carries under the keys of a configuration. *)
  Any : Type;
  (** [dataclasses.asdict(config).items()]: a field holds a [Path]
      ([inl], its text) or something else. *)
  asdict : PipelineConfig → list (string * (string + Any));
  (** The JSON string with the given text. *)
  any_str : string → Any;
  (** The constructor, called with the entries of [d] as keyword
      arguments; [None] when it raises. *)
  PipelineConfig_init : list (string * Any) → option PipelineConfig;
  (** Python's [float], and [0.0]. *)
  float : Type;
  float_zero : float;
  (** [datetime.isoformat] and [datetime.fromisoformat] ([None] when it
      raises). *)
  isoformat : Z → string;
  fromisoformat : string → option Z;
}.

Module RunManagerModel.
Section WithDomain.
Context `{Domain}.

(** Modelled from the spec: [podx.domain.PipelineResult] is not among the
    sources.  The fields are those of the design document's
    [Result{artifacts, steps_completed, duration, errors}] and the
    [workdir] that [_result_to_dict] reads. *)
Record PipelineResult := mkPipelineResult {
  workdir : string;
  steps_completed : list string;
  artifacts : gmap string string;
  duration : float;
  errors : list string;
}.

(** [class RunState]. *)
Record RunState := mkRunState {
  run_id : string;
  config : PipelineConfig;
  status : string;
  progress : gmap string string;
  result : option PipelineResult;
  error : option string;
  started_at : Z;
  completed_at : option Z;
  notion_url : option string;
}.

Definition with_status (s : string) (r : RunState) : RunState :=
  mkRunState (run_id r) (config r) s (progress r) (result r) (error r)
    (started_at r) (completed_at r) (notion_url r).
Definition with_progress (p : gmap string string) (r : RunState) : RunState :=
  mkRunState (run_id r) (config r) (status r) p (result r) (error r)
    (started_at r) (completed_at r) (notion_url r).
Definition with_result (x : option PipelineResult) (r : RunState) : RunState :=
  mkRunState (run_id r) (config r) (status r) (progress r) x (error r)
    (started_at r) (completed_at r) (notion_url r).
Definition with_error (e : option string) (r : RunState) : RunState :=
  mkRunState (run_id r) (config r) (status r) (progress r) (result r) e
    (started_at r) (completed_at r) (notion_url r).
Definition with_completed_at (t : option Z) (r : RunState) : RunState :=
  mkRunState (run_id r) (config r) (status r) (progress r) (result r) (error r)
    (started_at r) t (notion_url r).
Definition with_notion_url (u : option string) (r : RunState) : RunState :=
  mkRunState (run_id r) (config r) (status r) (progress r) (result r) (error r)
    (started_at r) (completed_at r) u.

(** *** The history file *)

(** The dictionaries of the history file.  Under a key sits a value of
    the JSON type [to_dict] writes there, or nothing: [None] is a key
    that is missing (for "result", "error", "completed_at" and
    "notion_url", which the loader reads the same way when they hold
    [null], also that). *)
Record result_dict := mkResultDict {
  rd_workdir : option string;
  rd_steps_completed : option (list string);
  rd_artifacts : option (gmap string string);
  rd_duration : option float;
  rd_errors : option (list string);
}.

Record run_dict := mkRunDict {
  d_run_id : option string;
  d_config : option (list (string * Any));
  d_status : option string;
  d_progress : option (gmap string string);
  d_result : option result_dict;
  d_error : option string;
  d_started_at : option string;
  d_completed_at : option string;
  d_notion_url : option string;
}.

(** What iterating the decoded document yields: a dictionary, or a value
    that is none (the keys of a top-level object, the characters of a
    top-level string, a nested array, a number). *)
Inductive item :=
  | ItemDict (d : run_dict)
  | ItemOther.

Inductive json_doc :=
  | JsonScalar                     (* null, a boolean, a number *)
  | JsonItems (items : list item).

(** The file [self.history_file] names, as the loader sees it. *)
Inductive file_state :=
  | Absent                         (* exists() is false *)
  | Unreadable                     (* read_text() raises *)
  | Text (doc : option json_doc).  (* None: json.loads raises *)

Definition Task := nat.

Inductive level := DEBUG | INFO | WARNING | ERROR.
Definition LogRecord : Type := level * string.

(** [class RunManager]: the fields of the object, then what its methods
    reach outside it (the file on disk, the asyncio tasks they cancel,
    the module's logger). *)
Record RunManager := mkRunManager {
  history_file : file_state;
  max_concurrent : Z;
  max_history : Z;
  _active_runs : list (string * RunState);
  _run_tasks : gmap string Task;
  fs_writable : bool;
  cancelled : list Task;
  log : list LogRecord;
}.

Definition set_history_file (f : file_state) (m : RunManager) : RunManager :=
  mkRunManager f (max_concurrent m) (max_history m) (_active_runs m)
    (_run_tasks m) (fs_writable m) (cancelled m) (log m).
Definition set_active_runs (d : list (string * RunState)) (m : RunManager)
    : RunManager :=
  mkRunManager (history_file m) (max_concurrent m) (max_history m) d
    (_run_tasks m) (fs_writable m) (cancelled m) (log m).
Definition set_run_tasks (t : gmap string Task) (m : RunManager) : RunManager :=
  mkRunManager (history_file m) (max_concurrent m) (max_history m)
    (_active_runs m) t (fs_writable m) (cancelled m) (log m).
Definition set_cancelled (c : list Task) (m : RunManager) : RunManager :=
  mkRunManager (history_file m) (max_concurrent m) (max_history m)
    (_active_runs m) (_run_tasks m) (fs_writable m) c (log m).
Definition set_log (l : list LogRecord) (m : RunManager) : RunManager :=
  mkRunManager (history_file m) (max_concurrent m) (max_history m)
    (_active_runs m) (_run_tasks m) (fs_writable m) (cancelled m) l.

(** [RunManager(history_file, max_concurrent=1, max_history=20)] on a
    disk in the given state. *)
Definition __init__ (file : file_state) (writable : bool)
    (max_concurrent : option Z) (max_history : option Z) : RunManager :=
  mkRunManager file (default 1%Z max_concurrent) (default 20%Z max_history)
    [] ∅ writable [] [].

Definition logger (lv : level) (event : string) : M RunManager unit :=
  modify (λ m, set_log (log m ++ [(lv, event)]) m).

Definition is_active (r : RunState) : bool :=
  bool_decide (status r = "pending") || bool_decide (status r = "running").

Definition is_terminal_status (s : string) : bool :=
  bool_decide (s = "completed") || bool_decide (s = "failed")
  || bool_decide (s = "canceled").

(** [sum(1 for run in self._active_runs.values() if run.status in
    ("pending", "running"))]. *)
Definition active_count (self : RunManager) : Z :=
  Z.of_nat (length (List.filter is_active (dict_values (_active_runs self)))).

Definition capacity_message (self : RunManager) : string :=
  "Maximum concurrent runs (" +:+ pretty (max_concurrent self)
  +:+ ") reached. Please wait for current runs to complete.".

Definition create_run (config : PipelineConfig) (uuid4 : string) (now : Z)
    : M RunManager string :=
  let! self := get in
  if (max_concurrent self <=? active_count self)%Z then
    raise (RuntimeError (capacity_message self))
  else
    let run_state :=
      mkRunState uuid4 config "pending" ∅ None None now None None in
    do! modify (λ self,
          set_active_runs (dict_set uuid4 run_state (_active_runs self)) self) in
    do! logger INFO "Created run" in
    ret uuid4.

Definition get_run (run_id : string) (self : RunManager) : option RunState :=
  dict_get run_id (_active_runs self).

(** [run.<field> = ...] on the record the registry holds under
    [run_id]. *)
Definition store_run (run_id : string) (run : RunState) : M RunManager unit :=
  modify (λ self, set_active_runs (dict_set run_id run (_active_runs self)) self).

Definition update_run_status (run_id status : string) (now : Z)
    : M RunManager unit :=
  let! self := get in
  match get_run run_id self with
  | Some run =>
      let run := with_status status run in
      let run :=
        if is_terminal_status status then with_completed_at (Some now) run
        else run in
      do! store_run run_id run in
      logger DEBUG "Updated run status"
  | None => ret tt
  end.

Definition update_run_progress (run_id stage status : string)
    : M RunManager unit :=
  let! self := get in
  match get_run run_id self with
  | Some run =>
      do! store_run run_id (with_progress (<[stage := status]> (progress run)) run) in
      logger DEBUG "Updated run progress"
  | None => ret tt
  end.

Definition set_run_result (run_id : string) (res : PipelineResult) (now : Z)
    : M RunManager unit :=
  let! self := get in
  match get_run run_id self with
  | Some run =>
      let run := with_result (Some res) run in
      let run :=
        with_status (match errors res with [] => "completed" | _ => "failed" end)
          run in
      let run := with_completed_at (Some now) run in
      do! store_run run_id run in
      logger INFO "Set run result"
  | None => ret tt
  end.

Definition set_run_error (run_id error : string) (now : Z)
    : M RunManager unit :=
  let! self := get in
  match get_run run_id self with
  | Some run =>
      let run := with_error (Some error) run in
      let run := with_status "failed" run in
      let run := with_completed_at (Some now) run in
      do! store_run run_id run in
      logger ERROR "Set run error"
  | None => ret tt
  end.

Definition set_notion_url (run_id notion_url : string) : M RunManager unit :=
  let! self := get in
  match get_run run_id self with
  | Some run =>
      do! store_run run_id (with_notion_url (Some notion_url) run) in
      logger INFO "Set Notion URL"
  | None => ret tt
  end.

Definition cancel_run (run_id : string) (now : Z) : M RunManager bool :=
  let! self := get in
  match get_run run_id self with
  | None => ret false
  | Some run =>
      if negb (is_active run) then ret false
      else
        let run := with_status "canceled" run in
        let run := with_completed_at (Some now) run in
        do! store_run run_id run in
        do! match _run_tasks self !! run_id with
            | Some task =>
                modify (λ self,
                  set_run_tasks (delete run_id (_run_tasks self))
                    (set_cancelled (cancelled self ++ [task]) self))
            | None => ret tt
            end in
        do! logger INFO "Canceled run" in
        ret true
  end.

Definition register_task (run_id : string) (task : Task) : M RunManager unit :=
  modify (λ self, set_run_tasks (<[run_id := task]> (_run_tasks self)) self).

(** *** Serialisation *)

Definition _config_to_dict (self : RunState) : list (string * Any) :=
  (λ kv : string * (string + Any),
     (kv.1, match kv.2 with inl path => any_str path | inr value => value end))
  <$> asdict (config self).

Definition _result_to_dict (res : PipelineResult) : result_dict :=
  mkResultDict (Some (workdir res)) (Some (steps_completed res))
    (Some (artifacts res)) (Some (duration res)) (Some (errors res)).

Definition to_dict (self : RunState) : run_dict :=
  mkRunDict
    (Some (run_id self))
    (Some (_config_to_dict self))
    (Some (status self))
    (Some (progress self))
    (_result_to_dict <$> result self)
    (error self)
    (Some (isoformat (started_at self)))
    (isoformat <$> completed_at self)
    (notion_url self).

(** [d[key]]. *)
Definition subscript {S A} (key : string) (v : option A) : M S A :=
  match v with
  | Some a => ret a
  | None => raise (KeyError key)
  end.

Definition parse_datetime {S} (s : string) : M S Z :=
  match fromisoformat s with
  | Some t => ret t
  | None => raise ValueError
  end.

(** A dictionary is true when it has a key. *)
Definition result_dict_truthy (rd : result_dict) : bool :=
  bool_decide (is_Some (rd_workdir rd))
  || bool_decide (is_Some (rd_steps_completed rd))
  || bool_decide (is_Some (rd_artifacts rd))
  || bool_decide (is_Some (rd_duration rd))
  || bool_decide (is_Some (rd_errors rd)).

Definition _dict_to_run_state (run_dict : item) : M RunManager RunState :=
  match run_dict with
  | ItemOther => raise AttributeError
  | ItemDict d =>
      let config_dict := default [] (d_config d) in
      let! config :=
        match PipelineConfig_init config_dict with
        | Some c => ret c
        | None => raise TypeError
        end in
      let! result :=
        match d_result d with
        | Some result_dict =>
            if result_dict_truthy result_dict then
              let! workdir := subscript "workdir" (rd_workdir result_dict) in
              ret (Some (mkPipelineResult workdir
                     (default [] (rd_steps_completed result_dict))
                     (default ∅ (rd_artifacts result_dict))
                     (default float_zero (rd_duration result_dict))
                     (default [] (rd_errors result_dict))))
            else ret None
        | None => ret None
        end in
      let! started_at_text := subscript "started_at" (d_started_at d) in
      let! started_at := parse_datetime started_at_text in
      let! completed_at :=
        match d_completed_at d with
        | Some text =>
            if bool_decide (text = "") then ret None
            else let! t := parse_datetime text in ret (Some t)
        | None => ret None
        end in
      let! run_id := subscript "run_id" (d_run_id d) in
      let! status := subscript "status" (d_status d) in
      ret (mkRunState run_id config status (default ∅ (d_progress d)) result
             (d_error d) started_at completed_at (d_notion_url d))
  end.

(** *** History *)

(** [self.history_file.exists()]. *)
Definition file_exists (f : file_state) : bool :=
  match f with Absent => false | _ => true end.

Definition read_text : M RunManager (option json_doc) :=
  let! self := get in
  match history_file self with
  | Text doc => ret doc
  | Unreadable | Absent => raise OSError
  end.

Definition json_loads (content : option json_doc) : M RunManager json_doc :=
  match content with
  | Some doc => ret doc
  | None => raise JSONDecodeError
  end.

(** The items a [for] statement draws from the document. *)
Definition iterate (data : json_doc) : M RunManager (list item) :=
  match data with
  | JsonItems items => ret items
  | JsonScalar => raise TypeError
  end.

Definition _load_history : M RunManager (list RunState) :=
  let! self := get in
  if negb (file_exists (history_file self)) then ret []
  else
    try_except
      (let! content := read_text in
       let! data := json_loads content in
       let! items := iterate data in
       for_each items [] (λ runs run_dict,
         try_except
           (let! run := _dict_to_run_state run_dict in
            ret (runs ++ [run]))
           is_Exception
           (λ e,
            do! logger WARNING "Failed to load run from history" in
            ret runs)))
      is_Exception
      (λ e,
       do! logger WARNING "Failed to load history" in
       ret []).

Definition _save_history (runs : list RunState) : M RunManager unit :=
  let! self := get in
  if fs_writable self then
    let data := to_dict <$> runs in
    modify (set_history_file (Text (Some (JsonItems (ItemDict <$> data)))))
  else raise OSError.

Definition save_to_history (run : RunState) : M RunManager unit :=
  let! history := _load_history in
  let history :=
    List.filter (λ r, negb (bool_decide (run_id r = run_id run))) history in
  let history := run :: history in
  let! self := get in
  let history := slice_to (max_history self) history in
  do! _save_history history in
  logger DEBUG "Saved run to history".

(** The loop of [list_recent_runs] over [seen] and [unique_runs]. *)
Definition dedupe_step (acc : gset string * list RunState) (run : RunState)
    : gset string * list RunState :=
  if bool_decide (run_id run ∈ acc.1) then acc
  else ({[run_id run]} ∪ acc.1, acc.2 ++ [run]).

Definition list_recent_runs (limit : option Z)
    : M RunManager (list RunState) :=
  let! self := get in
  let limit :=
    match limit with
    | Some l => if (l =? 0)%Z then max_history self else l
    | None => max_history self
    end in
  let all_runs := dict_values (_active_runs self) in
  let! history := _load_history in
  let all_runs := all_runs ++ history in
  let all_runs := sort_desc started_at all_runs in
  let unique_runs := (fold_left dedupe_step all_runs (∅, [])).2 in
  ret (slice_to limit unique_runs).

End WithDomain.
End RunManagerModel.

(** ** podx/ui/api.py *)

Module ApiModel.
Import RunManagerModel.
Section WithDomain.
Context `{Domain}.

Definition WebSocket := nat.

(** What a connection carries to its client. *)
Inductive frame :=
  | JsonFrame (stage status : string) (progress : gmap string string)
  | TextFrame (text : string).

(** The module's globals, then what its functions reach outside them:
    the connections whose peer has gone (a send on them raises), the
    frames sent so far, oldest first, and the module's logger. *)
Record Api := mkApi {
  run_manager : option RunManager;
  websocket_connections : gmap string (list WebSocket);
  gone : gset WebSocket;
  sent : list (WebSocket * frame);
  api_log : list LogRecord;
}.

Definition set_run_manager (m : option RunManager) (a : Api) : Api :=
  mkApi m (websocket_connections a) (gone a) (sent a) (api_log a).
Definition set_websocket_connections (c : gmap string (list WebSocket))
    (a : Api) : Api :=
  mkApi (run_manager a) c (gone a) (sent a) (api_log a).
Definition set_sent (s : list (WebSocket * frame)) (a : Api) : Api :=
  mkApi (run_manager a) (websocket_connections a) (gone a) s (api_log a).
Definition set_api_log (l : list LogRecord) (a : Api) : Api :=
  mkApi (run_manager a) (websocket_connections a) (gone a) (sent a) l.

(** A method call on the global [run_manager]. *)
Definition on_manager {A} (method : M RunManager A) : M Api A :=
  λ a, match run_manager a with
       | Some rm =>
           let '(r, rm') := method rm in (r, set_run_manager (Some rm') a)
       | None => (Raise AttributeError, a)
       end.

Definition api_logger (lv : level) (event : string) : M Api unit :=
  modify (λ a, set_api_log (api_log a ++ [(lv, event)]) a).

Definition send (ws : WebSocket) (f : frame) : M Api unit :=
  let! a := get in
  if bool_decide (ws ∈ gone a) then raise (Fault "connection closed")
  else modify (λ a, set_sent (sent a ++ [(ws, f)]) a).

(** [l.remove(x)]. *)
Fixpoint list_remove (x : WebSocket) (l : list WebSocket)
    : option (list WebSocket) :=
  match l with
  | [] => None
  | y :: l' => if decide (y = x) then Some l' else (y ::.) <$> list_remove x l'
  end.

(** [websocket_connections[run_id].remove(ws)]. *)
Definition remove_connection (run_id : string) (ws : WebSocket) : M Api unit :=
  let! a := get in
  let! conns := subscript run_id (websocket_connections a !! run_id) in
  match list_remove ws conns with
  | Some conns' =>
      modify (λ a, set_websocket_connections
                     (<[run_id := conns']> (websocket_connections a)) a)
  | None => raise ValueError
  end.

Definition _send_progress (run_id stage status : string) : M Api unit :=
  let! a := get in
  match websocket_connections a !! run_id with
  | None => ret tt
  | Some conns =>
      let run :=
        match run_manager a with
        | Some rm => get_run run_id rm
        | None => None
        end in
      match run with
      | None => ret tt
      | Some run =>
          let message := JsonFrame stage status (progress run) in
          let! disconnected :=
            for_each conns [] (λ disconnected ws,
              try_except
                (do! send ws message in ret disconnected)
                is_Exception
                (λ _, ret (disconnected ++ [ws]))) in
          for_each disconnected tt (λ _ ws, remove_connection run_id ws)
      end
  end.

(** *** Progress normalisation *)

Definition stage_map : list (string * string) :=
  [("fetch", "fetch"); ("transcode", "transcode");
   ("transcribe", "transcribe"); ("preprocess", "preprocess");
   ("align", "preprocess"); ("diarize", "diarize");
   ("deepcast", "deepcast"); ("export", "export"); ("notion", "notion")].

Definition normalize_stage (step : string) : string :=
  default step (dict_get step stage_map).

Definition normalize_status (status : string) : string :=
  let status_lower := lower status in
  if contains "started" status_lower || contains "fetching" status_lower
     || contains "transcoding" status_lower
     || contains "transcribing" status_lower
  then "started"
  else if contains "completed" status_lower
          || contains "using existing" status_lower
  then "completed"
  else if contains "failed" status_lower || contains "error" status_lower
  then "failed"
  else "started".

(** The closure [progress_callback] of [_execute_pipeline] for the run
    [run_id]. *)
Definition progress_callback (run_id step status : string) : M Api unit :=
  let stage := normalize_stage step in
  let normalized_status := normalize_status status in
  do! _send_progress run_id stage normalized_status in
  on_manager (update_run_progress run_id stage normalized_status).

(** *** Execution *)

(** How the awaited pipeline call goes: the callbacks it makes, in order,
    then a result or an exception. *)
Record Execution := mkExecution {
  callbacks : list (string * string);
  ending : PipelineResult + exn;
}.

Definition execute (run_id : string) (ex : Execution) : M Api PipelineResult :=
  do! for_each (callbacks ex) tt
        (λ _ cb, progress_callback run_id cb.1 cb.2) in
  match ending ex with
  | inl res => ret res
  | inr e => raise e
  end.

(** "Extract Notion URL if available".  [notion_page] is the address
    found in the file the "notion" artifact names: [None] when the file is
    missing, is not JSON or holds no address. *)
Definition extract_notion_url (run_id : string) (res : PipelineResult)
    (notion_page : option string) : M Api unit :=
  match artifacts res !! "notion" with
  | Some path =>
      if bool_decide (path = "") then ret tt
      else
        match notion_page with
        | Some notion_url =>
            if bool_decide (notion_url = "") then ret tt
            else on_manager (set_notion_url run_id notion_url)
        | None => ret tt
        end
  | None => ret tt
  end.

(** "Save to history". *)
Definition save_run (run_id : string) : M Api unit :=
  let! a := get in
  match run_manager a with
  | Some rm =>
      match get_run run_id rm with
      | Some run => on_manager (save_to_history run)
      | None => ret tt
      end
  | None => raise AttributeError
  end.

(** The steps of [_execute_pipeline] from the return of the pipeline
    call on; [now] is the clock at the return. *)
Definition record_result (run_id : string) (res : PipelineResult)
    (notion_page : option string) (now : Z) : M Api unit :=
  do! on_manager (set_run_result run_id res now) in
  do! extract_notion_url run_id res notion_page in
  do! save_run run_id in
  _send_progress run_id "complete" "completed".

(** [_execute_pipeline] when the pipeline call goes as [ex] says; [later]
    is the clock when an exception is handled. *)
Definition _execute_pipeline (run_id : string) (ex : Execution)
    (notion_page : option string) (now later : Z) : M Api unit :=
  let! a := get in
  match run_manager a with
  | None => ret tt
  | Some rm =>
      match get_run run_id rm with
      | None => ret tt
      | Some _ =>
          try_except
            (do! on_manager (update_run_status run_id "running" now) in
             do! _send_progress run_id "fetch" "started" in
             let! res := execute run_id ex in
             record_result run_id res notion_page now)
            (λ _, true)
            (λ e,
             match e with
             | CancelledError =>
                 do! on_manager (update_run_status run_id "canceled" later) in
                 _send_progress run_id "canceled" "canceled"
             | _ =>
                 let error_msg := exn_str e in
                 do! on_manager (set_run_error run_id error_msg later) in
                 do! _send_progress run_id "error" "failed" in
                 api_logger ERROR "Pipeline execution failed"
             end)
      end
  end.

(** *** Routes *)

(** [POST /api/runs/{run_id}/cancel]; the value is the "status" of the
    reply. *)
Definition cancel_run_route (run_id : string) (now : Z) : M Api string :=
  let! a := get in
  match run_manager a with
  | None => raise (HTTPException 500 "Run manager not initialized")
  | Some _ =>
      let! success := on_manager (cancel_run run_id now) in
      if negb success then raise (HTTPException 400 "Run cannot be canceled")
      else ret "canceled"
  end.

(** [websocket_endpoint] in its parts.  First the connection is entered
    in the table, then the initial state is sent; no [await] lies between
    the two. *)
Definition ws_subscribe (ws : WebSocket) (run_id : string) : M Api unit :=
  do! modify (λ a,
        match websocket_connections a !! run_id with
        | None =>
            set_websocket_connections
              (<[run_id := []]> (websocket_connections a)) a
        | Some _ => a
        end) in
  do! modify (λ a,
        set_websocket_connections
          (<[run_id := default [] (websocket_connections a !! run_id) ++ [ws]]>
             (websocket_connections a)) a) in
  ret tt.

Definition ws_initial_state (ws : WebSocket) (run_id : string) : M Api unit :=
  let! a := get in
  match run_manager a with
  | Some rm =>
      match get_run run_id rm with
      | Some run => send ws (JsonFrame "connected" (status run) (progress run))
      | None => ret tt
      end
  | None => ret tt
  end.

(** One turn of the receive loop. *)
Definition ws_receive (ws : WebSocket) (data : string) : M Api unit :=
  if bool_decide (data = "ping") then send ws (TextFrame "pong") else ret tt.

Definition ws_cleanup (ws : WebSocket) (run_id : string) : M Api unit :=
  let! a := get in
  match websocket_connections a !! run_id with
  | Some _ =>
      do! remove_connection run_id ws in
      modify (λ a,
        match websocket_connections a !! run_id with
        | Some [] =>
            set_websocket_connections
              (delete run_id (websocket_connections a)) a
        | _ => a
        end)
  | None => ret tt
  end.

(** [websocket_endpoint] for a client that sends the texts [incoming]
    and then disconnects. *)
Definition websocket_endpoint (ws : WebSocket) (run_id : string)
    (incoming : list string) : M Api unit :=
  do! ws_subscribe ws run_id in
  try_finally
    (try_except
       (do! ws_initial_state ws run_id in
        for_each incoming tt (λ _ data, ws_receive ws data))
       is_Exception
       (λ _, api_logger ERROR "WebSocket error"))
    (ws_cleanup ws run_id).

End WithDomain.
End ApiModel.

(** ** A domain to run the definitions on *)

Module Sample.

(** A configuration with the one field "show"; timestamps are written in
    unary. *)
Definition sample_isoformat (t : Z) : string :=
  String.concat "" (replicate (Z.to_nat t) "T").

Fixpoint sample_fromisoformat (s : string) : option Z :=
  match s with
  | EmptyString => Some 0%Z
  | String c s' =>
      if bool_decide (c = "T"%char) then Z.succ <$> sample_fromisoformat s'
      else None
  end.

Definition sample_init (d : list (string * string)) : option string :=
  match d with
  | [(k, show)] => if bool_decide (k = "show") then Some show else None
  | _ => None
  end.

#[export] Instance sample_domain : Domain := {|
  PipelineConfig := string;
  Any := string;
  asdict := λ show, [("show", inr show)];
  any_str := id;
  PipelineConfig_init := sample_init;
  float := Z;
  float_zero := 0%Z;
  isoformat := sample_isoformat;
  fromisoformat := sample_fromisoformat;
|}.

End Sample.

(** ** Terms of the statements *)

Module Terms.
Import RunManagerModel ApiModel.

Section RegistryTerms.
Context `{Domain}.
Implicit Types (self : RunManager) (run : RunState) (id : string).

Definition count_active (d : list (string * RunState)) : nat :=
  length (List.filter is_active (dict_values d)).

Definition pending_run (config : PipelineConfig) (uuid4 : string) (now : Z)
    : RunState :=
  mkRunState uuid4 config "pending" ∅ None None now None None.

(** The registry with the record under [id] replaced. *)
Definition put id run self : RunManager :=
  set_active_runs (dict_set id run (_active_runs self)) self.

Definition logged (lv : level) (event : string) self : RunManager :=
  set_log (log self ++ [(lv, event)]) self.

Definition status_written (status : string) (now : Z) run : RunState :=
  let run := with_status status run in
  if is_terminal_status status then with_completed_at (Some now) run else run.

Definition result_written (res : PipelineResult) (now : Z) run : RunState :=
  with_completed_at (Some now)
    (with_status (match errors res with [] => "completed" | _ => "failed" end)
       (with_result (Some res) run)).

Definition error_written (msg : string) (now : Z) run : RunState :=
  with_completed_at (Some now)
    (with_status "failed" (with_error (Some msg) run)).

Definition canceled_at (now : Z) run : RunState :=
  with_completed_at (Some now) (with_status "canceled" run).

(** What [cancel_run] does to the tasks when it goes through. *)
Definition task_cancelled id self : RunManager :=
  match _run_tasks self !! id with
  | Some task =>
      set_run_tasks (delete id (_run_tasks self))
        (set_cancelled (cancelled self ++ [task]) self)
  | None => self
  end.

(** A run admitted for each of the draws (identifier, clock), in turn. *)
Definition admit_all (config : PipelineConfig) (draws : list (string * Z))
    : M RunManager unit :=
  for_each draws tt (λ _ draw, do! create_run config draw.1 draw.2 in ret tt).

(** The ways the methods take the run [id] to a terminal state. *)
Inductive reaches_terminal id self : RunManager → Prop :=
  | by_status status now :
      is_terminal_status status = true →
      reaches_terminal id self (exec (update_run_status id status now) self)
  | by_cancel now :
      reaches_terminal id self (exec (cancel_run id now) self)
  | by_result res now :
      reaches_terminal id self (exec (set_run_result id res now) self)
  | by_error msg now :
      reaches_terminal id self (exec (set_run_error id msg now) self).

End RegistryTerms.

Section ChannelTerms.
Context `{Domain}.
Implicit Types (a : Api) (ws : WebSocket) (conns : list WebSocket).

Definition is_gone a ws : bool := bool_decide (ws ∈ gone a).

(** The connections of a list that still have a peer, and the others. *)
Definition live a conns : list WebSocket :=
  List.filter (λ ws, negb (is_gone a ws)) conns.
Definition dead a conns : list WebSocket := List.filter (is_gone a) conns.

Definition frames_to conns (f : frame) : list (WebSocket * frame) :=
  (λ ws, (ws, f)) <$> conns.

End ChannelTerms.

Section HistoryTerms.
Context `{Domain}.
Implicit Types (self : RunManager) (run : RunState) (i : item).

(** What [_dict_to_run_state] makes of an item; it reads nothing of the
    manager. *)
Definition decode_item i : outcome RunState :=
  returned (_dict_to_run_state i) (__init__ Absent false None None).

Definition decoded i : option RunState :=
  match decode_item i with Ret run => Some run | Raise _ => None end.

Definition loaded (items : list item) : list RunState := omap decoded items.

Definition item_warnings (items : list item) : list LogRecord :=
  (λ _, (WARNING, "Failed to load run from history"))
  <$> List.filter (λ i, bool_decide (decoded i = None)) items.

Definition loaded_runs (f : file_state) : list RunState :=
  match f with
  | Text (Some (JsonItems items)) => loaded items
  | _ => []
  end.

Definition load_warnings (f : file_state) : list LogRecord :=
  match f with
  | Absent => []
  | Text (Some (JsonItems items)) => item_warnings items
  | _ => [(WARNING, "Failed to load history")]
  end.

(** A computation that leaves the state alone and raises nothing a
    handler for [Exception] would let through. *)
Definition tame {A} (m : M RunManager A) : Prop :=
  ∃ o, (∀ self, m self = (o, self))
       ∧ (∀ e, o = Raise e → is_Exception e = true).

(** [save_to_history] on a disk that takes the write. *)
Definition history_after self run : list RunState :=
  slice_to (max_history self)
    (run :: List.filter (λ r, negb (bool_decide (run_id r = run_id run)))
              (loaded_runs (history_file self))).

Definition file_of (runs : list RunState) : file_state :=
  Text (Some (JsonItems (ItemDict <$> (to_dict <$> runs)))).

(** The identifiers a history file holds, first to last. *)
Definition stored_ids (f : file_state) : list string :=
  match f with
  | Text (Some (JsonItems items)) =>
      omap (λ i, match i with ItemDict d => d_run_id d | ItemOther => None end)
        items
  | _ => []
  end.

(** The records of a loaded history other than those of the run [id]. *)
Definition others id (runs : list RunState) : list RunState :=
  List.filter (λ r, negb (bool_decide (run_id r = id))) runs.

End HistoryTerms.

Section OrchestratorTerms.
Context `{Domain}.
Implicit Types (a : Api) (self rm : RunManager) (run : RunState) (id : string).

(** The record the API's manager holds for a run. *)
Definition run_of id a : option RunState := run_manager a ≫= get_run id.

(** The state [_send_progress] leaves. *)
Definition after_send id (stage status : string) a : Api :=
  match websocket_connections a !! id, run_of id a with
  | Some conns, Some run =>
      set_websocket_connections
        (<[id := live a conns]> (websocket_connections a))
        (set_sent
           (sent a
            ++ frames_to (live a conns) (JsonFrame stage status (progress run)))
           a)
  | _, _ => a
  end.

End OrchestratorTerms.

Section NormalisationTerms.
Context `{Domain}.

Definition started_words : list string :=
  ["started"; "fetching"; "transcoding"; "transcribing"].
Definition completed_words : list string := ["completed"; "using existing"].
Definition failed_words : list string := ["failed"; "error"].

(** The text, letter case apart, has one of the words as a substring. *)
Definition mentions (words : list string) (text : string) : Prop :=
  ∃ w pre post, w ∈ words ∧ lower text = pre +:+ w +:+ post.

End NormalisationTerms.

Section SubscriptionTerms.
Context `{Domain}.
Implicit Types (a : Api) (ws : WebSocket) (id : string) (run : RunState).

(** The initial state a new connection is sent. *)
Definition snapshot run : frame :=
  JsonFrame "connected" (status run) (progress run).

(** The answers to the pings among the texts of a client. *)
Definition pongs ws (incoming : list string) : list (WebSocket * frame) :=
  (λ _, (ws, TextFrame "pong"))
  <$> List.filter (λ data, bool_decide (data = "ping")) incoming.

(** The frames sent to one connection, oldest first. *)
Definition received ws a : list frame :=
  snd <$> List.filter (λ wf, bool_decide (wf.1 = ws)) (sent a).

Definition subscribed ws id a : Api :=
  set_websocket_connections
    (<[id := default [] (websocket_connections a !! id) ++ [ws]]>
       (websocket_connections a)) a.

End SubscriptionTerms.

Section FramesTerms.
Context `{Domain}.
Implicit Types (a : Api) (rm : RunManager) (run : RunState) (id : string).

(** What the manager and the orchestrator can be asked to do. *)
Inductive operation :=
  | CreateRun (config : PipelineConfig) (uuid4 : string) (now : Z)
  | UpdateRunStatus (id status : string) (now : Z)
  | UpdateRunProgress (id stage status : string)
  | SetRunResult (id : string) (res : PipelineResult) (now : Z)
  | SetRunError (id msg : string) (now : Z)
  | SetNotionUrl (id url : string)
  | CancelRun (id : string) (now : Z)
  | RegisterTask (id : string) (task : Task)
  | SaveToHistory (run : RunState)
  | ListRecentRuns (limit : option Z)
  | SendProgress (id stage status : string)
  | ProgressCallback (id step text : string)
  | ExecutePipeline (id : string) (ex : Execution) (notion : option string)
      (now later : Z)
  | CancelRoute (id : string) (now : Z)
  | WebsocketEndpoint (ws : WebSocket) (id : string) (incoming : list string).

Definition discard {S A} (m : M S A) : M S unit := do! m in ret tt.

Definition perform (op : operation) : M Api unit :=
  match op with
  | CreateRun config uuid4 now => discard (on_manager (create_run config uuid4 now))
  | UpdateRunStatus id status now => on_manager (update_run_status id status now)
  | UpdateRunProgress id stage status =>
      on_manager (update_run_progress id stage status)
  | SetRunResult id res now => on_manager (set_run_result id res now)
  | SetRunError id msg now => on_manager (set_run_error id msg now)
  | SetNotionUrl id url => on_manager (set_notion_url id url)
  | CancelRun id now => discard (on_manager (cancel_run id now))
  | RegisterTask id task => on_manager (register_task id task)
  | SaveToHistory run => on_manager (save_to_history run)
  | ListRecentRuns limit => discard (on_manager (list_recent_runs limit))
  | SendProgress id stage status => _send_progress id stage status
  | ProgressCallback id step text => progress_callback id step text
  | ExecutePipeline id ex notion now later =>
      _execute_pipeline id ex notion now later
  | CancelRoute id now => discard (cancel_run_route id now)
  | WebsocketEndpoint ws id incoming => websocket_endpoint ws id incoming
  end.






(** A computation under which a property of the state persists, however
    it ends. *)
Definition keeps {S A} (I : S → Prop) (m : M S A) : Prop :=
  ∀ s, I s → I (m s).2.

End FramesTerms.

Section SortFactsTerms.
Context {A : Type} (key : A → Z).
Implicit Types (x y : A) (l : list A) (P : A → bool).


End SortFactsTerms.

Section ListingTerms.
Context `{Domain}.
Implicit Types (self : RunManager) (run r : RunState) (l : list RunState)
  (seen : gset string) (id : string).

(** The first record of each identifier not seen before. *)
Fixpoint first_of_each seen l : list RunState :=
  match l with
  | [] => []
  | r :: l' =>
      if bool_decide (run_id r ∈ seen) then first_of_each seen l'
      else r :: first_of_each ({[run_id r]} ∪ seen) l'
  end.


(** The limit [list_recent_runs] works with. *)
Definition effective_limit self (limit : option Z) : Z :=
  match limit with
  | Some l => if (l =? 0)%Z then max_history self else l
  | None => max_history self
  end.

(** The records of the registry, then those of the history file. *)
Definition merged self : list RunState :=
  dict_values (_active_runs self) ++ loaded_runs (history_file self).

(** The merged records, newest first, one per identifier. *)
Definition recent self : list RunState :=
  first_of_each ∅ (sort_desc started_at (merged self)).

(** Every record sits under its own identifier, and under one key. *)
Definition registry_wf self : Prop :=
  NoDup (dict_keys (_active_runs self))
  ∧ ∀ k v, (k, v) ∈ _active_runs self → run_id v = k.

End ListingTerms.

End Terms.

(** ** Values to run the definitions on *)

Module Scenarios.
Import RunManagerModel ApiModel Terms Sample.
Local Open Scope Z_scope.

Definition cfg : PipelineConfig := "Test Podcast".

(** A manager as the server sets it up, with one run under way. *)
Definition run_a : RunState :=
  mkRunState "a" cfg "running" ∅ None None 1 None None.
Definition fresh : RunManager := __init__ Absent true None None.
Definition busy : RunManager := set_active_runs [("a", run_a)] fresh.
Definition studio : Api := mkApi (Some busy) ∅ ∅ [] [].

(** The same run, cancelled. *)
Definition run_a_canceled : RunState := canceled_at 5 run_a.
Definition idle : RunManager := set_active_runs [("a", run_a_canceled)] fresh.
Definition studio_idle : Api := mkApi (Some idle) ∅ ∅ [] [].

Definition clean_result : PipelineResult :=
  mkPipelineResult "/tmp/work" ["fetch"; "transcribe"] ∅ 10 [].

(** A history of two runs under a maximum of two, and a third run. *)
Definition run_x : RunState :=
  mkRunState "x" cfg "completed" ∅ None None 2 (Some 3) None.
Definition run_y : RunState :=
  mkRunState "y" cfg "failed" ∅ None (Some "boom") 1 (Some 2) None.
Definition run_z : RunState :=
  mkRunState "z" cfg "completed" ∅ None None 4 (Some 5) None.
Definition archive : RunManager :=
  __init__ (file_of [run_x; run_y]) true None (Some 2).




End Scenarios.

(** ** Terms of the further statements *)

Module MoreTerms.
Import RunManagerModel ApiModel Terms.

Section RecordTerms.
Context `{Domain}.
Implicit Types (rm self : RunManager) (run : RunState) (a : Api) (id : string).

Definition with_config (c : PipelineConfig) run : RunState :=
  mkRunState (run_id run) c (status run) (progress run) (result run)
    (error run) (started_at run) (completed_at run) (notion_url run).

(** The record comes back from the file as it went in. *)
Definition round_trips run : Prop :=
  decode_item (ItemDict (to_dict run)) = Ret run.

(** A record that is in a terminal state says when it got there. *)
Definition record_ok run : Prop :=
  is_terminal_status (status run) = true → is_Some (completed_at run).

(** Every record of the registry, under its key, has the property, and
    no key occurs twice. *)
Definition registry_all (P : string → RunState → Prop) rm : Prop :=
  NoDup (dict_keys (_active_runs rm))
  ∧ ∀ k v, (k, v) ∈ _active_runs rm → P k v.

Definition manager_ok rm : Prop :=
  registry_all (λ k v, run_id v = k ∧ record_ok v) rm.

(** The registry holds a record for [id] that agrees with [run] on what
    [create_run] gave it. *)
Definition same_origin run run' : Prop :=
  run_id run' = run_id run ∧ config run' = config run
  ∧ started_at run' = started_at run.

Definition holds_origin id run rm : Prop :=
  ∃ run', get_run id rm = Some run' ∧ same_origin run run'.

(** The parameters of a manager and the disk under it stay what they
    are, the log keeps what it has, and (where [f] is given) so does the
    history file. *)
Definition same_setting (f : option file_state) self rm : Prop :=
  max_concurrent rm = max_concurrent self
  ∧ max_history rm = max_history self
  ∧ fs_writable rm = fs_writable self
  ∧ log self `prefix_of` log rm
  ∧ ∀ f0, f = Some f0 → history_file rm = f0.

(** No task is registered, and the tasks cancelled so far are [c]. *)
Definition no_task (c : list Task) rm : Prop :=
  _run_tasks rm = ∅ ∧ cancelled rm = c.

(** No more than [n] runs are pending or running. *)
Definition at_most (n : Z) rm : Prop := (active_count rm <= n)%Z.

Definition within_ceiling rm : Prop :=
  (active_count rm <= max_concurrent rm)%Z.

(** The statuses [active_count] counts. *)
Definition active_status (s : string) : bool :=
  bool_decide (s = "pending") || bool_decide (s = "running").

(** A rewrite of a record that keeps it under its identifier and keeps
    it consistent. *)
Definition sound_rewrite run run' : Prop :=
  run_id run' = run_id run ∧ (record_ok run → record_ok run').

(** A rewrite of a record that does not make it active. *)
Definition no_activation run run' : Prop :=
  is_active run' = true → is_active run = true.

(** A property of the manager, as a property of the API's state. *)
Definition lifted (J : RunManager → Prop) a : Prop :=
  ∃ rm, run_manager a = Some rm ∧ J rm.

(** The methods of the manager an operation calls keep [J]. *)
Definition manager_closed (J : RunManager → Prop) (op : operation) : Prop :=
  match op with
  | CreateRun config uuid4 now => keeps J (create_run config uuid4 now)
  | UpdateRunStatus id status now => keeps J (update_run_status id status now)
  | UpdateRunProgress id stage status =>
      keeps J (update_run_progress id stage status)
  | SetRunResult id res now => keeps J (set_run_result id res now)
  | SetRunError id msg now => keeps J (set_run_error id msg now)
  | SetNotionUrl id url => keeps J (set_notion_url id url)
  | CancelRun id now | CancelRoute id now => keeps J (cancel_run id now)
  | RegisterTask id task => keeps J (register_task id task)
  | SaveToHistory run => keeps J (save_to_history run)
  | ListRecentRuns limit => keeps J (list_recent_runs limit)
  | SendProgress _ _ _ | WebsocketEndpoint _ _ _ => True
  | ProgressCallback id step text =>
      keeps J (update_run_progress id (normalize_stage step)
                 (normalize_status text))
  | ExecutePipeline id ex notion now later =>
      keeps J (update_run_status id "running" now)
      ∧ keeps J (update_run_status id "canceled" later)
      ∧ (∀ stage status, keeps J (update_run_progress id stage status))
      ∧ (∀ res, keeps J (set_run_result id res now))
      ∧ (∀ msg, keeps J (set_run_error id msg later))
      ∧ (∀ url, keeps J (set_notion_url id url))
      ∧ (∀ run, keeps J (save_to_history run))
  end.

(** The operations one after the other. *)
Definition perform_all (ops : list operation) a : Api :=
  fold_left (λ a op, exec (perform op) a) ops a.

Definition draws_id id (op : operation) : bool :=
  match op with
  | CreateRun _ uuid4 _ => bool_decide (uuid4 = id)
  | _ => false
  end.

Definition registers (op : operation) : bool :=
  match op with RegisterTask _ _ => true | _ => false end.

Definition saves (op : operation) : bool :=
  match op with
  | SaveToHistory _ | ExecutePipeline _ _ _ _ _ => true
  | _ => false
  end.


End RecordTerms.

End MoreTerms.

(** ** Exceptions that are told apart by class and read for their text

    The preset manager and the routes raise exceptions whose text
    reaches the client ([detail=str(e)]). *)

Module Raising.

Inductive exception :=
  | ValueErrorOf (text : string)     (* ValueError or a subclass of it *)
  | RuntimeErrorOf (text : string)
  | OSErrorOf (text : string)
  | TypeErrorOf (text : string)
  | HTTPExceptionOf (status_code : Z) (detail : string)
  | ExceptionOf (text : string)      (* any other Exception *)
  | CancelledErrorOf.                (* a BaseException *)

(** The classes [except Exception] takes. *)
Definition is_Exception_of (e : exception) : bool :=
  match e with CancelledErrorOf => false | _ => true end.

Inductive result (A : Type) :=
  | Done (a : A)
  | Failed (e : exception).
Arguments Done {A} a.
Arguments Failed {A} e.

Definition X (S A : Type) : Type := S → result A * S.

Definition xret {S A} (a : A) : X S A := λ s, (Done a, s).
Definition xraise {S A} (e : exception) : X S A := λ s, (Failed e, s).
Definition xbind {S A B} (m : X S A) (k : A → X S B) : X S B :=
  λ s, match m s with
       | (Done a, s') => k a s'
       | (Failed e, s') => (Failed e, s')
       end.
Definition xget {S} : X S S := λ s, (Done s, s).
Definition xmodify {S} (f : S → S) : X S unit := λ s, (Done tt, f s).

(** [try: body] followed by [except] clauses: [handlers e] is the body
    of the first clause that takes [e], if one does. *)
Definition xtry {S A} (body : X S A) (handlers : exception → option (X S A))
    : X S A :=
  λ s, match body s with
       | (Done a, s') => (Done a, s')
       | (Failed e, s') =>
           match handlers e with
           | Some handler => handler s'
           | None => (Failed e, s')
           end
       end.

Definition xexec {S A} (m : X S A) (s : S) : S := (m s).2.
Definition xreturned {S A} (m : X S A) (s : S) : result A := (m s).1.

End Raising.

Notation "'let*' x ':=' m 'in' k" := (Raising.xbind m (λ x, k))
  (at level 10, x pattern, m at level 100, k at level 200,
   format "'[v' 'let*'  x  :=  m  'in' '/' k ']'") : py_scope.
Notation "'do*' m 'in' k" := (Raising.xbind m (λ _, k))
  (at level 10, m at level 100, k at level 200,
   format "'[v' 'do*'  m  'in' '/' k ']'") : py_scope.

(** ** podx/ui/preset_manager.py *)

Module PresetManagerModel.
Import Raising.

#[local] Set Warnings "-register-all".

(** What [json.loads] returns and [json.dumps] takes; a number is
    carried by the text [json.dumps] writes for it.  An object is a
    [dict]: its keys in insertion order. *)
Inductive json :=
  | JNull
  | JBool (b : bool)
  | JNumber (literal : string)
  | JString (s : string)
  | JArray (items : list json)
  | JObject (members : list (string * json)).

(** [class Preset]. *)
Record Preset := mkPreset {
  name : string;
  config : json;
}.

Definition to_dict (self : Preset) : json :=
  JObject [("name", JString (name self)); ("config", config self)].

(** The file [self.presets_file] names. *)
Inductive file :=
  | Missing                        (* exists() is false *)
  | Unreadable                     (* read_text() raises *)
  | Holding (data : option json).  (* None: json.loads raises *)

(** [class PresetManager]: its file, whether the disk takes a write, and
    the module's logger. *)
Record PresetManager := mkPresetManager {
  presets_file : file;
  writable : bool;
  log : list RunManagerModel.LogRecord;
}.

Definition set_presets_file (f : file) (m : PresetManager) : PresetManager :=
  mkPresetManager f (writable m) (log m).
Definition set_log (l : list RunManagerModel.LogRecord) (m : PresetManager)
    : PresetManager :=
  mkPresetManager (presets_file m) (writable m) l.

Definition logger (lv : RunManagerModel.level) (event : string)
    : X PresetManager unit :=
  xmodify (λ m, set_log (log m ++ [(lv, event)]) m).

(** [del d[k]]. *)
Definition dict_del {V} (k : string) (d : list (string * V))
    : list (string * V) :=
  List.filter (λ kv, negb (bool_decide (kv.1 = k))) d.

(** [k in d]. *)
Definition dict_has {V} (k : string) (d : list (string * V)) : bool :=
  bool_decide (is_Some (dict_get k d)).

Definition _load_presets : X PresetManager (list (string * json)) :=
  let* self := xget in
  match presets_file self with
  | Missing => xret []
  | _ =>
      xtry
        (let* content :=
           match presets_file self with
           | Holding content => xret content
           | _ => xraise (OSErrorOf "read_text")
           end in
         let* data :=
           match content with
           | Some data => xret data
           | None => xraise (ValueErrorOf "JSONDecodeError")
           end in
         xret (match data with JObject d => d | _ => [] end))
        (λ e,
         if is_Exception_of e then
           Some (do* logger RunManagerModel.WARNING "Failed to load presets" in
                 xret [])
         else None)
  end.

Definition _save_presets (presets : list (string * json))
    : X PresetManager unit :=
  let* self := xget in
  if writable self then
    xmodify (set_presets_file (Holding (Some (JObject presets))))
  else xraise (OSErrorOf "write_text").

Definition list_presets : X PresetManager (list Preset) :=
  let* presets_dict := _load_presets in
  xret ((λ kv, mkPreset kv.1 kv.2) <$> presets_dict).

Definition get_preset (name : string) : X PresetManager (option Preset) :=
  let* presets_dict := _load_presets in
  match dict_get name presets_dict with
  | None => xret None
  | Some config => xret (Some (mkPreset name config))
  end.

Definition create_preset (name : string) (config : json)
    : X PresetManager Preset :=
  let* presets_dict := _load_presets in
  if dict_has name presets_dict then
    xraise (ValueErrorOf ("Preset '" +:+ name +:+ "' already exists"))
  else
    let presets_dict := dict_set name config presets_dict in
    do* _save_presets presets_dict in
    do* logger RunManagerModel.INFO "Created preset" in
    xret (mkPreset name config).

Definition update_preset (name : string) (config : json)
    : X PresetManager Preset :=
  let* presets_dict := _load_presets in
  if negb (dict_has name presets_dict) then
    xraise (ValueErrorOf ("Preset '" +:+ name +:+ "' does not exist"))
  else
    let presets_dict := dict_set name config presets_dict in
    do* _save_presets presets_dict in
    do* logger RunManagerModel.INFO "Updated preset" in
    xret (mkPreset name config).

Definition delete_preset (name : string) : X PresetManager bool :=
  let* presets_dict := _load_presets in
  if negb (dict_has name presets_dict) then xret false
  else if bool_decide (name = "Recommended") then
    xraise (ValueErrorOf "Cannot delete the default 'Recommended' preset")
  else
    let presets_dict := dict_del name presets_dict in
    do* _save_presets presets_dict in
    do* logger RunManagerModel.INFO "Deleted preset" in
    xret true.

Definition recommended : json :=
  JObject [("diarize", JBool true); ("deepcast", JBool true);
           ("extract_markdown", JBool true); ("preprocess", JBool true)].

Definition _ensure_default_preset : X PresetManager unit :=
  let* presets := list_presets in
  if negb (existsb (λ p, bool_decide (name p = "Recommended")) presets) then
    do* create_preset "Recommended" recommended in
    xret tt
  else xret tt.

(** [PresetManager(presets_file)] over a file in the given state: the
    object, then what the constructor does with it. *)
Definition new (f : file) (writable : bool) : PresetManager :=
  mkPresetManager f writable [].

Definition __init__ : X PresetManager unit := _ensure_default_preset.

End PresetManagerModel.

Module PresetTerms.
Import Raising PresetManagerModel.
Implicit Types (self : PresetManager) (f : file) (d : list (string * json)).

(** The presets a file yields, and the warning its reading leaves. *)
Definition stored f : list (string * json) :=
  match f with
  | Holding (Some (JObject d)) => d
  | _ => []
  end.

Definition load_warning f : list RunManagerModel.LogRecord :=
  match f with
  | Unreadable | Holding None =>
      [(RunManagerModel.WARNING, "Failed to load presets")]
  | _ => []
  end.

Definition presets_of self : list (string * json) := stored (presets_file self).

(** The manager after a load. *)
Definition loaded_from self : PresetManager :=
  set_log (log self ++ load_warning (presets_file self)) self.

Definition has_recommended self : Prop :=
  is_Some (dict_get "Recommended" (presets_of self)).

(** What a caller can ask of the manager. *)
Inductive request :=
  | ListPresets
  | GetPreset (name : string)
  | CreatePreset (name : string) (config : json)
  | UpdatePreset (name : string) (config : json)
  | DeletePreset (name : string).

Definition discard {S A} (m : X S A) : X S unit := do* m in xret tt.

Definition serve (r : request) : X PresetManager unit :=
  match r with
  | ListPresets => discard list_presets
  | GetPreset name => discard (get_preset name)
  | CreatePreset name config => discard (create_preset name config)
  | UpdatePreset name config => discard (update_preset name config)
  | DeletePreset name => discard (delete_preset name)
  end.

Definition serve_all (rs : list request) self : PresetManager :=
  fold_left (λ self r, xexec (serve r) self) rs self.

End PresetTerms.

(** ** podx/ui/url_validator.py *)

(** [podx.youtube.is_youtube_url] and [urllib.parse.urlparse], of which
    the validator reads the attributes [scheme] and [netloc]. *)
Record ParseResult := mkParseResult {
  scheme : string;
  netloc : string;
}.

Class UrlLib := {
  (** [None] when the call raises. *)
  is_youtube_url : string → option bool;
  (** [inr text] when the call raises an exception with that text. *)
  urlparse : string → ParseResult + string;
}.

Module UrlValidatorModel.

(** *** [str.strip] *)

Definition bytes (l : list nat) : list ascii := ascii_of_nat <$> l.

(** The characters [str.strip()] removes, in the encoding strings are
    carried in: U+0009 to U+000D, U+001C to U+0020, U+0085, U+00A0,
    U+1680, U+2000 to U+200A, U+2028, U+2029, U+202F, U+205F, U+3000. *)
Definition whitespace : list (list ascii) :=
  bytes <$>
  [[9]; [10]; [11]; [12]; [13]; [28]; [29]; [30]; [31]; [32];
   [194; 133]; [194; 160]; [225; 154; 128];
   [226; 128; 128]; [226; 128; 129]; [226; 128; 130]; [226; 128; 131];
   [226; 128; 132]; [226; 128; 133]; [226; 128; 134]; [226; 128; 135];
   [226; 128; 136]; [226; 128; 137]; [226; 128; 138];
   [226; 128; 168]; [226; 128; 169]; [226; 128; 175]; [226; 129; 159];
   [227; 128; 128]]%nat.

Fixpoint starts_with (p s : list ascii) : bool :=
  match p, s with
  | [], _ => true
  | c :: p', c' :: s' => bool_decide (c = c') && starts_with p' s'
  | _ :: _, [] => false
  end.

(** The text with the characters of [chars] (each a sequence of bytes)
    taken off its front, for as long as one is there. *)
Fixpoint lstrip_chars (chars : list (list ascii)) (fuel : nat) (s : list ascii)
    : list ascii :=
  match fuel with
  | O => s
  | S fuel' =>
      match List.find (λ w, starts_with w s) chars with
      | Some w => lstrip_chars chars fuel' (drop (length w) s)
      | None => s
      end
  end.

Definition lstrip (s : list ascii) : list ascii :=
  lstrip_chars whitespace (length s) s.

Definition rstrip (s : list ascii) : list ascii :=
  reverse (lstrip_chars (reverse <$> whitespace) (length s) (reverse s)).

Definition strip (s : string) : string :=
  string_of_list_ascii (rstrip (lstrip (list_ascii_of_string s))).

(** *** [re.search] for the patterns of [rss_indicators] *)

(** [s.endswith(suffix)]. *)
Definition ends_with (suffix s : string) : bool :=
  starts_with (reverse (list_ascii_of_string suffix)) (reverse (list_ascii_of_string s)).

(** A pattern without operators, and one closed by [$]. *)
Inductive pattern :=
  | Literal (text : string)
  | LiteralAtEnd (text : string).

Definition newline : string := String (ascii_of_nat 10) EmptyString.

(** [re.search(pattern, s)] is not [None].  Without [re.MULTILINE] a
    [$] matches at the end of the string and before a newline that ends
    it. *)
Definition re_search (p : pattern) (s : string) : bool :=
  match p with
  | Literal text => contains text s
  | LiteralAtEnd text => ends_with text s || ends_with (text +:+ newline) s
  end.

(** *** [validate_url] *)

Record Verdict := mkVerdict {
  valid : bool;
  type : string;
  error : option string;
}.

Definition rss_indicators : list pattern :=
  [LiteralAtEnd ".xml"; Literal "/feed"; Literal "/rss"; Literal "/podcast";
   Literal "feed="; Literal "format=rss"; Literal "type=rss"].

Section WithLib.
Context `{UrlLib}.

Definition validate_url (url : string) : Verdict :=
  if bool_decide (url = "") || bool_decide (strip url = "") then
    mkVerdict false "invalid" (Some "URL cannot be empty")
  else
    let url := strip url in
    if match is_youtube_url url with Some b => b | None => false end then
      mkVerdict true "youtube" None
    else
      match urlparse url with
      | inr text =>
          mkVerdict false "invalid" (Some ("Invalid URL format: " +:+ text))
      | inl parsed =>
          if bool_decide (scheme parsed = "")
             || negb (bool_decide (scheme parsed ∈ ["http"; "https"]))
          then
            mkVerdict false "invalid"
              (Some "URL must start with http:// or https://")
          else if bool_decide (netloc parsed = "") then
            mkVerdict false "invalid" (Some "Invalid URL format")
          else
            let url_lower := lower url in
            if existsb (λ pattern, re_search pattern url_lower) rss_indicators
            then mkVerdict true "rss" None
            else mkVerdict true "podcast_page" None
      end.

End WithLib.

End UrlValidatorModel.

Module UrlTerms.
Import UrlValidatorModel.

Definition rss_words : list string :=
  ["/feed"; "/rss"; "/podcast"; "feed="; "format=rss"; "type=rss"].

(** The address, letter case apart, ends in ".xml" or has one of the
    words in it. *)
Definition rss_like (u : string) : Prop :=
  (∃ pre, lower u = pre +:+ ".xml")
  ∨ ∃ w pre post, w ∈ rss_words ∧ lower u = pre +:+ w +:+ post.

Definition invalid (text : string) : Verdict :=
  mkVerdict false "invalid" (Some text).

(** No character that [strip] removes is at the front of the text. *)
Definition clean_front (chars : list (list ascii)) (s : list ascii) : Prop :=
  ∀ w, w ∈ chars → starts_with w s = false.

End UrlTerms.

(** ** podx/ui/api.py: the routes that read a run *)

(** [Path(p).exists()] at the time of the request. *)
Class Disk := {
  path_exists : string → bool;
}.

Module ReadRoutesModel.
Import RunManagerModel ApiModel.

Section WithDomain.
Context `{Domain} `{Disk}.

(** [FileResponse(path, media_type=...)]. *)
Record FileResponse := mkFileResponse {
  path : string;
  media_type : string;
}.

(** [models.RunStatus]: the keys of [to_dict] but "config", which the
    model does not declare and drops. *)
Record RunStatus := mkRunStatus {
  rs_run_id : string;
  rs_status : string;
  rs_progress : gmap string string;
  rs_result : option result_dict;
  rs_error : option string;
  rs_started_at : string;
  rs_completed_at : option string;
  rs_notion_url : option string;
}.

Definition RunStatus_of (run : RunState) : RunStatus :=
  mkRunStatus (run_id run) (status run) (progress run)
    (_result_to_dict <$> result run) (error run)
    (isoformat (started_at run)) (isoformat <$> completed_at run)
    (notion_url run).

(** The opening of every route on a run: the manager, then the run. *)
Definition find_run (run_id : string) : M Api RunState :=
  let! a := get in
  match run_manager a with
  | None => raise (HTTPException 500 "Run manager not initialized")
  | Some rm =>
      match get_run run_id rm with
      | None =>
          raise (HTTPException 404 ("Run '" +:+ run_id +:+ "' not found"))
      | Some run => ret run
      end
  end.

(** [GET /api/runs/{run_id}]. *)
Definition get_run_route (run_id : string) : M Api RunStatus :=
  let! run := find_run run_id in
  ret (RunStatus_of run).

(** [d.get(key)] read for its truth: a missing key and an empty text
    are both false. *)
Definition get_truthy (key : string) (d : gmap string string) : option string :=
  match d !! key with
  | Some "" | None => None
  | Some text => Some text
  end.

(** [GET /api/runs/{run_id}/transcript]. *)
Definition get_transcript (run_id : string) : M Api FileResponse :=
  let! run := find_run run_id in
  match result run with
  | None => raise (HTTPException 404 "Run has no result")
  | Some res =>
      let transcript_path :=
        match get_truthy "transcript" (artifacts res) with
        | Some p => Some p
        | None => artifacts res !! "latest_json"
        end in
      match transcript_path with
      | None | Some "" => raise (HTTPException 404 "Transcript not found")
      | Some transcript_path =>
          if negb (path_exists transcript_path) then
            raise (HTTPException 404 "Transcript file not found")
          else ret (mkFileResponse transcript_path "application/json")
      end
  end.

Definition format_map : list (string * string) :=
  [("txt", "latest_txt"); ("json", "latest_json"); ("srt", "latest_srt");
   ("vtt", "latest_vtt"); ("md", "deepcast_md")].

Definition media_types : list (string * string) :=
  [("txt", "text/plain"); ("json", "application/json"); ("srt", "text/srt");
   ("vtt", "text/vtt"); ("md", "text/markdown")].

(** [GET /api/runs/{run_id}/export/{format}]. *)
Definition export_artifact (run_id format : string) : M Api FileResponse :=
  let! run := find_run run_id in
  match result run with
  | None => raise (HTTPException 404 "Run has no result")
  | Some res =>
      match dict_get (lower format) format_map with
      | None =>
          raise (HTTPException 400 ("Unsupported format: " +:+ format))
      | Some artifact_key =>
          match get_truthy artifact_key (artifacts res) with
          | None =>
              raise (HTTPException 404
                       ("Artifact '" +:+ format +:+ "' not found"))
          | Some artifact_path =>
              if negb (path_exists artifact_path) then
                raise (HTTPException 404 "Artifact file not found")
              else
                ret (mkFileResponse artifact_path
                       (default "application/octet-stream"
                          (dict_get format media_types)))
          end
      end
  end.

End WithDomain.
End ReadRoutesModel.

(** ** podx/ui/api.py: the routes that start runs and keep presets *)

(** What these routes take from outside the sources: values of
    configuration fields, [podx.config.get_config()], the constructor of
    [PipelineConfig] when it refuses its arguments, and the text of an
    [HTTPException]. *)
Class Settings `{Domain} := {
  (** A Python [bool], and a value read from a presets file, as values
      of configuration fields. *)
  any_bool : bool → Any;
  any_json : PresetManagerModel.json → Any;
  (** [bool(value)]. *)
  truthy : Any → bool;
  (** The exception the constructor of [PipelineConfig] raises when it
      refuses the entries of [d] as keyword arguments. *)
  init_error : list (string * Any) → Raising.exception;
  (** [str(HTTPException(status_code, detail))]. *)
  http_text : Z → string → string;
  (** The attributes of [get_config()] the routes read. *)
  default_asr_model : Any;
  default_compute : Any;
  openai_model : Any;
  openai_temperature : Any;
  notion_db_id : Any;
  notion_podcast_prop : Any;
  notion_date_prop : Any;
  notion_episode_prop : Any;
}.

Module WriteRoutesModel.
Import RunManagerModel ApiModel Raising.

Section WithDomain.
Context `{Settings} `{UrlLib}.

(** [str(e)]. *)
Definition text_of (e : exception) : string :=
  match e with
  | ValueErrorOf t | RuntimeErrorOf t | OSErrorOf t | TypeErrorOf t
  | ExceptionOf t => t
  | HTTPExceptionOf c d => http_text c d
  | CancelledErrorOf => ""
  end.

(** An exception of the run manager, with its class and text. *)
Definition of_exn (e : exn) : exception :=
  match e with
  | RuntimeError m => RuntimeErrorOf m
  | ValueError | JSONDecodeError => ValueErrorOf (exn_str e)
  | TypeError => TypeErrorOf (exn_str e)
  | OSError => OSErrorOf (exn_str e)
  | HTTPException c d => HTTPExceptionOf c d
  | CancelledError => CancelledErrorOf
  | KeyError _ | AttributeError | Fault _ => ExceptionOf (exn_str e)
  end.

(** *** [_url_to_config] *)

(** [d.update(other)]. *)
Definition dict_update {V} (other d : list (string * V)) : list (string * V) :=
  fold_left (λ d kv, dict_set kv.1 kv.2 d) other d.

(** [if key not in d: d[key] = value]. *)
Definition dict_setdefault {V} (key : string) (value : V)
    (d : list (string * V)) : list (string * V) :=
  match dict_get key d with
  | Some _ => d
  | None => dict_set key value d
  end.

(** The dictionary [_url_to_config] hands to [PipelineConfig], for an
    address of the type [url_type]. *)
Definition config_entries (url_type url : string)
    (advanced : option (list (string * Any))) : list (string * Any) :=
  let config_dict :=
    [("verbose", any_bool false); ("clean", any_bool false);
     ("no_keep_audio", any_bool false)] in
  let config_dict :=
    if bool_decide (url_type = "youtube")
    then dict_set "youtube_url" (any_str url) config_dict
    else dict_set "rss_url" (any_str url) config_dict in
  let config_dict :=
    match advanced with
    | Some (kv :: advanced') => dict_update (kv :: advanced') config_dict
    | Some [] | None => config_dict
    end in
  let config_dict := dict_setdefault "model" default_asr_model config_dict in
  let config_dict := dict_setdefault "compute" default_compute config_dict in
  let config_dict := dict_setdefault "deepcast_model" openai_model config_dict in
  let config_dict :=
    dict_setdefault "deepcast_temp" openai_temperature config_dict in
  if match dict_get "notion" config_dict with
     | Some v => truthy v
     | None => false
     end && truthy notion_db_id
  then
    dict_set "episode_prop" notion_episode_prop
      (dict_set "date_prop" notion_date_prop
         (dict_set "podcast_prop" notion_podcast_prop
            (dict_set "notion_db" notion_db_id config_dict)))
  else config_dict.

Definition _url_to_config (url : string)
    (advanced : option (list (string * Any))) : result PipelineConfig :=
  let validation := UrlValidatorModel.validate_url url in
  if negb (UrlValidatorModel.valid validation) then
    Failed (ValueErrorOf
              ("Invalid URL: "
               +:+ default "None" (UrlValidatorModel.error validation)))
  else
    let config_dict :=
      config_entries (UrlValidatorModel.type validation) url advanced in
    match PipelineConfig_init config_dict with
    | Some config => Done config
    | None => Failed (init_error config_dict)
    end.

(** *** The server *)

(** The globals of the module and the tasks it has handed to the event
    loop ([asyncio.create_task(_execute_pipeline(run_id, config))]),
    oldest first. *)
Record Server := mkServer {
  api : Api;
  preset_manager : option PresetManagerModel.PresetManager;
  background : list (string * PipelineConfig);
}.

Definition set_api (a : Api) (s : Server) : Server :=
  mkServer a (preset_manager s) (background s).
Definition set_preset_manager (p : option PresetManagerModel.PresetManager)
    (s : Server) : Server :=
  mkServer (api s) p (background s).
Definition set_background (b : list (string * PipelineConfig)) (s : Server)
    : Server :=
  mkServer (api s) (preset_manager s) b.

(** A function of api.py run on the server. *)
Definition on_api {A} (m : M Api A) : X Server A :=
  λ s, match m (api s) with
       | (Ret x, a') => (Done x, set_api a' s)
       | (Raise e, a') => (Failed (of_exn e), set_api a' s)
       end.

(** A method call on the global [preset_manager], which is there. *)
Definition on_presets {A} (method : X PresetManagerModel.PresetManager A)
    (pm : PresetManagerModel.PresetManager) : X Server A :=
  λ s, let '(r, pm') := method pm in (r, set_preset_manager (Some pm') s).

(** The request of [POST /api/runs]; [advanced] is
    [request.advanced.model_dump(exclude_unset=True)] when the request
    carries advanced options. *)
Record RunRequest := mkRunRequest {
  url : string;
  preset : option string;
  advanced : option (list (string * Any));
}.

(** What the route does from the merge of the options on when the
    preset it found holds a configuration that is no object (a file
    written by [create_preset] through the API holds objects only). *)
Variable ill_typed :
  PresetManagerModel.json → RunRequest → string → Z → X Server string.

(** The handlers of [create_run]. *)
Definition create_run_handlers (e : exception) : option (X Server string) :=
  match e with
  | RuntimeErrorOf t => Some (xraise (HTTPExceptionOf 429 t))
  | ValueErrorOf t => Some (xraise (HTTPExceptionOf 400 t))
  | CancelledErrorOf => None
  | _ =>
      Some (do* on_api (api_logger ERROR "Failed to create run") in
            xraise (HTTPExceptionOf 500 (text_of e)))
  end.

(** [POST /api/runs]; [uuid4] and [now] are what [create_run] of the
    manager draws. *)
Definition create_run_route (request : RunRequest) (uuid4 : string) (now : Z)
    : X Server string :=
  let* s := xget in
  match run_manager (api s) with
  | None => xraise (HTTPExceptionOf 500 "Run manager not initialized")
  | Some _ =>
      xtry
        (let* found :=
           match preset request with
           | None | Some "" => xret None
           | Some name =>
               let* preset :=
                 match preset_manager s with
                 | Some pm => on_presets (PresetManagerModel.get_preset name) pm
                 | None => xret None
                 end in
               match preset with
               | None =>
                   xraise (HTTPExceptionOf 404
                             ("Preset '" +:+ name +:+ "' not found"))
               | Some preset => xret (Some (PresetManagerModel.config preset))
               end
           end in
         let rest (advanced_dict : option (list (string * Any))) :=
           let advanced_dict :=
             match advanced request with
             | Some advanced_dict_new =>
                 match advanced_dict with
                 | Some (kv :: d) =>
                     Some (dict_update advanced_dict_new (kv :: d))
                 | Some [] | None => Some advanced_dict_new
                 end
             | None => advanced_dict
             end in
           match _url_to_config (url request) advanced_dict with
           | Failed e => xraise e
           | Done config =>
               let* run_id := on_api (on_manager (create_run config uuid4 now)) in
               do* xmodify (λ s,
                     set_background (background s ++ [(run_id, config)]) s) in
               xret run_id
           end in
         match found with
         | None => rest None
         | Some (PresetManagerModel.JObject members) =>
             rest (Some ((λ kv, (kv.1, any_json kv.2)) <$> members))
         | Some other => ill_typed other request uuid4 now
         end)
        create_run_handlers
  end.

(** *** The preset routes *)

Definition no_preset_manager : exception :=
  HTTPExceptionOf 500 "Preset manager not initialized".

(** [POST /api/presets]; the configuration of the request is an object,
    as [PresetCreateRequest] has checked. *)
Definition create_preset_route (name : string)
    (config : list (string * PresetManagerModel.json))
    : X Server (string * list (string * PresetManagerModel.json)) :=
  let* s := xget in
  match preset_manager s with
  | None => xraise no_preset_manager
  | Some pm =>
      xtry
        (let* preset :=
           on_presets
             (PresetManagerModel.create_preset name
                (PresetManagerModel.JObject config)) pm in
         xret (PresetManagerModel.name preset, config))
        (λ e, match e with
              | ValueErrorOf t => Some (xraise (HTTPExceptionOf 400 t))
              | _ => None
              end)
  end.

(** [DELETE /api/presets/{name}]; the value is the "status" of the
    reply. *)
Definition delete_preset_route (name : string) : X Server string :=
  let* s := xget in
  match preset_manager s with
  | None => xraise no_preset_manager
  | Some pm =>
      xtry
        (let* success := on_presets (PresetManagerModel.delete_preset name) pm in
         if negb success then
           xraise (HTTPExceptionOf 404 ("Preset '" +:+ name +:+ "' not found"))
         else xret "deleted")
        (λ e, match e with
              | ValueErrorOf t => Some (xraise (HTTPExceptionOf 400 t))
              | _ => None
              end)
  end.

End WithDomain.
End WriteRoutesModel.

Module RouteTerms.
Import RunManagerModel ApiModel Raising WriteRoutesModel.

Section WithDomain.
Context `{Settings} `{UrlLib}.

(** The entries [_url_to_config] starts from, the defaults it fills in
    and the entries it sets for Notion. *)
Definition base_entries (url_type url : string) : list (string * Any) :=
  [("verbose", any_bool false); ("clean", any_bool false);
   ("no_keep_audio", any_bool false);
   (if bool_decide (url_type = "youtube") then "youtube_url" else "rss_url",
    any_str url)].

Definition default_entries : list (string * Any) :=
  [("model", default_asr_model); ("compute", default_compute);
   ("deepcast_model", openai_model); ("deepcast_temp", openai_temperature)].

Definition notion_entries : list (string * Any) :=
  [("notion_db", notion_db_id); ("podcast_prop", notion_podcast_prop);
   ("date_prop", notion_date_prop); ("episode_prop", notion_episode_prop)].

(** The options ask for Notion and a database is configured. *)
Definition notion_enabled (advanced : option (list (string * Any))) : bool :=
  match dict_get "notion" (default [] advanced) with
  | Some v => truthy v
  | None => false
  end && truthy notion_db_id.

(** The first of the sources that has the key. *)
Definition entry_of (url_type url : string)
    (advanced : option (list (string * Any))) (key : string) : option Any :=
  match (if notion_enabled advanced then dict_get key notion_entries else None) with
  | Some v => Some v
  | None =>
      match dict_get key (default [] advanced) with
      | Some v => Some v
      | None =>
          match dict_get key (base_entries url_type url) with
          | Some v => Some v
          | None => dict_get key default_entries
          end
      end
  end.

(** The options of a request laid over those of a preset. *)
Definition merged_options (preset_config : option (list (string * Any)))
    (advanced : option (list (string * Any))) : option (list (string * Any)) :=
  match advanced with
  | Some new =>
      match preset_config with
      | Some (kv :: d) => Some (dict_update new (kv :: d))
      | Some [] | None => Some new
      end
  | None => preset_config
  end.

(** What [create_run] does once it has the options of the preset, if
    one was asked for. *)
Definition start_run (request : RunRequest)
    (preset_config : option (list (string * Any))) (uuid4 : string) (now : Z)
    : X Server string :=
  match _url_to_config (url request)
          (merged_options preset_config (advanced request)) with
  | Failed e => xraise e
  | Done config =>
      let* run_id := on_api (on_manager (create_run config uuid4 now)) in
      do* xmodify (λ s,
            set_background (background s ++ [(run_id, config)]) s) in
      xret run_id
  end.

(** The request names no preset, or one that the file holds with an
    object for its configuration; [options] is then what the preset
    gives. *)
Definition preset_found (s : Server) (request : RunRequest)
    (options : option (list (string * Any))) : Prop :=
  ((preset request = None ∨ preset request = Some "") ∧ options = None)
  ∨ ∃ name pm members,
      preset request = Some name ∧ name ≠ ""
      ∧ preset_manager s = Some pm
      ∧ dict_get name (PresetTerms.presets_of pm)
        = Some (PresetManagerModel.JObject members)
      ∧ options = Some ((λ kv, (kv.1, any_json kv.2)) <$> members).

(** The request names a preset that is not to be had. *)
Definition preset_missing (s : Server) (request : RunRequest) (name : string)
    : Prop :=
  preset request = Some name ∧ name ≠ ""
  ∧ ∀ pm, preset_manager s = Some pm →
          dict_get name (PresetTerms.presets_of pm) = None.

(** The server once the presets have been read for the request. *)
Definition after_lookup (s : Server) (request : RunRequest) : Server :=
  match preset request, preset_manager s with
  | Some (String _ _), Some pm =>
      set_preset_manager (Some (PresetTerms.loaded_from pm)) s
  | _, _ => s
  end.

Definition api_logged (lv : level) (event : string) (s : Server) : Server :=
  set_api (set_api_log (api_log (api s) ++ [(lv, event)]) (api s)) s.

(** The server but for its presets' log. *)
Definition untouched (s s' : Server) : Prop :=
  run_manager (api s') = run_manager (api s)
  ∧ websocket_connections (api s') = websocket_connections (api s)
  ∧ sent (api s') = sent (api s)
  ∧ background s' = background s
  ∧ (PresetManagerModel.presets_file <$> preset_manager s')
    = (PresetManagerModel.presets_file <$> preset_manager s).

End WithDomain.
End RouteTerms.

(** ** podx/ui/debug_cli.py *)

(** What [generate_debug_cli] needs of floats and of [get_config()]. *)
Class CliEnv `{Domain} := {
  (** [x != y] and [f"{x}"] on floats. *)
  float_differs : float → float → bool;
  float_text : float → string;
  cli_default_asr_model : string;
  cli_openai_model : string;
  cli_openai_temperature : float;
}.

Module DebugCliModel.

(** *** Characters of a text *)

(** A byte that continues a character begun before it. *)
Definition is_continuation (b : ascii) : bool :=
  let n := nat_of_ascii b in (128 <=? n)%nat && (n <? 192)%nat.

(** The characters of a text, each with the bytes of its encoding;
    [cur] is the character under way. *)
Fixpoint group (cur : list ascii) (l : list ascii) : list (list ascii) :=
  match l with
  | [] => match cur with [] => [] | _ => [cur] end
  | b :: l' =>
      if is_continuation b then group (cur ++ [b]) l'
      else match cur with
           | [] => group [b] l'
           | _ => cur :: group [b] l'
           end
  end.

Definition characters (s : string) : list (list ascii) :=
  group [] (list_ascii_of_string s).

Definition text_of_characters (cs : list (list ascii)) : string :=
  string_of_list_ascii (concat cs).

(** [len(s)], [s[:n]] and [s[-n:]] for a positive [n]. *)
Definition len (s : string) : nat := length (characters s).
Definition first_chars (n : nat) (s : string) : string :=
  text_of_characters (take n (characters s)).
Definition last_chars (n : nat) (s : string) : string :=
  text_of_characters (drop (len s - n) (characters s)).

Section WithEnv.
Context `{CliEnv}.

(** The attributes of the configuration the function reads: a text
    that may be [None]; the text of an enumeration's value ([fmt], and
    [asr_provider] when it is set); flags; a float. *)
Record DebugConfig := mkDebugConfig {
  show : option string;
  rss_url : option string;
  youtube_url : option string;
  date : option string;
  title_contains : option string;
  fmt_value : string;
  model : string;
  compute : string;
  asr_provider : option string;
  diarize : bool;
  preprocess : bool;
  restore : bool;
  deepcast : bool;
  extract_markdown : bool;
  deepcast_pdf : bool;
  notion : bool;
  deepcast_model : string;
  deepcast_temp : float;
  notion_db : option string;
  podcast_prop : string;
  date_prop : string;
  episode_prop : string;
  verbose : bool;
  clean : bool;
  no_keep_audio : bool;
}.

(** An optional text read for its truth. *)
Definition given (v : option string) : option string :=
  match v with
  | Some "" | None => None
  | Some text => Some text
  end.

(** The double quote. *)
Definition quote : string := String (ascii_of_nat 34) EmptyString.

(** [f'{flag} "{text}"']. *)
Definition quoted (flag text : string) : string :=
  flag +:+ " " +:+ quote +:+ text +:+ quote.

(** [parts.append(part)] when the condition holds. *)
Definition append_if (condition : bool) (part : string) (parts : list string)
    : list string :=
  if condition then parts ++ [part] else parts.

Definition redact (db_id : string) : string :=
  if (16 <? len db_id)%nat
  then first_chars 8 db_id +:+ "..." +:+ last_chars 8 db_id
  else "***REDACTED***".

(** The list [parts] at the end of the function. *)
Definition debug_cli_parts (config : DebugConfig) : list string :=
  let parts := ["podx run"] in
  let parts :=
    match given (show config), given (rss_url config),
          given (youtube_url config) with
    | Some text, _, _ => parts ++ [quoted "--show" text]
    | None, Some text, _ => parts ++ [quoted "--rss-url" text]
    | None, None, Some text => parts ++ [quoted "--youtube-url" text]
    | None, None, None => parts
    end in
  let parts :=
    match given (date config) with
    | Some text => parts ++ [quoted "--date" text]
    | None => parts
    end in
  let parts :=
    match given (title_contains config) with
    | Some text => parts ++ [quoted "--title-contains" text]
    | None => parts
    end in
  let parts :=
    append_if (negb (bool_decide (fmt_value config = "wav16")))
      ("--fmt " +:+ fmt_value config) parts in
  let parts :=
    append_if (negb (bool_decide (model config = cli_default_asr_model)))
      (quoted "--model" (model config)) parts in
  let parts :=
    append_if (negb (bool_decide (compute config = "int8")))
      ("--compute " +:+ compute config) parts in
  let parts :=
    match given (asr_provider config) with
    | Some provider_value =>
        append_if (negb (bool_decide (provider_value = "auto")))
          ("--asr-provider " +:+ provider_value) parts
    | None => parts
    end in
  let parts := append_if (negb (diarize config)) "--no-diarize" parts in
  let parts := append_if (negb (preprocess config)) "--no-preprocess" parts in
  let parts := append_if (restore config) "--restore" parts in
  let parts := append_if (negb (deepcast config)) "--no-deepcast" parts in
  let parts :=
    append_if (negb (extract_markdown config)) "--no-markdown" parts in
  let parts := append_if (deepcast_pdf config) "--deepcast-pdf" parts in
  let parts := append_if (notion config) "--notion" parts in
  let parts :=
    append_if (negb (bool_decide (deepcast_model config = cli_openai_model)))
      (quoted "--deepcast-model" (deepcast_model config)) parts in
  let parts :=
    append_if (float_differs (deepcast_temp config) cli_openai_temperature)
      ("--deepcast-temp " +:+ float_text (deepcast_temp config)) parts in
  let parts :=
    match given (notion_db config) with
    | Some db_id => parts ++ [quoted "--db" (redact db_id)]
    | None => parts
    end in
  let parts :=
    append_if (negb (bool_decide (podcast_prop config = "Podcast")))
      (quoted "--podcast-prop" (podcast_prop config)) parts in
  let parts :=
    append_if (negb (bool_decide (date_prop config = "Date")))
      (quoted "--date-prop" (date_prop config)) parts in
  let parts :=
    append_if (negb (bool_decide (episode_prop config = "Episode")))
      (quoted "--episode-prop" (episode_prop config)) parts in
  let parts := append_if (verbose config) "--verbose" parts in
  let parts := append_if (clean config) "--clean" parts in
  append_if (no_keep_audio config) "--no-keep-audio" parts.

(** [" ".join(parts)]. *)
Definition generate_debug_cli (config : DebugConfig) : string :=
  String.concat " " (debug_cli_parts config).

End WithEnv.
End DebugCliModel.

Module DebugCliTerms.
Import DebugCliModel.

Section WithEnv.
Context `{CliEnv}.

(** The part is one of the three that name a source. *)
Definition names_source (part : string) : Prop :=
  ∃ text, part = quoted "--show" text ∨ part = quoted "--rss-url" text
          ∨ part = quoted "--youtube-url" text.

(** The part [generate_debug_cli] writes for the source, if it writes
    one: the show before the feed before the video. *)
Definition source_part (config : DebugConfig) : option string :=
  match given (show config), given (rss_url config),
        given (youtube_url config) with
  | Some text, _, _ => Some (quoted "--show" text)
  | None, Some text, _ => Some (quoted "--rss-url" text)
  | None, None, Some text => Some (quoted "--youtube-url" text)
  | None, None, None => None
  end.

End WithEnv.
End DebugCliTerms.

(** ** Libraries and values to run the further definitions on *)

Module UrlSample.

(** The host of an address from which the scheme has been taken. *)
Fixpoint host_of (s : string) : string :=
  match s with
  | EmptyString => EmptyString
  | String c s' =>
      if bool_decide (c = "/"%char) then EmptyString else String c (host_of s')
  end.

Fixpoint drop_chars (n : nat) (s : string) : string :=
  match n, s with
  | S n', String _ s' => drop_chars n' s'
  | _, _ => s
  end.

Definition sample_urlparse (u : string) : ParseResult + string :=
  if contains "[" u then inr "Invalid IPv6 URL"
  else if String.prefix "https://" u
  then inl (mkParseResult "https" (host_of (drop_chars 8 u)))
  else if String.prefix "http://" u
  then inl (mkParseResult "http" (host_of (drop_chars 7 u)))
  else inl (mkParseResult "" "").

Definition sample_is_youtube_url (u : string) : option bool :=
  Some (contains "youtube.com/" u || contains "youtu.be/" u).

#[export] Instance sample_urllib : UrlLib := {|
  is_youtube_url := sample_is_youtube_url;
  urlparse := sample_urlparse;
|}.

End UrlSample.

Module MoreScenarios.
Import RunManagerModel ApiModel Terms MoreTerms Sample Scenarios.
Local Open Scope Z_scope.

(** The run "z" of the archive, saved again after it failed. *)
Definition run_z_failed : RunState :=
  mkRunState "z" cfg "failed" ∅ None (Some "boom") 4 (Some 6) None.

(** What a client may do to the server with the run "a" under way. *)
Definition session : list operation :=
  [ProgressCallback "a" "align" "Alignment completed successfully";
   CreateRun cfg "b" 2;
   CancelRoute "a" 5;
   UpdateRunStatus "a" "running" 6;
   ExecutePipeline "a" (mkExecution [] (inl clean_result)) None 7 8;
   WebsocketEndpoint 1%nat "a" ["ping"];
   ListRecentRuns None].


#[export] Instance sample_disk : Disk := {|
  path_exists := λ p, bool_decide (p = "/tmp/work/latest.json")
                      || bool_decide (p = "/tmp/work/latest.txt");
|}.


#[export] Instance sample_cli : CliEnv := {|
  float_differs := λ x y, negb (x =? y);
  float_text := pretty;
  cli_default_asr_model := "large-v3-turbo";
  cli_openai_model := "gpt-4.1";
  cli_openai_temperature := 0;
|}.


End MoreScenarios.

Module PresetScenarios.
Import Raising PresetManagerModel PresetTerms.

Definition quick : json := JObject [("diarize", JBool false)].

(** A manager over a file with the default preset and one other. *)
Definition shelf : PresetManager :=
  new (Holding (Some (JObject [("Recommended", recommended); ("Quick", quick)])))
    true.

(** A manager over a file that holds a list. *)
Definition garbled : PresetManager := new (Holding (Some (JArray []))) true.

End PresetScenarios.

Module RouteSample.
Import RunManagerModel ApiModel Raising.

(** A configuration that is the dictionary it was made from, and
    refuses the key "bogus". *)
Definition route_init (d : list (string * string))
    : option (list (string * string)) :=
  if bool_decide ("bogus" ∈ dict_keys d) then None else Some d.

#[export] Instance route_domain : Domain := {|
  PipelineConfig := list (string * string);
  Any := string;
  asdict := λ d, (λ kv : string * string, (kv.1, inr kv.2)) <$> d;
  any_str := id;
  PipelineConfig_init := route_init;
  float := Z;
  float_zero := 0%Z;
  isoformat := Sample.sample_isoformat;
  fromisoformat := Sample.sample_fromisoformat;
|}.

Definition sample_any_json (j : PresetManagerModel.json) : string :=
  match j with
  | PresetManagerModel.JBool true => "True"
  | PresetManagerModel.JBool false => "False"
  | PresetManagerModel.JString text => text
  | PresetManagerModel.JNumber literal => literal
  | _ => "None"
  end.

#[export] Instance route_settings : Settings := {|
  any_bool := λ b : bool, if b then "True" else "False";
  any_json := sample_any_json;
  truthy := λ v, negb (bool_decide (v = "False")) && negb (bool_decide (v = ""));
  init_error := λ _, TypeErrorOf "unexpected keyword argument";
  http_text := λ code detail, pretty code +:+ ": " +:+ detail;
  default_asr_model := "large-v3-turbo";
  default_compute := "int8";
  openai_model := "gpt-4.1";
  openai_temperature := "0.2";
  notion_db_id := "0123456789abcdefg";
  notion_podcast_prop := "Podcast";
  notion_date_prop := "Date";
  notion_episode_prop := "Episode";
|}.

Definition ill_typed_sample (config : PresetManagerModel.json)
    (request : WriteRoutesModel.RunRequest) (uuid4 : string) (now : Z)
    : X WriteRoutesModel.Server string :=
  xraise (ExceptionOf "the configuration of the preset is no object").

(** The server as [init_managers] leaves it over a presets file with
    the default preset and one other, and a request on it. *)
Definition office : WriteRoutesModel.Server :=
  WriteRoutesModel.mkServer
    (mkApi (Some (__init__ Absent true None None)) ∅ ∅ [] [])
    (Some PresetScenarios.shelf) [].

Definition office_busy : WriteRoutesModel.Server :=
  WriteRoutesModel.mkServer
    (mkApi (Some (set_active_runs
                    [("a", mkRunState "a" [] "running" ∅ None None 1%Z None None)]
                    (__init__ Absent true None None))) ∅ ∅ [] [])
    (Some PresetScenarios.shelf) [].

Definition feed_request : WriteRoutesModel.RunRequest :=
  WriteRoutesModel.mkRunRequest "https://example.com/feed.xml" (Some "Quick")
    (Some [("notion", "True")]).

Definition quick_options : list (string * string) := [("diarize", "False")].

(** The options of the preset with those of the request over them. *)
Definition feed_options : option (list (string * string)) :=
  Some [("diarize", "False"); ("notion", "True")].

(** What the route makes of [feed_request]. *)
Definition feed_config : list (string * string) :=
  [("verbose", "False"); ("clean", "False"); ("no_keep_audio", "False");
   ("rss_url", "https://example.com/feed.xml"); ("diarize", "False");
   ("notion", "True"); ("model", "large-v3-turbo"); ("compute", "int8");
   ("deepcast_model", "gpt-4.1"); ("deepcast_temp", "0.2");
   ("notion_db", "0123456789abcdefg"); ("podcast_prop", "Podcast");
   ("date_prop", "Date"); ("episode_prop", "Episode")].

End RouteSample.

(** ** Properties *)

Module Props.
Import RunManagerModel ApiModel Terms.

Section DictFacts.
Context {V : Type}.
Implicit Types (d : list (string * V)) (k : string) (v : V).

Lemma dict_get_set_eq k v d : dict_get k (dict_set k v d) = Some v.
Proof.
  induction d as [|[k' v'] d IH]; simpl.
  - by rewrite decide_True.
  - destruct (decide (k' = k)) as [->|Hne]; simpl.
    + by rewrite decide_True.
    + by rewrite decide_False.
Qed.

Lemma dict_get_set_ne k k' v d :
  k ≠ k' → dict_get k' (dict_set k v d) = dict_get k' d.
Proof.
  intros Hne. induction d as [|[k0 v0] d IH]; simpl.
  - by rewrite decide_False.
  - destruct (decide (k0 = k)) as [->|Hne0]; simpl.
    + by rewrite !(decide_False _ _ Hne).
    + by rewrite IH.
Qed.

Lemma dict_set_fresh k v d :
  dict_get k d = None → dict_set k v d = d ++ [(k, v)].
Proof.
  induction d as [|[k0 v0] d IH]; simpl; [done|].
  destruct (decide (k0 = k)); [done|]. intros Hd. by rewrite IH.
Qed.

Lemma dict_set_same k v d : dict_get k d = Some v → dict_set k v d = d.
Proof.
  induction d as [|[k0 v0] d IH]; simpl; [done|].
  destruct (decide (k0 = k)) as [->|]; [by intros [= ->]|].
  intros Hd. by rewrite IH.
Qed.

Lemma dict_get_elem k v d : dict_get k d = Some v → (k, v) ∈ d.
Proof.
  induction d as [|[k0 v0] d IH]; simpl; [done|].
  destruct (decide (k0 = k)) as [->|].
  - intros [= ->]. left.
  - intros Hd. right. auto.
Qed.

Lemma dict_get_None k d : dict_get k d = None ↔ k ∉ dict_keys d.
Proof.
  unfold dict_keys. induction d as [|[k0 v0] d IH]; simpl.
  - split; [intros _; apply not_elem_of_nil | done].
  - rewrite not_elem_of_cons. destruct (decide (k0 = k)) as [->|Hne].
    + split; [done | intros [? _]; done].
    + rewrite IH. split; [by intros ?; split; [congruence|] | by intros [_ ?]].
Qed.

Lemma dict_keys_set_present k v v0 d :
  dict_get k d = Some v0 → dict_keys (dict_set k v d) = dict_keys d.
Proof.
  unfold dict_keys. induction d as [|[k1 v1] d IH]; simpl; [done|].
  destruct (decide (k1 = k)) as [->|]; simpl; [done|].
  intros Hd. f_equal. by apply IH.
Qed.

End DictFacts.

Section Registry.
Context `{Domain}.
Implicit Types (self : RunManager) (run : RunState) (id : string).

Lemma active_count_eq self :
  active_count self = Z.of_nat (count_active (_active_runs self)).
Proof. done. Qed.

Lemma count_active_app d1 d2 :
  count_active (d1 ++ d2) = (count_active d1 + count_active d2)%nat.
Proof.
  unfold count_active, dict_values.
  by rewrite fmap_app, List.filter_app, length_app.
Qed.

(** Replacing the record under a key changes the count by that record
    alone. *)
Lemma count_active_set id run run' d :
  dict_get id d = Some run →
  (count_active (dict_set id run' d) + (if is_active run then 1 else 0)
   = count_active d + (if is_active run' then 1 else 0))%nat.
Proof.
  unfold count_active, dict_values.
  induction d as [|[k v] d IH]; cbn; [done|].
  destruct (decide (k = id)) as [->|Hne]; cbn.
  - intros [= ->]. destruct (is_active run), (is_active run'); cbn; lia.
  - intros Hd. specialize (IH Hd). cbn in IH.
    destruct (is_active v); cbn; lia.
Qed.

Lemma terminal_not_active run :
  is_terminal_status (status run) = true → is_active run = false.
Proof.
  unfold is_terminal_status, is_active.
  rewrite !orb_true_iff, !bool_decide_eq_true, orb_false_iff,
    !bool_decide_eq_false.
  intros [[->| ->]| ->]; done.
Qed.

Lemma create_run_full self config uuid4 now :
  (max_concurrent self <= active_count self)%Z →
  create_run config uuid4 now self
  = (Raise (RuntimeError (capacity_message self)), self).
Proof.
  intros Hfull. unfold create_run, bind, get; simpl.
  by rewrite (proj2 (Z.leb_le _ _) Hfull).
Qed.

Lemma create_run_free self config uuid4 now :
  (active_count self < max_concurrent self)%Z →
  create_run config uuid4 now self
  = (Ret uuid4,
     set_log (log self ++ [(INFO, "Created run")])
       (set_active_runs
          (dict_set uuid4 (pending_run config uuid4 now) (_active_runs self))
          self)).
Proof.
  intros Hfree. unfold create_run, bind, get; simpl.
  by rewrite (proj2 (Z.leb_gt _ _) Hfree).
Qed.

Lemma get_run_put_eq id run self : get_run id (put id run self) = Some run.
Proof. apply dict_get_set_eq. Qed.

Lemma get_run_put_ne id id' run self :
  id ≠ id' → get_run id' (put id run self) = get_run id' self.
Proof. apply dict_get_set_ne. Qed.

Lemma get_run_logged id lv event self :
  get_run id (logged lv event self) = get_run id self.
Proof. done. Qed.

Ltac run_method :=
  unfold bind, get, modify, ret, raise, store_run, logger; simpl.

Lemma update_run_status_present id status now self run :
  get_run id self = Some run →
  update_run_status id status now self
  = (Ret tt, logged DEBUG "Updated run status"
               (put id (status_written status now run) self)).
Proof. intros Hrun. unfold update_run_status. run_method. by rewrite Hrun. Qed.

Lemma update_run_progress_present id stage status self run :
  get_run id self = Some run →
  update_run_progress id stage status self
  = (Ret tt, logged DEBUG "Updated run progress"
               (put id (with_progress (<[stage := status]> (progress run)) run)
                  self)).
Proof. intros Hrun. unfold update_run_progress. run_method. by rewrite Hrun. Qed.

Lemma set_run_result_present id res now self run :
  get_run id self = Some run →
  set_run_result id res now self
  = (Ret tt, logged INFO "Set run result"
               (put id (result_written res now run) self)).
Proof. intros Hrun. unfold set_run_result. run_method. by rewrite Hrun. Qed.

Lemma set_run_error_present id msg now self run :
  get_run id self = Some run →
  set_run_error id msg now self
  = (Ret tt, logged ERROR "Set run error"
               (put id (error_written msg now run) self)).
Proof. intros Hrun. unfold set_run_error. run_method. by rewrite Hrun. Qed.

Lemma set_notion_url_present id url self run :
  get_run id self = Some run →
  set_notion_url id url self
  = (Ret tt, logged INFO "Set Notion URL"
               (put id (with_notion_url (Some url) run) self)).
Proof. intros Hrun. unfold set_notion_url. run_method. by rewrite Hrun. Qed.

Lemma update_run_status_absent id status now self :
  get_run id self = None → update_run_status id status now self = (Ret tt, self).
Proof. intros Hrun. unfold update_run_status. run_method. by rewrite Hrun. Qed.

Lemma update_run_progress_absent id stage status self :
  get_run id self = None →
  update_run_progress id stage status self = (Ret tt, self).
Proof. intros Hrun. unfold update_run_progress. run_method. by rewrite Hrun. Qed.

Lemma set_run_result_absent id res now self :
  get_run id self = None → set_run_result id res now self = (Ret tt, self).
Proof. intros Hrun. unfold set_run_result. run_method. by rewrite Hrun. Qed.

Lemma set_run_error_absent id msg now self :
  get_run id self = None → set_run_error id msg now self = (Ret tt, self).
Proof. intros Hrun. unfold set_run_error. run_method. by rewrite Hrun. Qed.

Lemma set_notion_url_absent id url self :
  get_run id self = None → set_notion_url id url self = (Ret tt, self).
Proof. intros Hrun. unfold set_notion_url. run_method. by rewrite Hrun. Qed.

Lemma cancel_run_active id now self run :
  get_run id self = Some run → is_active run = true →
  cancel_run id now self
  = (Ret true, logged INFO "Canceled run"
                 (task_cancelled id (put id (canceled_at now run) self))).
Proof.
  intros Hrun Hact. unfold cancel_run. run_method. rewrite Hrun, Hact; simpl.
  unfold task_cancelled; simpl. by destruct (_run_tasks self !! id).
Qed.

Lemma cancel_run_inactive id now self run :
  get_run id self = Some run → is_active run = false →
  cancel_run id now self = (Ret false, self).
Proof.
  intros Hrun Hact. unfold cancel_run. run_method. by rewrite Hrun, Hact.
Qed.

Lemma cancel_run_absent id now self :
  get_run id self = None → cancel_run id now self = (Ret false, self).
Proof. intros Hrun. unfold cancel_run. run_method. by rewrite Hrun. Qed.

Lemma get_run_task_cancelled id id' self :
  get_run id' (task_cancelled id self) = get_run id' self.
Proof. unfold task_cancelled. by destruct (_run_tasks self !! id). Qed.

Lemma active_count_logged lv event self :
  active_count (logged lv event self) = active_count self.
Proof. done. Qed.

Lemma active_count_task_cancelled id self :
  active_count (task_cancelled id self) = active_count self.
Proof. unfold task_cancelled. by destruct (_run_tasks self !! id). Qed.

Lemma max_concurrent_task_cancelled id self :
  max_concurrent (task_cancelled id self) = max_concurrent self.
Proof. unfold task_cancelled. by destruct (_run_tasks self !! id). Qed.

(** A slot comes free when an active run is replaced by one that is
    not. *)
Lemma active_count_put_released id run run' self :
  get_run id self = Some run → is_active run = true → is_active run' = false →
  active_count (put id run' self) = (active_count self - 1)%Z.
Proof.
  intros Hrun Hact Hact'. rewrite !active_count_eq. simpl.
  pose proof (count_active_set id run run' _ Hrun) as Hc.
  rewrite Hact, Hact' in Hc. lia.
Qed.

Lemma is_active_status_written status now run :
  is_terminal_status status = true →
  is_active (status_written status now run) = false.
Proof.
  intros Hs. apply terminal_not_active. unfold status_written.
  by rewrite Hs.
Qed.

Lemma is_active_result_written res now run :
  is_active (result_written res now run) = false.
Proof. unfold result_written, is_active; simpl. by destruct (errors res). Qed.

Lemma reaches_terminal_released id self self' run :
  get_run id self = Some run → is_active run = true →
  reaches_terminal id self self' →
  max_concurrent self' = max_concurrent self
  ∧ active_count self' = (active_count self - 1)%Z.
Proof.
  intros Hrun Hact Hstep. destruct Hstep as [status now Hs|now|res now|msg now];
    unfold exec.
  - rewrite (update_run_status_present _ _ _ _ _ Hrun); simpl. split; [done|].
    rewrite active_count_logged.
    by apply (active_count_put_released _ run), is_active_status_written.
  - rewrite (cancel_run_active _ _ _ _ Hrun Hact); simpl.
    rewrite max_concurrent_task_cancelled. split; [done|].
    rewrite active_count_logged, active_count_task_cancelled.
    by apply (active_count_put_released _ run).
  - rewrite (set_run_result_present _ _ _ _ _ Hrun); simpl. split; [done|].
    rewrite active_count_logged.
    by apply (active_count_put_released _ run), is_active_result_written.
  - rewrite (set_run_error_present _ _ _ _ _ Hrun); simpl. split; [done|].
    rewrite active_count_logged.
    by apply (active_count_put_released _ run).
Qed.

Lemma active_count_put_fresh id run self :
  get_run id self = None → is_active run = true →
  active_count (put id run self) = (active_count self + 1)%Z.
Proof.
  intros Hfresh Hact. unfold get_run in Hfresh.
  rewrite !active_count_eq. simpl. rewrite (dict_set_fresh _ _ _ Hfresh).
  rewrite count_active_app. unfold count_active at 2; simpl. rewrite Hact.
  simpl. lia.
Qed.

(** Below the ceiling every draw of a new identifier is admitted. *)
Lemma admit_all_spec (config : PipelineConfig) draws : ∀ self,
  NoDup draws.*1 → (∀ id, id ∈ draws.*1 → get_run id self = None) →
  (active_count self + Z.of_nat (length draws) <= max_concurrent self)%Z →
  returned (admit_all config draws) self = Ret tt
  ∧ max_concurrent (exec (admit_all config draws) self) = max_concurrent self
  ∧ active_count (exec (admit_all config draws) self)
    = (active_count self + Z.of_nat (length draws))%Z
  ∧ (∀ id now, (id, now) ∈ draws →
       get_run id (exec (admit_all config draws) self)
       = Some (pending_run config id now)).
Proof.
  induction draws as [|[uuid4 now] draws IH]; intros self Hnd Hfresh Hroom.
  - unfold returned, exec; simpl. split; [done|]. split; [done|].
    split; [lia|]. by intros id now ?%elem_of_nil.
  - rewrite fmap_cons in Hnd, Hfresh. simpl in Hnd, Hfresh.
    apply NoDup_cons in Hnd as [Hnotin Hnd].
    assert (Hnew : get_run uuid4 self = None) by apply Hfresh, list_elem_of_here.
    set (self1 := logged INFO "Created run"
                    (put uuid4 (pending_run config uuid4 now) self)).
    assert (Hstep : admit_all config ((uuid4, now) :: draws) self
                    = admit_all config draws self1).
    { unfold admit_all. cbn [for_each]. unfold bind at 1, bind at 1.
      cbn [fst snd]. rewrite create_run_free; [done|].
      rewrite length_cons in Hroom. lia. }
    assert (Hcount : active_count self1 = (active_count self + 1)%Z).
    { subst self1. rewrite active_count_logged.
      by apply active_count_put_fresh. }
    destruct (IH self1) as (Hret & Hmax & Hcnt & Hruns).
    + done.
    + intros id Hid. subst self1. rewrite get_run_logged, get_run_put_ne.
      * apply Hfresh. by right.
      * intros ->. done.
    + rewrite Hcount. rewrite length_cons in Hroom. subst self1; simpl. lia.
    + unfold returned, exec in *. rewrite Hstep.
      split; [done|]. split; [done|]. split.
      { rewrite Hcnt, Hcount, length_cons. lia. }
      intros id t [[= -> ->]|Hin]%elem_of_cons; [|by apply Hruns].
      assert (Hkeep : ∀ draws' self',
        uuid4 ∉ draws'.*1 →
        get_run uuid4 (admit_all config draws' self').2
        = get_run uuid4 self').
      { clear. induction draws' as [|[u t'] draws' IH']; intros self' Hn;
          [done|]. rewrite fmap_cons in Hn. simpl in Hn.
        apply not_elem_of_cons in Hn as [Hne Hn].
        unfold admit_all in *. cbn [for_each]. unfold bind at 1, bind at 1.
        cbn [fst snd].
        destruct (Z.le_gt_cases (max_concurrent self') (active_count self')).
        - by rewrite create_run_full.
        - rewrite create_run_free by done. unfold ret at 1. rewrite IH' by done.
          simpl. unfold get_run; simpl. by apply dict_get_set_ne. }
      rewrite Hkeep by done. subst self1. rewrite get_run_logged.
      apply get_run_put_eq.
Qed.

(** C1. Creating a run raises the capacity error exactly when the number
    of records whose status is "pending" or "running" has reached
    [max_concurrent], and then leaves the manager as it was.  Otherwise it
    returns the identifier it drew, under which the registry then holds a
    record with status "pending" and empty progress; the other records
    are untouched, and an identifier that was not in use adds one entry
    and one active run.  When the active runs do not exceed the ceiling
    and one of them reaches a terminal state (by a status update, a
    cancellation, a result or an error), the next creation succeeds.  So
    for every ceiling: a new manager admits as many runs as the ceiling
    says, refuses the next, and admits it once any of the runs has
    reached a terminal state. *)
Theorem create_run_admission self (config : PipelineConfig) uuid4 now :
  ((max_concurrent self <= active_count self)%Z ↔
   ∃ msg, returned (create_run config uuid4 now) self
          = Raise (RuntimeError msg))
  ∧ ((max_concurrent self <= active_count self)%Z →
     exec (create_run config uuid4 now) self = self)
  ∧ ((active_count self < max_concurrent self)%Z →
     let self' := exec (create_run config uuid4 now) self in
     returned (create_run config uuid4 now) self = Ret uuid4
     ∧ get_run uuid4 self' = Some (pending_run config uuid4 now)
     ∧ status (pending_run config uuid4 now) = "pending"
     ∧ progress (pending_run config uuid4 now) = ∅
     ∧ (∀ id, id ≠ uuid4 → get_run id self' = get_run id self)
     ∧ (get_run uuid4 self = None →
        _active_runs self'
        = _active_runs self ++ [(uuid4, pending_run config uuid4 now)]
        ∧ active_count self' = (active_count self + 1)%Z))
  ∧ (∀ id run self',
       get_run id self = Some run → is_active run = true →
       (active_count self <= max_concurrent self)%Z →
       reaches_terminal id self self' →
       returned (create_run config uuid4 now) self' = Ret uuid4)
  ∧ (∀ draws file writable mh,
       NoDup draws.*1 →
       let new :=
         __init__ file writable (Some (Z.of_nat (length draws))) mh in
       let full := exec (admit_all config draws) new in
       returned (admit_all config draws) new = Ret tt
       ∧ (∃ msg, returned (create_run config uuid4 now) full
                 = Raise (RuntimeError msg))
       ∧ (∀ id self',
            id ∈ draws.*1 → reaches_terminal id full self' →
            returned (create_run config uuid4 now) self' = Ret uuid4)).
Proof.
  split; [|split; [|split; [|split]]].
  - split.
    + intros Hfull. eexists. unfold returned.
      by rewrite create_run_full.
    + intros [msg Hraise].
      destruct (Z.le_gt_cases (max_concurrent self) (active_count self))
        as [|Hfree]; [done|].
      unfold returned in Hraise. by rewrite create_run_free in Hraise by lia.
  - intros Hfull. unfold exec. by rewrite create_run_full.
  - intros Hfree self'. subst self'. unfold exec, returned.
    rewrite create_run_free by done. simpl.
    split; [done|]. split; [apply dict_get_set_eq|].
    split; [done|]. split; [done|]. split.
    + intros id Hne. unfold get_run; simpl. by apply dict_get_set_ne.
    + intros Hfresh. unfold get_run in Hfresh.
      rewrite (dict_set_fresh _ _ _ Hfresh). split; [done|].
      rewrite !active_count_eq; simpl. rewrite count_active_app.
      unfold count_active at 2; simpl. lia.
  - intros id run self' Hrun Hact Hle Hstep.
    destruct (reaches_terminal_released _ _ _ _ Hrun Hact Hstep) as [Hmax Hcnt].
    unfold returned. rewrite create_run_free by lia. done.
  - intros draws file writable mh Hnd new full.
    destruct (admit_all_spec config draws new Hnd) as (Hret & Hmax & Hcnt & Hruns).
    { done. }
    { subst new. unfold active_count; simpl. lia. }
    fold full in Hmax, Hcnt, Hruns.
    assert (Hfull : active_count full = max_concurrent full).
    { rewrite Hcnt, Hmax. subst new. unfold active_count; simpl. lia. }
    split; [done|]. split.
    + eexists. unfold returned. rewrite create_run_full; [done|]. lia.
    + intros id self' (draw & -> & Hin)%list_elem_of_fmap Hstep.
      destruct draw as [id t]. specialize (Hruns id t Hin).
      destruct (reaches_terminal_released _ _ _ _ Hruns eq_refl Hstep)
        as [Hmax' Hcnt'].
      unfold returned. rewrite create_run_free by lia. done.
Qed.

(** C10. Called with an identifier the registry does not hold,
    [update_run_status], [update_run_progress], [set_run_result],
    [set_run_error] and [set_notion_url] return normally and leave the
    manager (registry, tasks, file, log) exactly as it was. *)
Theorem mutators_ignore_unknown_run id self :
  get_run id self = None →
  (∀ status now, update_run_status id status now self = (Ret tt, self))
  ∧ (∀ stage status, update_run_progress id stage status self = (Ret tt, self))
  ∧ (∀ res now, set_run_result id res now self = (Ret tt, self))
  ∧ (∀ msg now, set_run_error id msg now self = (Ret tt, self))
  ∧ (∀ url, set_notion_url id url self = (Ret tt, self)).
Proof.
  intros Hrun. repeat split; intros.
  - by apply update_run_status_absent.
  - by apply update_run_progress_absent.
  - by apply set_run_result_absent.
  - by apply set_run_error_absent.
  - by apply set_notion_url_absent.
Qed.

End Registry.

Section Channel.
Context `{Domain}.
Implicit Types (a : Api) (ws : WebSocket) (conns : list WebSocket).

Lemma set_websocket_connections_id a :
  set_websocket_connections (websocket_connections a) a = a.
Proof. by destruct a. Qed.

Lemma set_run_manager_id a : set_run_manager (run_manager a) a = a.
Proof. by destruct a. Qed.

Lemma send_live ws f a :
  is_gone a ws = false → send ws f a = (Ret tt, set_sent (sent a ++ [(ws, f)]) a).
Proof.
  unfold is_gone, send, bind, get, modify. simpl. by intros ->.
Qed.

Lemma send_gone ws f a :
  is_gone a ws = true → send ws f a = (Raise (Fault "connection closed"), a).
Proof.
  unfold is_gone, send, bind, get, modify. simpl. by intros ->.
Qed.

Lemma send_loop f conns : ∀ acc a,
  for_each conns acc (λ disconnected ws,
    try_except (do! send ws f in ret disconnected) is_Exception
      (λ _, ret (disconnected ++ [ws]))) a
  = (Ret (acc ++ dead a conns),
     set_sent (sent a ++ frames_to (live a conns) f) a).
Proof.
  induction conns as [|ws conns IH]; intros acc a; cbn [for_each].
  - unfold ret, dead, live, frames_to; simpl. rewrite !app_nil_r. by destruct a.
  - unfold bind at 1, try_except at 1, bind at 1.
    destruct (is_gone a ws) eqn:Hg.
    + rewrite (send_gone _ _ _ Hg). cbn [is_Exception]. unfold ret at 1.
      rewrite IH. unfold dead, live; cbn [List.filter]. rewrite Hg; simpl.
      by rewrite <-app_assoc.
    + rewrite (send_live _ _ _ Hg). unfold ret at 1.
      rewrite IH. unfold dead, live; cbn [List.filter]. rewrite Hg.
      unfold frames_to; simpl. by rewrite <-app_assoc.
Qed.

Lemma list_remove_first ws pre l :
  ws ∉ pre → list_remove ws (pre ++ ws :: l) = Some (pre ++ l).
Proof.
  induction pre as [|y pre IH]; simpl; intros Hnot.
  - by rewrite decide_True.
  - apply not_elem_of_cons in Hnot as [Hne Hnot].
    rewrite decide_False by done. by rewrite IH.
Qed.

Lemma remove_loop run_id (P : WebSocket → bool) l : ∀ pre a,
  (∀ ws, ws ∈ pre → P ws = false) →
  websocket_connections a !! run_id = Some (pre ++ l) →
  for_each (List.filter P l) tt (λ _ ws, remove_connection run_id ws) a
  = (Ret tt,
     set_websocket_connections
       (<[run_id := pre ++ List.filter (λ ws, negb (P ws)) l]>
          (websocket_connections a)) a).
Proof.
  induction l as [|ws l IH]; intros pre a Hpre Hconns; simpl.
  - unfold ret. rewrite insert_id by done.
    by rewrite set_websocket_connections_id.
  - destruct (P ws) eqn:HP; simpl.
    + unfold bind at 1, remove_connection, bind at 1, get, bind at 1.
      rewrite Hconns; simpl.
      rewrite list_remove_first.
      2:{ intros Hin. apply Hpre in Hin. congruence. }
      unfold modify. rewrite (IH pre); [|done|by apply lookup_insert_eq].
      simpl. by rewrite insert_insert_eq.
    + replace (pre ++ ws :: List.filter (λ ws0, negb (P ws0)) l)
        with ((pre ++ [ws]) ++ List.filter (λ ws0, negb (P ws0)) l)
        by (by rewrite <-app_assoc).
      apply IH.
      * intros ws' [Hin| ->%list_elem_of_singleton]%elem_of_app; auto.
      * by rewrite <-app_assoc.
Qed.

(** [_send_progress] returns; it touches the frames sent and the
    connection table of the run and nothing more. *)
Lemma _send_progress_spec run_id stage status a :
  _send_progress run_id stage status a
  = (Ret tt,
     match websocket_connections a !! run_id,
           run_manager a ≫= get_run run_id with
     | Some conns, Some run =>
         set_websocket_connections
           (<[run_id := live a conns]> (websocket_connections a))
           (set_sent
              (sent a
               ++ frames_to (live a conns) (JsonFrame stage status (progress run)))
              a)
     | _, _ => a
     end).
Proof.
  unfold _send_progress, bind at 1, get.
  destruct (websocket_connections a !! run_id) as [conns|] eqn:Hconns; [|done].
  destruct (run_manager a) as [rm|]; simpl; [|done].
  destruct (get_run run_id rm) as [run|]; [|done].
  unfold bind at 1. rewrite send_loop. cbn [app].
  unfold dead. by rewrite (remove_loop run_id (is_gone a) conns []);
    [|intros ? ?%elem_of_nil|].
Qed.

End Channel.

Section History.
Context `{Domain}.
Implicit Types (self : RunManager) (run : RunState) (i : item).

Lemma tame_ret {A} (a : A) : tame (ret a).
Proof. exists (Ret a). by split. Qed.

Lemma tame_raise {A} e : is_Exception e = true → tame (@raise _ A e).
Proof. intros He. exists (Raise e). split; [done|]. by intros ? [= <-]. Qed.

Lemma tame_bind {A B} (m : M RunManager A) (k : A → M RunManager B) :
  tame m → (∀ a, tame (k a)) → tame (bind m k).
Proof.
  intros [[a|e] [Hm He]] Hk.
  - destruct (Hk a) as [o [Hka Hoe]]. exists o. split; [|done].
    intros self. unfold bind. by rewrite Hm, Hka.
  - exists (Raise e). split.
    + intros self. unfold bind. by rewrite Hm.
    + intros e' [= <-]. by apply He.
Qed.

Lemma tame__dict_to_run_state i : tame (_dict_to_run_state i).
Proof.
  unfold _dict_to_run_state, subscript, parse_datetime.
  destruct i as [d|]; [|by apply tame_raise].
  repeat first
    [ apply tame_ret | by apply tame_raise | apply tame_bind | intros ?
    | case_match ].
Qed.

Lemma _dict_to_run_state_pure i self :
  _dict_to_run_state i self = (decode_item i, self).
Proof.
  destruct (tame__dict_to_run_state i) as [o [Ho _]].
  unfold decode_item, returned. by rewrite !Ho.
Qed.

Lemma decode_item_Exception i e :
  decode_item i = Raise e → is_Exception e = true.
Proof.
  destruct (tame__dict_to_run_state i) as [o [Ho He]].
  unfold decode_item, returned. rewrite Ho. apply He.
Qed.

Lemma set_log_app l1 l2 self :
  set_log (log (set_log l1 self) ++ l2) (set_log l1 self)
  = set_log (l1 ++ l2) self.
Proof. done. Qed.

Lemma set_log_id self : set_log (log self ++ []) self = self.
Proof. rewrite app_nil_r. by destruct self. Qed.

Lemma loaded_cons_ok i items run :
  decode_item i = Ret run →
  loaded (i :: items) = run :: loaded items
  ∧ item_warnings (i :: items) = item_warnings items.
Proof.
  intros Hi. unfold loaded, item_warnings, decoded; simpl. by rewrite Hi.
Qed.

Lemma loaded_cons_bad i items e :
  decode_item i = Raise e →
  loaded (i :: items) = loaded items
  ∧ item_warnings (i :: items)
    = (WARNING, "Failed to load run from history") :: item_warnings items.
Proof.
  intros Hi. unfold loaded, item_warnings, decoded; simpl. by rewrite Hi.
Qed.

Lemma load_loop items : ∀ runs self,
  for_each items runs (λ runs run_dict,
    try_except
      (let! run := _dict_to_run_state run_dict in ret (runs ++ [run]))
      is_Exception
      (λ e, do! logger WARNING "Failed to load run from history" in ret runs))
    self
  = (Ret (runs ++ loaded items),
     set_log (log self ++ item_warnings items) self).
Proof.
  induction items as [|i items IH]; intros runs self; cbn [for_each].
  - unfold ret, loaded, item_warnings; simpl.
    by rewrite app_nil_r, set_log_id.
  - unfold bind at 1, try_except at 1, bind at 1.
    rewrite _dict_to_run_state_pure.
    destruct (decode_item i) as [run|e] eqn:Hi.
    + destruct (loaded_cons_ok _ items _ Hi) as [-> ->].
      unfold ret at 1. rewrite IH. by rewrite <-app_assoc.
    + destruct (loaded_cons_bad _ items _ Hi) as [-> ->].
      rewrite (decode_item_Exception _ _ Hi).
      unfold bind at 1, logger, modify, ret at 1. rewrite IH.
      simpl. by rewrite <-app_assoc.
Qed.

Lemma _load_history_spec self :
  _load_history self
  = (Ret (loaded_runs (history_file self)),
     set_log (log self ++ load_warnings (history_file self)) self).
Proof.
  unfold _load_history, bind at 1, get.
  destruct (history_file self) as [| |[[|items]|]] eqn:Hfile; simpl.
  - unfold ret. by rewrite set_log_id.
  - unfold try_except, bind at 1, read_text, bind at 1, get. by rewrite Hfile.
  - unfold try_except, bind at 1, read_text, bind at 1, get. by rewrite Hfile.
  - unfold try_except, bind at 1, read_text, bind at 1, get. rewrite Hfile.
    unfold ret at 1, bind at 1, json_loads, ret at 1, bind at 1, iterate,
      ret at 1.
    by rewrite load_loop.
  - unfold try_except, bind at 1, read_text, bind at 1, get. by rewrite Hfile.
Qed.





Lemma save_to_history_spec self run :
  save_to_history run self
  = if fs_writable self then
      (Ret tt,
       set_log (log self ++ load_warnings (history_file self)
                ++ [(DEBUG, "Saved run to history")])
         (set_history_file (file_of (history_after self run)) self))
    else
      (Raise OSError,
       set_log (log self ++ load_warnings (history_file self)) self).
Proof.
  unfold save_to_history, bind at 1. rewrite _load_history_spec.
  unfold bind at 1, get, bind at 1, _save_history, bind at 1, get. simpl.
  destruct (fs_writable self); [|done].
  unfold modify, logger, modify; simpl. unfold history_after, file_of.
  by rewrite <-app_assoc.
Qed.

Lemma stored_ids_file_of runs : stored_ids (file_of runs) = run_id <$> runs.
Proof.
  unfold stored_ids, file_of. induction runs as [|r runs IH]; [done|].
  cbn. by f_equal.
Qed.

Lemma others_ids id runs : id ∉ run_id <$> others id runs.
Proof.
  unfold others. induction runs as [|r runs IH]; simpl.
  - apply not_elem_of_nil.
  - destruct (bool_decide (run_id r = id)) eqn:Hr; simpl; [done|].
    apply not_elem_of_cons. split; [|done].
    apply bool_decide_eq_false in Hr. congruence.
Qed.

Lemma others_sublist id runs : others id runs `sublist_of` runs.
Proof.
  unfold others. induction runs as [|r runs IH]; simpl; [done|].
  destruct (negb _); by constructor.
Qed.

Lemma others_fresh id runs : id ∉ run_id <$> runs → others id runs = runs.
Proof.
  unfold others. induction runs as [|r runs IH]; simpl; [done|].
  rewrite not_elem_of_cons. intros [Hne Hnot].
  rewrite bool_decide_eq_false_2 by congruence. simpl. by rewrite IH.
Qed.

Lemma others_NoDup id runs :
  NoDup (run_id <$> runs) → NoDup (run_id <$> others id runs).
Proof.
  intros Hnd. eapply sublist_NoDup; [done|].
  apply fmap_sublist, others_sublist.
Qed.

(** C6. On a disk that takes the write and with a maximum length that is
    a length (not negative), saving a run returns and leaves the file
    holding, first to last: the saved run, then the records that loaded
    from the old file other than those with its identifier, in their old
    order, cut after [max_history] records.  So the identifier of the
    saved run is stored at most once, identifiers that were distinct stay
    distinct, the file never holds more than [max_history] records, what
    is dropped is dropped from the old end, and when [max_history] is at
    least one the saved run is the first record.  In particular, when the
    old file held [max_history] records with distinct identifiers, none of
    them that of the saved run, the new file holds [max_history] records,
    the saved one first, and the last of the old ones is gone.  The
    registry is not touched. *)
Theorem save_to_history_bounded self run :
  fs_writable self = true → (0 <= max_history self)%Z →
  let old := loaded_runs (history_file self) in
  let kept := others (run_id run) old in
  let n := Z.to_nat (max_history self) in
  let self' := exec (save_to_history run) self in
  returned (save_to_history run) self = Ret tt
  ∧ history_file self' = file_of (take n (run :: kept))
  ∧ stored_ids (history_file self') = take n (run_id run :: (run_id <$> kept))
  ∧ _active_runs self' = _active_runs self
  ∧ (run_id run ∉ run_id <$> kept)
  ∧ length (stored_ids (history_file self')) = (n `min` S (length kept))%nat
  ∧ (length (stored_ids (history_file self')) <= n)%nat
  ∧ (NoDup (run_id <$> old) → NoDup (stored_ids (history_file self')))
  ∧ ((1 <= max_history self)%Z →
     history_file self' = file_of (run :: take (n - 1) kept)
     ∧ stored_ids (history_file self')
       = run_id run :: take (n - 1) (run_id <$> kept))
  ∧ (∀ rest oldest,
       old = rest ++ [oldest] → length old = n →
       NoDup (run_id <$> old) → (run_id run ∉ run_id <$> old) →
       stored_ids (history_file self') = run_id run :: (run_id <$> rest)
       ∧ length (stored_ids (history_file self')) = n
       ∧ run_id run ∈ stored_ids (history_file self')
       ∧ run_id oldest ∉ stored_ids (history_file self')).
Proof.
  intros Hw Hmax old kept n self'.
  assert (Hfile : history_file self' = file_of (take n (run :: kept))).
  { subst self'. unfold exec. rewrite save_to_history_spec, Hw. simpl.
    unfold history_after, slice_to.
    by rewrite (proj2 (Z.ltb_ge _ _) Hmax). }
  assert (Hids : stored_ids (history_file self')
                 = take n (run_id run :: (run_id <$> kept))).
  { by rewrite Hfile, stored_ids_file_of, fmap_take. }
  split. { unfold returned. by rewrite save_to_history_spec, Hw. }
  split; [done|]. split; [done|].
  split. { subst self'. unfold exec. by rewrite save_to_history_spec, Hw. }
  split; [apply others_ids|].
  split. { rewrite Hids, length_take. simpl. by rewrite length_fmap. }
  split. { rewrite Hids, length_take. lia. }
  split.
  { intros Hnd. rewrite Hids. eapply sublist_NoDup; [|apply sublist_take].
    constructor; [apply others_ids | by apply others_NoDup]. }
  split.
  { intros Hone. rewrite Hids, Hfile.
    destruct n as [|n'] eqn:Hn; [lia|]. simpl. by rewrite Nat.sub_0_r. }
  intros rest oldest Hold Hlen Hnd Hfresh.
  assert (Hkept : kept = rest ++ [oldest]).
  { subst kept. by rewrite others_fresh, <-Hold. }
  assert (Hn : n = S (length rest)).
  { rewrite <-Hlen, Hold, length_app. simpl. lia. }
  assert (Hstored : stored_ids (history_file self')
                    = run_id run :: (run_id <$> rest)).
  { rewrite Hids, Hkept, Hn, fmap_app. simpl. f_equal.
    rewrite <-(length_fmap run_id rest). apply take_app_length. }
  split; [done|]. rewrite Hstored. split; [|split].
  - simpl. rewrite length_fmap. lia.
  - left.
  - rewrite Hold, fmap_app in Hnd, Hfresh. simpl in Hnd, Hfresh.
    apply NoDup_app in Hnd as (_ & Hdisj & _).
    apply not_elem_of_cons. split.
    + intros Heq. apply Hfresh, elem_of_app. right. rewrite Heq. left.
    + intros Hin. apply (Hdisj _ Hin). left.
Qed.

End History.

Section Orchestrator.
Context `{Domain}.
Implicit Types (a : Api) (self rm : RunManager) (run : RunState) (id : string).

Lemma _send_progress_after id stage status a :
  _send_progress id stage status a = (Ret tt, after_send id stage status a).
Proof. apply _send_progress_spec. Qed.

Lemma run_manager_after_send id stage status a :
  run_manager (after_send id stage status a) = run_manager a.
Proof.
  unfold after_send.
  by destruct (websocket_connections a !! id), (run_of id a).
Qed.

Lemma on_manager_some {A} (method : M RunManager A) a rm :
  run_manager a = Some rm →
  on_manager method a
  = ((method rm).1, set_run_manager (Some (method rm).2) a).
Proof. intros Hrm. unfold on_manager. rewrite Hrm. by destruct (method rm). Qed.

Lemma progress_callback_spec id step text a rm run :
  run_manager a = Some rm → get_run id rm = Some run →
  progress_callback id step text a
  = (Ret tt,
     set_run_manager
       (Some (logged DEBUG "Updated run progress"
                (put id
                   (with_progress
                      (<[normalize_stage step := normalize_status text]>
                         (progress run)) run)
                   rm)))
       (after_send id (normalize_stage step) (normalize_status text) a)).
Proof.
  intros Hrm Hrun. unfold progress_callback, bind.
  rewrite _send_progress_after.
  rewrite (on_manager_some _ _ rm)
    by (by rewrite run_manager_after_send).
  by rewrite (update_run_progress_present _ _ _ _ _ Hrun).
Qed.

(** What the steps of a run keep of the manager: the run stays in the
    registry, the disk stays as writable as it was. *)
Lemma callbacks_keep_run id cbs : ∀ a rm run,
  run_manager a = Some rm → get_run id rm = Some run →
  ∃ a' rm' run',
    for_each cbs tt (λ _ cb, progress_callback id cb.1 cb.2) a = (Ret tt, a')
    ∧ run_manager a' = Some rm' ∧ get_run id rm' = Some run'
    ∧ fs_writable rm' = fs_writable rm
    ∧ status run' = status run.
Proof.
  induction cbs as [|[step text] cbs IH]; intros a rm run Hrm Hrun;
    cbn [for_each].
  - by exists a, rm, run.
  - unfold bind at 1. simpl.
    rewrite (progress_callback_spec _ _ _ _ _ _ Hrm Hrun).
    match goal with
    | |- context [for_each cbs tt _ (set_run_manager (Some ?rm1) ?a1)] =>
        destruct (IH (set_run_manager (Some rm1) a1) rm1 _ eq_refl
                    (get_run_put_eq _ _ _))
          as (a' & rm' & run' & Hloop & Hrm' & Hrun' & Hw & Hs)
    end.
    exists a', rm', run'. by rewrite Hloop.
Qed.

Lemma extract_notion_url_spec id res notion a rm run :
  run_manager a = Some rm → get_run id rm = Some run →
  ∃ a' rm' run',
    extract_notion_url id res notion a = (Ret tt, a')
    ∧ run_manager a' = Some rm' ∧ get_run id rm' = Some run'
    ∧ fs_writable rm' = fs_writable rm
    ∧ status run' = status run ∧ result run' = result run
    ∧ error run' = error run ∧ completed_at run' = completed_at run.
Proof.
  intros Hrm Hrun. unfold extract_notion_url.
  destruct (artifacts res !! "notion") as [path|];
    [|by exists a, rm, run].
  destruct (bool_decide (path = "")); [by exists a, rm, run|].
  destruct notion as [url|]; [|by exists a, rm, run].
  destruct (bool_decide (url = "")); [by exists a, rm, run|].
  rewrite (on_manager_some _ _ _ Hrm),
    (set_notion_url_present _ _ _ _ Hrun). simpl.
  eexists _, _, _. split; [done|]. split; [done|].
  split; [apply get_run_put_eq|]. done.
Qed.


Lemma save_run_unwritable id a rm run :
  run_manager a = Some rm → get_run id rm = Some run →
  fs_writable rm = false →
  ∃ a' rm',
    save_run id a = (Raise OSError, a')
    ∧ run_manager a' = Some rm' ∧ get_run id rm' = Some run.
Proof.
  intros Hrm Hrun Hw. unfold save_run, bind, get. rewrite Hrm, Hrun.
  rewrite (on_manager_some _ _ _ Hrm), save_to_history_spec, Hw. simpl.
  by eexists _, _.
Qed.



(** [_execute_pipeline] up to the end of the pipeline call. *)
Lemma pipeline_started id ex a rm run now :
  run_manager a = Some rm → get_run id rm = Some run →
  ∃ a' rm' run',
    (do! on_manager (update_run_status id "running" now) in
     do! _send_progress id "fetch" "started" in
     execute id ex) a
    = (match ending ex with inl res => Ret res | inr e => Raise e end, a')
    ∧ run_manager a' = Some rm' ∧ get_run id rm' = Some run'
    ∧ fs_writable rm' = fs_writable rm.
Proof.
  intros Hrm Hrun. unfold bind at 1.
  rewrite (on_manager_some _ _ _ Hrm),
    (update_run_status_present _ _ _ _ _ Hrun). simpl.
  unfold bind at 1. rewrite _send_progress_after.
  unfold execute, bind at 1.
  match goal with
  | |- context [for_each _ tt _ (after_send ?i ?s ?t (set_run_manager (Some ?rm1) ?a1))] =>
      destruct (callbacks_keep_run id (callbacks ex)
                  (after_send i s t (set_run_manager (Some rm1) a1)) rm1 _
                  (eq_trans (run_manager_after_send _ _ _ _) eq_refl)
                  (get_run_put_eq _ _ _))
        as (a' & rm' & run' & Hloop & Hrm' & Hrun' & Hw & _)
  end.
  rewrite Hloop. exists a', rm', run'.
  split; [by destruct (ending ex)|]. done.
Qed.

Lemma pipeline_body_split id ex notion now a :
  (do! on_manager (update_run_status id "running" now) in
   do! _send_progress id "fetch" "started" in
   let! res := execute id ex in
   record_result id res notion now) a
  = (let! res := (do! on_manager (update_run_status id "running" now) in
                  do! _send_progress id "fetch" "started" in
                  execute id ex) in
     record_result id res notion now) a.
Proof.
  unfold bind.
  destruct (on_manager (update_run_status id "running" now) a) as [[[]|e0] a0];
    [|done].
  by destruct (_send_progress id "fetch" "started" a0) as [[[]|e0] a0'].
Qed.



(** When the history file cannot be written the fault of the write is
    an exception like any other: the run ends "failed" whatever the
    result said, and keeps the result. *)
Lemma _execute_pipeline_write_fault id ex notion now later a rm run res :
  run_manager a = Some rm → get_run id rm = Some run →
  fs_writable rm = false → ending ex = inl res →
  ∃ a' rm' run',
    _execute_pipeline id ex notion now later a = (Ret tt, a')
    ∧ run_manager a' = Some rm' ∧ get_run id rm' = Some run'
    ∧ status run' = "failed" ∧ error run' = Some (exn_str OSError)
    ∧ result run' = Some res.
Proof.
  intros Hrm Hrun Hw Hend.
  destruct (pipeline_started id ex a rm run now Hrm Hrun)
    as (a1 & rm1 & run1 & Hstart & Hrm1 & Hrun1 & Hw1).
  rewrite Hend in Hstart.
  assert (Hrec : ∃ a2 rm2 run2,
    record_result id res notion now a1 = (Raise OSError, a2)
    ∧ run_manager a2 = Some rm2 ∧ get_run id rm2 = Some run2
    ∧ result run2 = Some res).
  { unfold record_result, bind at 1.
    rewrite (on_manager_some _ _ _ Hrm1),
      (set_run_result_present _ _ _ _ _ Hrun1). simpl.
    match goal with
    | |- context [bind _ _ (set_run_manager (Some ?rmx) ?ax)] =>
        destruct (extract_notion_url_spec id res notion
                    (set_run_manager (Some rmx) ax) rmx _ eq_refl
                    (get_run_put_eq _ _ _))
          as (a2 & rm2 & run2 & Hstep & Hrm2 & Hrun2 & Hw2 & _ & Hr & _)
    end.
    unfold bind at 1. rewrite Hstep.
    destruct (save_run_unwritable id a2 rm2 run2 Hrm2 Hrun2)
      as (a3 & rm3 & Hsave & Hrm3 & Hrun3).
    { rewrite Hw2. simpl. by rewrite Hw1. }
    unfold bind at 1. rewrite Hsave. by exists a3, rm3, run2. }
  destruct Hrec as (a2 & rm2 & run2 & Hrec & Hrm2 & Hrun2 & Hr).
  unfold _execute_pipeline, bind at 1, get. rewrite Hrm, Hrun.
  unfold try_except. rewrite pipeline_body_split.
  unfold bind at 1. rewrite Hstart, Hrec. cbn [exn_str].
  unfold bind at 1.
  rewrite (on_manager_some _ _ _ Hrm2),
    (set_run_error_present _ _ _ _ _ Hrun2). simpl.
  unfold bind at 1. rewrite _send_progress_after.
  unfold api_logger, modify. eexists _, _, _. split; [done|]. simpl.
  rewrite run_manager_after_send. simpl. split; [done|].
  split; [apply get_run_put_eq|]. done.
Qed.


Lemma is_active_iff run :
  is_active run = true ↔ status run = "pending" ∨ status run = "running".
Proof.
  unfold is_active.
  by rewrite orb_true_iff, !bool_decide_eq_true.
Qed.

Lemma cancel_run_route_spec id now a rm :
  run_manager a = Some rm →
  cancel_run_route id now a
  = (match returned (cancel_run id now) rm with
     | Ret true => Ret "canceled"
     | Ret false => Raise (HTTPException 400 "Run cannot be canceled")
     | Raise e => Raise e
     end,
     set_run_manager (Some (exec (cancel_run id now) rm)) a).
Proof.
  intros Hrm. unfold cancel_run_route, bind at 1, get. rewrite Hrm.
  unfold bind. rewrite (on_manager_some _ _ _ Hrm). unfold returned, exec.
  by destruct (cancel_run id now rm) as [[[]|e] rm'].
Qed.

(** C3. A run whose status is "pending" or "running" is cancelled by the
    first request: [cancel_run] returns [True] and leaves the run with
    status "canceled" and its completion time set, the other runs as they
    were, and the route answers "canceled".  Every later request on that
    run, and every request on a run that is "completed", "failed" or
    "canceled", returns [False] and changes nothing; the route then raises
    the error 400 "Run cannot be canceled". *)
Theorem cancel_run_once id now self run :
  get_run id self = Some run →
  (status run = "pending" ∨ status run = "running" →
   let self' := exec (cancel_run id now) self in
   returned (cancel_run id now) self = Ret true
   ∧ get_run id self' = Some (canceled_at now run)
   ∧ status (canceled_at now run) = "canceled"
   ∧ completed_at (canceled_at now run) = Some now
   ∧ (∀ id', id' ≠ id → get_run id' self' = get_run id' self)
   ∧ (∀ later, cancel_run id later self' = (Ret false, self'))
   ∧ (∀ a later,
        run_manager a = Some self →
        returned (cancel_run_route id now) a = Ret "canceled"
        ∧ cancel_run_route id later (exec (cancel_run_route id now) a)
          = (Raise (HTTPException 400 "Run cannot be canceled"),
             exec (cancel_run_route id now) a)))
  ∧ (is_terminal_status (status run) = true →
     cancel_run id now self = (Ret false, self)
     ∧ (∀ a, run_manager a = Some self →
             cancel_run_route id now a
             = (Raise (HTTPException 400 "Run cannot be canceled"), a))).
Proof.
  intros Hrun. split.
  - intros Hact%is_active_iff self'. subst self'. unfold returned, exec.
    rewrite (cancel_run_active _ _ _ _ Hrun Hact). simpl.
    set (self' := logged INFO "Canceled run"
                    (task_cancelled id (put id (canceled_at now run) self))).
    assert (Hrun' : get_run id self' = Some (canceled_at now run)).
    { subst self'. rewrite get_run_logged, get_run_task_cancelled.
      apply get_run_put_eq. }
    assert (Hagain : ∀ later, cancel_run id later self' = (Ret false, self')).
    { intros later. by apply (cancel_run_inactive _ _ _ _ Hrun'). }
    split; [done|]. split; [done|]. split; [done|]. split; [done|].
    split; [|split; [done|]].
    + intros id' Hne. subst self'.
      rewrite get_run_logged, get_run_task_cancelled.
      by apply get_run_put_ne.
    + intros a later Hrm. rewrite (cancel_run_route_spec _ _ _ _ Hrm).
      unfold returned, exec. rewrite (cancel_run_active _ _ _ _ Hrun Hact).
      simpl. split; [done|].
      rewrite (cancel_run_route_spec _ _ _ self') by done.
      unfold returned, exec. rewrite Hagain. simpl. by destruct a.
  - intros Hterm%terminal_not_active.
    rewrite (cancel_run_inactive _ _ _ _ Hrun Hterm). split; [done|].
    intros a Hrm. rewrite (cancel_run_route_spec _ _ _ _ Hrm).
    unfold returned, exec. rewrite (cancel_run_inactive _ _ _ _ Hrun Hterm).
    simpl. rewrite <-Hrm. by rewrite set_run_manager_id.
Qed.

End Orchestrator.

Section Normalisation.
Context `{Domain}.

Lemma app_String c (s t : string) : String c s +:+ t = String c (s +:+ t).
Proof. done. Qed.

Lemma app_empty (t : string) : "" +:+ t = t.
Proof. done. Qed.

Lemma prefix_spec (n h : string) :
  String.prefix n h = true ↔ ∃ post, h = n +:+ post.
Proof.
  revert n. induction h as [|c' h IH]; intros [|c n]; simpl.
  - split; [by exists "" | done].
  - split; [done | by intros [post [=]]].
  - split; [by exists (String c' h) | done].
  - destruct (Ascii.ascii_dec c c') as [->|Hne].
    + rewrite IH. split; intros [post Hpost]; exists post.
      * by rewrite app_String, <-Hpost.
      * rewrite app_String in Hpost. congruence.
    + split; [done|]. intros [post Hpost]. rewrite app_String in Hpost.
      congruence.
Qed.

Lemma contains_spec (n h : string) :
  contains n h = true ↔ ∃ pre post, h = pre +:+ n +:+ post.
Proof.
  induction h as [|c h IH]; cbn [contains].
  - rewrite orb_false_r, prefix_spec. split.
    + intros [post Hpost]. by exists "", post.
    + intros (pre & post & Heq). destruct pre as [|c pre]; [by exists post|].
      rewrite app_String in Heq. done.
  - rewrite orb_true_iff, prefix_spec, IH. split.
    + intros [[post Hpost]|(pre & post & Heq)].
      * by exists "", post.
      * exists (String c pre), post. by rewrite app_String, <-Heq.
    + intros (pre & post & Heq). destruct pre as [|c' pre].
      * left. by exists post.
      * right. exists pre, post. rewrite app_String in Heq. congruence.
Qed.

Lemma mentions_spec words text :
  existsb (λ w, contains w (lower text)) words = true ↔ mentions words text.
Proof.
  unfold mentions. rewrite existsb_exists. split.
  - intros (w & Hin%list_elem_of_In & (pre & post & Heq)%contains_spec).
    by exists w, pre, post.
  - intros (w & pre & post & Hin & Heq). exists w.
    split; [by apply list_elem_of_In|]. apply contains_spec. by exists pre, post.
Qed.

Lemma normalize_status_table text :
  normalize_status text
  = if existsb (λ w, contains w (lower text)) started_words then "started"
    else if existsb (λ w, contains w (lower text)) completed_words
    then "completed"
    else if existsb (λ w, contains w (lower text)) failed_words then "failed"
    else "started".
Proof.
  unfold normalize_status, started_words, completed_words, failed_words.
  simpl. by rewrite !orb_false_r, !orb_assoc.
Qed.

(** C4. Normalisation is a function: a raw callback has one stage and
    one status.  The status is "started", "completed" or "failed", read
    off the lower-cased text by substring search, the words of "started"
    being looked for first, then those of "completed", then those of
    "failed", and "started" again when none occurs; texts that differ in
    letter case only have the same status.  A stage outside the table is
    passed through.  The callback ("align", "Alignment completed
    successfully") gives ("preprocess", "completed").  The callback of a
    run the registry holds returns, sends one frame with that stage and
    status to each connection of the run that still has a peer, and
    writes the status under the stage in the progress of the run. *)
Theorem progress_normalization (step text : string) :
  let stage := normalize_stage step in
  let st := normalize_status text in
  (st = "started" ∨ st = "completed" ∨ st = "failed")
  ∧ (mentions started_words text → st = "started")
  ∧ (¬ mentions started_words text → mentions completed_words text →
     st = "completed")
  ∧ (¬ mentions started_words text → ¬ mentions completed_words text →
     mentions failed_words text → st = "failed")
  ∧ (¬ mentions started_words text → ¬ mentions completed_words text →
     ¬ mentions failed_words text → st = "started")
  ∧ (∀ text', lower text' = lower text → normalize_status text' = st)
  ∧ (dict_get step stage_map = None → stage = step)
  ∧ (∀ ui, dict_get step stage_map = Some ui → stage = ui)
  ∧ normalize_stage "align" = "preprocess"
  ∧ normalize_status "Alignment completed successfully" = "completed"
  ∧ (∀ id a rm run,
       run_manager a = Some rm → get_run id rm = Some run →
       let a' := exec (progress_callback id step text) a in
       returned (progress_callback id step text) a = Ret tt
       ∧ run_of id a'
         = Some (with_progress (<[stage := st]> (progress run)) run)
       ∧ sent a'
         = sent a
           ++ frames_to
                (live a (default [] (websocket_connections a !! id)))
                (JsonFrame stage st (progress run))).
Proof.
  intros stage st. subst stage st. rewrite <-!mentions_spec.
  split; [|split; [|split; [|split; [|split; [|split; [|split;
    [|split; [|split; [|split]]]]]]]]].
  - rewrite normalize_status_table. by repeat case_match; auto.
  - rewrite normalize_status_table. by intros ->.
  - rewrite normalize_status_table. intros Hs ->. by case_match.
  - rewrite normalize_status_table. intros Hs Hc ->. by repeat case_match.
  - rewrite normalize_status_table. intros Hs Hc Hf. by repeat case_match.
  - intros text' Heq. by rewrite !normalize_status_table, Heq.
  - unfold normalize_stage. by intros ->.
  - unfold normalize_stage. by intros ui ->.
  - done.
  - by vm_compute.
  - intros id a rm run Hrm Hrun. simpl. unfold returned, exec.
    rewrite (progress_callback_spec _ _ _ _ _ _ Hrm Hrun). simpl.
    split; [done|]. split.
    + unfold run_of; simpl. apply get_run_put_eq.
    + unfold after_send, run_of. rewrite Hrm; simpl. rewrite Hrun.
      destruct (websocket_connections a !! id) as [conns|]; simpl; [done|].
      unfold frames_to, live; simpl. by rewrite app_nil_r.
Qed.

End Normalisation.

Section Subscription.
Context `{Domain}.
Implicit Types (a : Api) (ws : WebSocket) (id : string) (run : RunState).

Lemma ws_subscribe_spec ws id a :
  ws_subscribe ws id a = (Ret tt, subscribed ws id a).
Proof.
  unfold ws_subscribe, subscribed, bind, modify, ret.
  destruct (websocket_connections a !! id) as [conns|] eqn:Hconns; simpl.
  - by rewrite Hconns.
  - by rewrite lookup_insert_eq, insert_insert_eq.
Qed.

Lemma ws_initial_state_spec ws id a rm run :
  run_manager a = Some rm → get_run id rm = Some run → ws ∉ gone a →
  ws_initial_state ws id a
  = (Ret tt, set_sent (sent a ++ [(ws, snapshot run)]) a).
Proof.
  intros Hrm Hrun Hlive. unfold ws_initial_state, bind, get.
  rewrite Hrm, Hrun. apply send_live. unfold is_gone.
  by apply bool_decide_eq_false.
Qed.

Lemma receive_loop ws incoming : ∀ a,
  ws ∉ gone a →
  for_each incoming tt (λ _ data, ws_receive ws data) a
  = (Ret tt, set_sent (sent a ++ pongs ws incoming) a).
Proof.
  induction incoming as [|data incoming IH]; intros a Hlive; cbn [for_each].
  - unfold ret, pongs; simpl. rewrite app_nil_r. by destruct a.
  - unfold bind at 1, ws_receive, pongs. cbn [List.filter].
    destruct (bool_decide (data = "ping")).
    + rewrite send_live by (by apply bool_decide_eq_false).
      rewrite IH by done. simpl. by rewrite <-app_assoc.
    + unfold ret at 1. by rewrite IH.
Qed.

Lemma list_remove_elem ws (l : list WebSocket) :
  ws ∈ l → ∃ l', list_remove ws l = Some l'.
Proof.
  induction l as [|y l IH]; [by intros ?%elem_of_nil|]. simpl.
  destruct (decide (y = ws)); [by eexists|].
  intros [?|Hin]%elem_of_cons; [congruence|].
  destruct (IH Hin) as [l' ->]. by eexists.
Qed.

Lemma ws_cleanup_spec ws id a conns :
  websocket_connections a !! id = Some conns → ws ∈ conns →
  ∃ table,
    ws_cleanup ws id a = (Ret tt, set_websocket_connections table a).
Proof.
  intros Hconns Hin. unfold ws_cleanup, bind at 1, get. rewrite Hconns.
  unfold bind at 1, remove_connection, bind at 1, get, bind at 1.
  rewrite Hconns. simpl. destruct (list_remove_elem _ _ Hin) as [l' ->].
  unfold modify. simpl. rewrite lookup_insert_eq.
  destruct l'; by eexists.
Qed.

Lemma received_app ws a (frames : list (WebSocket * frame)) :
  received ws (set_sent (sent a ++ frames) a)
  = received ws a
    ++ (snd <$> List.filter (λ wf, bool_decide (wf.1 = ws)) frames).
Proof. unfold received; simpl. by rewrite List.filter_app, fmap_app. Qed.

(** C9. A connection with a live peer that subscribes to a run the
    registry holds is entered in the table of the run and, in the same
    step, sent one frame: stage "connected", the status of the run and its
    whole progress mapping as they are then.  Nothing else is sent in that
    step, to this connection or another, and the manager is not touched.
    Over the whole life of the connection the frames sent are this one and
    then one "pong" for each "ping" of the client: a client that sends
    nothing before it leaves has received exactly the snapshot. *)
Theorem subscriber_gets_snapshot ws id a rm run :
  run_manager a = Some rm → get_run id rm = Some run → ws ∉ gone a →
  snapshot run = JsonFrame "connected" (status run) (progress run)
  ∧ (∃ a1,
       (do! ws_subscribe ws id in ws_initial_state ws id) a = (Ret tt, a1)
       ∧ sent a1 = sent a ++ [(ws, snapshot run)]
       ∧ received ws a1 = received ws a ++ [snapshot run]
       ∧ run_manager a1 = Some rm
       ∧ ∃ conns, websocket_connections a1 !! id = Some conns ∧ ws ∈ conns)
  ∧ (∀ incoming,
       ∃ a2,
         websocket_endpoint ws id incoming a = (Ret tt, a2)
         ∧ sent a2 = sent a ++ (ws, snapshot run) :: pongs ws incoming
         ∧ run_manager a2 = Some rm)
  ∧ (∃ a2,
       websocket_endpoint ws id [] a = (Ret tt, a2)
       ∧ received ws a2 = received ws a ++ [snapshot run]).
Proof.
  intros Hrm Hrun Hlive.
  assert (Hinit : ws_initial_state ws id (subscribed ws id a)
                  = (Ret tt, set_sent (sent a ++ [(ws, snapshot run)])
                               (subscribed ws id a))).
  { by rewrite (ws_initial_state_spec ws id (subscribed ws id a) rm run). }
  assert (Hend : ∀ incoming,
    ∃ table,
      websocket_endpoint ws id incoming a
      = (Ret tt,
         set_websocket_connections table
           (set_sent (sent a ++ (ws, snapshot run) :: pongs ws incoming) a))).
  { intros incoming. unfold websocket_endpoint, bind at 1.
    rewrite ws_subscribe_spec. unfold try_finally, try_except, bind at 1.
    rewrite Hinit, receive_loop by done. simpl.
    edestruct (ws_cleanup_spec ws id) as [table ->].
    { simpl. apply lookup_insert_eq. }
    { apply elem_of_app. right. left. }
    exists table. simpl. by rewrite <-app_assoc. }
  split; [done|]. split; [|split].
  - eexists. unfold bind. rewrite ws_subscribe_spec, Hinit.
    split; [done|]. split; [done|]. split.
    { unfold received; simpl. rewrite List.filter_app, fmap_app. simpl.
      by rewrite bool_decide_eq_true_2. }
    split; [done|]. simpl. eexists. split; [apply lookup_insert_eq|].
    apply elem_of_app. right. left.
  - intros incoming. destruct (Hend incoming) as [table ->].
    by eexists.
  - destruct (Hend []) as [table ->]. eexists. split; [done|].
    unfold received; simpl. rewrite List.filter_app, fmap_app. simpl.
    by rewrite bool_decide_eq_true_2.
Qed.

End Subscription.

Section Frames.
Context `{Domain}.
Implicit Types (a : Api) (rm : RunManager) (run : RunState) (id : string).

Lemma keeps_ret {S A} (I : S → Prop) (x : A) : keeps I (ret x).
Proof. by intros s. Qed.

Lemma keeps_raise {S A} (I : S → Prop) e : keeps I (@raise S A e).
Proof. by intros s. Qed.

Lemma keeps_get {S} (I : S → Prop) : keeps I get.
Proof. by intros s. Qed.

Lemma keeps_modify {S} (I : S → Prop) (f : S → S) :
  (∀ s, I s → I (f s)) → keeps I (modify f).
Proof. intros Hf s. apply Hf. Qed.

Lemma keeps_bind {S A B} (I : S → Prop) (m : M S A) (k : A → M S B) :
  keeps I m → (∀ x, keeps I (k x)) → keeps I (bind m k).
Proof.
  intros Hm Hk s Hs. unfold bind. specialize (Hm s Hs).
  destruct (m s) as [[x|e] s']; simpl in *; [by apply Hk | done].
Qed.

Lemma keeps_try_except {S A} (I : S → Prop) (body : M S A) caught handler :
  keeps I body → (∀ e, keeps I (handler e)) →
  keeps I (try_except body caught handler).
Proof.
  intros Hm Hh s Hs. unfold try_except. specialize (Hm s Hs).
  destruct (body s) as [[x|e] s']; simpl in *; [done|].
  destruct (caught e); [by apply Hh | done].
Qed.

Lemma keeps_try_finally {S A} (I : S → Prop) (body : M S A) cleanup :
  keeps I body → keeps I cleanup → keeps I (try_finally body cleanup).
Proof.
  intros Hm Hc s Hs. unfold try_finally. specialize (Hm s Hs).
  destruct (body s) as [r s']; simpl in *. specialize (Hc s' Hm).
  by destruct (cleanup s') as [[[]|e] s''].
Qed.

Lemma keeps_for_each {S A B} (I : S → Prop) (xs : list A) (body : B → A → M S B) :
  (∀ acc x, keeps I (body acc x)) → ∀ acc, keeps I (for_each xs acc body).
Proof.
  intros Hbody. induction xs as [|x xs IH]; intros acc; cbn [for_each].
  - apply keeps_ret.
  - apply keeps_bind; [apply Hbody | apply IH].
Qed.

Lemma keeps_discard {S A} (I : S → Prop) (m : M S A) :
  keeps I m → keeps I (discard m).
Proof. intros Hm. apply keeps_bind; [done | intros ?; apply keeps_ret]. Qed.






























End Frames.

Section SortFacts.
Context {A : Type} (key : A → Z).
Implicit Types (x y : A) (l : list A) (P : A → bool).








Lemma filter_sublist P l : List.filter P l `sublist_of` l.
Proof.
  induction l as [|x l IH]; simpl; [done|]. destruct (P x); by constructor.
Qed.

Lemma elem_of_filter P l x : x ∈ List.filter P l ↔ x ∈ l ∧ P x = true.
Proof. rewrite !list_elem_of_In. apply List.filter_In. Qed.



End SortFacts.

Section Listing.
Context `{Domain}.
Implicit Types (self : RunManager) (run r : RunState) (l : list RunState)
  (seen : gset string) (id : string).

Lemma dedupe_loop l : ∀ seen acc,
  (fold_left dedupe_step l (seen, acc)).2 = acc ++ first_of_each seen l.
Proof.
  induction l as [|r l IH]; intros seen acc; simpl.
  - by rewrite app_nil_r.
  - unfold dedupe_step at 2. simpl.
    destruct (bool_decide (run_id r ∈ seen)); [apply IH|].
    by rewrite IH, <-app_assoc.
Qed.

Lemma list_recent_runs_spec self limit :
  list_recent_runs limit self
  = (Ret (slice_to (effective_limit self limit) (recent self)),
     set_log (log self ++ load_warnings (history_file self)) self).
Proof.
  unfold list_recent_runs, bind at 1, get, bind at 1.
  rewrite _load_history_spec. unfold ret. simpl.
  rewrite (dedupe_loop _ ∅ []). simpl.
  unfold recent, merged, effective_limit. by destruct limit.
Qed.
















(** The registry is well formed from the start and stays so. *)
Lemma registry_wf_init file writable mc mh :
  registry_wf (__init__ file writable mc mh).
Proof.
  split; simpl; [constructor|]. by intros k v ?%elem_of_nil.
Qed.

Lemma dict_set_wf id run (d : list (string * RunState)) :
  run_id run = id →
  NoDup (dict_keys d) → (∀ k v, (k, v) ∈ d → run_id v = k) →
  NoDup (dict_keys (dict_set id run d))
  ∧ ∀ k v, (k, v) ∈ dict_set id run d → run_id v = k.
Proof.
  intros Hid Hnd Hwf. destruct (dict_get id d) as [run0|] eqn:Hget.
  - split; [by rewrite (dict_keys_set_present _ _ _ _ Hget)|].
    clear Hnd. induction d as [|[k0 v0] d IH]; [done|]. simpl in Hget |- *.
    destruct (decide (k0 = id)) as [->|Hne].
    + intros k v [[= -> ->]|Hin]%elem_of_cons; [done|].
      by apply Hwf, list_elem_of_further.
    + intros k v [[= -> ->]|Hin]%elem_of_cons.
      * apply Hwf, list_elem_of_here.
      * apply IH; [|done|done]. intros ? ? ?.
        by apply Hwf, list_elem_of_further.
  - rewrite (dict_set_fresh _ _ _ Hget). split.
    + unfold dict_keys. rewrite fmap_app. apply NoDup_app.
      split; [done|]. split; [|by apply NoDup_singleton].
      intros k Hk ->%list_elem_of_singleton.
      by apply dict_get_None in Hget.
    + intros k v [Hin|[= -> ->]%list_elem_of_singleton]%elem_of_app;
        [by apply Hwf | done].
Qed.

Lemma registry_wf_put id run self :
  run_id run = id → registry_wf self → registry_wf (put id run self).
Proof. intros Hid [Hnd Hwf]. by apply dict_set_wf. Qed.

Lemma registry_wf_registry self self' :
  _active_runs self' = _active_runs self →
  registry_wf self → registry_wf self'.
Proof. unfold registry_wf. by intros ->. Qed.

Lemma get_run_id_wf id run self :
  registry_wf self → get_run id self = Some run → run_id run = id.
Proof. intros [_ Hwf] Hget. by apply Hwf, dict_get_elem. Qed.

Lemma registry_wf_methods self :
  registry_wf self →
  (∀ config uuid4 now, registry_wf (exec (create_run config uuid4 now) self))
  ∧ (∀ id status now, registry_wf (exec (update_run_status id status now) self))
  ∧ (∀ id stage status,
       registry_wf (exec (update_run_progress id stage status) self))
  ∧ (∀ id res now, registry_wf (exec (set_run_result id res now) self))
  ∧ (∀ id msg now, registry_wf (exec (set_run_error id msg now) self))
  ∧ (∀ id url, registry_wf (exec (set_notion_url id url) self))
  ∧ (∀ id now, registry_wf (exec (cancel_run id now) self))
  ∧ (∀ id task, registry_wf (exec (register_task id task) self))
  ∧ (∀ run, registry_wf (exec (save_to_history run) self))
  ∧ (∀ limit, registry_wf (exec (list_recent_runs limit) self)).
Proof.
  intros Hwf. unfold exec. repeat apply conj.
  - intros config uuid4 now.
    destruct (Z.le_gt_cases (max_concurrent self) (active_count self)).
    + by rewrite create_run_full.
    + rewrite create_run_free by lia. by apply (registry_wf_put _ _ self).
  - intros id status now. destruct (get_run id self) as [run|] eqn:Hrun.
    + rewrite (update_run_status_present _ _ _ _ _ Hrun).
      apply (registry_wf_put _ _ self); [|done].
      rewrite <-(get_run_id_wf _ _ _ Hwf Hrun). unfold status_written.
      by destruct (is_terminal_status status).
    + by rewrite update_run_status_absent.
  - intros id stage status. destruct (get_run id self) as [run|] eqn:Hrun.
    + rewrite (update_run_progress_present _ _ _ _ _ Hrun).
      apply (registry_wf_put _ _ self); [|done].
      by rewrite <-(get_run_id_wf _ _ _ Hwf Hrun).
    + by rewrite update_run_progress_absent.
  - intros id res now. destruct (get_run id self) as [run|] eqn:Hrun.
    + rewrite (set_run_result_present _ _ _ _ _ Hrun).
      apply (registry_wf_put _ _ self); [|done].
      by rewrite <-(get_run_id_wf _ _ _ Hwf Hrun).
    + by rewrite set_run_result_absent.
  - intros id msg now. destruct (get_run id self) as [run|] eqn:Hrun.
    + rewrite (set_run_error_present _ _ _ _ _ Hrun).
      apply (registry_wf_put _ _ self); [|done].
      by rewrite <-(get_run_id_wf _ _ _ Hwf Hrun).
    + by rewrite set_run_error_absent.
  - intros id url. destruct (get_run id self) as [run|] eqn:Hrun.
    + rewrite (set_notion_url_present _ _ _ _ Hrun).
      apply (registry_wf_put _ _ self); [|done].
      by rewrite <-(get_run_id_wf _ _ _ Hwf Hrun).
    + by rewrite set_notion_url_absent.
  - intros id now. destruct (get_run id self) as [run|] eqn:Hrun.
    + destruct (is_active run) eqn:Hact.
      * rewrite (cancel_run_active _ _ _ _ Hrun Hact). simpl.
        eapply (registry_wf_registry (put id (canceled_at now run) self)).
        { unfold task_cancelled, logged.
          by destruct (_run_tasks (put id (canceled_at now run) self) !! id). }
        apply registry_wf_put; [|done].
        by rewrite <-(get_run_id_wf _ _ _ Hwf Hrun).
      * by rewrite (cancel_run_inactive _ _ _ _ Hrun Hact).
    + by rewrite cancel_run_absent.
  - done.
  - intros run. rewrite save_to_history_spec. by destruct (fs_writable self).
  - intros limit. by rewrite list_recent_runs_spec.
Qed.

End Listing.

End Props.

(** ** The properties at work *)

Module Witnesses.
Import RunManagerModel ApiModel Terms Props Sample Scenarios.
Local Open Scope Z_scope.

(** With the one slot taken a second run is refused; once the first run
    is completed the next is admitted.  Under a ceiling of two, two runs
    are admitted and the third is refused until one of them is
    cancelled. *)
Lemma admission_scenario :
  (∃ msg, returned (create_run cfg "b" 2) busy = Raise (RuntimeError msg))
  ∧ returned (create_run cfg "b" 3)
      (exec (update_run_status "a" "completed" 3) busy) = Ret "b"
  ∧ returned (create_run cfg "b" 3) fresh = Ret "b"
  ∧ (let two := exec (admit_all cfg [("r1", 1); ("r2", 2)])
                  (__init__ Absent true (Some 2) None) in
     (∃ msg, returned (create_run cfg "b" 3) two = Raise (RuntimeError msg))
     ∧ returned (create_run cfg "b" 3) (exec (cancel_run "r2" 3) two)
       = Ret "b").
Proof.
  destruct (create_run_admission busy cfg "b" 2) as (Hfull & _ & _ & _).
  destruct (create_run_admission busy cfg "b" 3)
    as (_ & _ & _ & Hnext & Hceiling).
  destruct (create_run_admission fresh cfg "b" 3) as (_ & _ & Hfree & _).
  split; [apply Hfull; vm_compute; discriminate|]. split; [|split].
  - apply (Hnext "a" run_a); [reflexivity | reflexivity | vm_compute; discriminate|].
    by apply by_status.
  - apply Hfree. reflexivity.
  - destruct (Hceiling [("r1", 1); ("r2", 2)] Absent true None)
      as (_ & Hrefused & Hafter); [compute_done|].
    split; [exact Hrefused|].
    apply (Hafter "r2"); [compute_done | apply by_cancel].
Defined.

Lemma unknown_run_scenario :
  get_run "zz" busy = None
  ∧ update_run_status "zz" "completed" 3 busy = (Ret tt, busy)
  ∧ update_run_progress "zz" "fetch" "started" busy = (Ret tt, busy)
  ∧ set_run_result "zz" clean_result 3 busy = (Ret tt, busy)
  ∧ set_run_error "zz" "boom" 3 busy = (Ret tt, busy)
  ∧ set_notion_url "zz" "https://notion.so/p" busy = (Ret tt, busy).
Proof.
  split; [reflexivity|].
  destruct (mutators_ignore_unknown_run "zz" busy eq_refl)
    as (H1 & H2 & H3 & H4 & H5).
  repeat apply conj; [apply H1 | apply H2 | apply H3 | apply H4 | apply H5].
Defined.

Lemma cancel_scenario :
  get_run "a" busy = Some run_a
  ∧ status run_a = "running"
  ∧ returned (cancel_run "a" 5) busy = Ret true
  ∧ get_run "a" (exec (cancel_run "a" 5) busy) = Some run_a_canceled
  ∧ returned (cancel_run "a" 6) (exec (cancel_run "a" 5) busy) = Ret false
  ∧ returned (cancel_run_route "a" 6) studio_idle
    = Raise (HTTPException 400 "Run cannot be canceled").
Proof.
  split; [reflexivity|]. split; [reflexivity|].
  destruct (cancel_run_once "a" 5 busy run_a eq_refl) as [Hactive _].
  destruct (Hactive (or_intror eq_refl)) as (Hret & Hget & _ & _ & _ & Hagain & _).
  destruct (cancel_run_once "a" 6 idle run_a_canceled eq_refl) as [_ Hterm].
  destruct (Hterm eq_refl) as [_ Hroute].
  split; [exact Hret|]. split; [exact Hget|]. split.
  - unfold returned. by rewrite Hagain.
  - unfold returned. by rewrite (Hroute studio_idle eq_refl).
Defined.


Lemma eviction_scenario :
  fs_writable archive = true ∧ 0 <= max_history archive
  ∧ loaded_runs (history_file archive) = [run_x; run_y]
  ∧ returned (save_to_history run_z) archive = Ret tt
  ∧ stored_ids (history_file (exec (save_to_history run_z) archive))
    = ["z"; "x"]
  ∧ stored_ids (history_file (exec (save_to_history run_x) archive))
    = ["x"; "y"].
Proof.
  split; [reflexivity|]. split; [vm_compute; discriminate|].
  split; [by vm_compute|].
  destruct (save_to_history_bounded archive run_z eq_refl)
    as (Hret & _ & _ & _ & _ & _ & _ & _ & _ & Hfull);
    [vm_compute; discriminate|].
  destruct (save_to_history_bounded archive run_x eq_refl)
    as (_ & _ & Hids & _); [vm_compute; discriminate|].
  split; [exact Hret|]. split.
  - by destruct (Hfull [run_x] run_y) as [-> _]; compute_done.
  - rewrite Hids. by vm_compute.
Defined.


Lemma normalization_scenario :
  (normalize_stage "align", normalize_status "Alignment completed successfully")
  = ("preprocess", "completed")
  ∧ normalize_status "TRANSCRIPTION FAILED" = "failed"
  ∧ normalize_status "Transcribing failed" = "started"
  ∧ normalize_status "Working" = "started"
  ∧ normalize_stage "mystery" = "mystery".
Proof.
  destruct (progress_normalization "align" "Alignment completed successfully")
    as (_ & _ & _ & _ & _ & _ & _ & _ & Hstage & Hstatus & _).
  destruct (progress_normalization "mystery" "TRANSCRIPTION FAILED")
    as (_ & _ & _ & _ & _ & Hcase & Hunknown & _).
  split; [by rewrite Hstage, Hstatus|].
  split; [by rewrite <-(Hcase "transcription failed" eq_refl)|].
  split; [by vm_compute|]. split; [by vm_compute|].
  by apply Hunknown.
Defined.

Lemma snapshot_scenario :
  run_manager studio = Some busy ∧ get_run "a" busy = Some run_a
  ∧ (7%nat ∉ gone studio)
  ∧ (∃ a', websocket_endpoint 7%nat "a" [] studio = (Ret tt, a')
           ∧ sent a' = [(7%nat, JsonFrame "connected" "running" ∅)])
  ∧ (∃ a', (do! ws_subscribe 7%nat "a" in ws_initial_state 7%nat "a") studio
           = (Ret tt, a')
           ∧ received 7%nat a' = [JsonFrame "connected" "running" ∅]).
Proof.
  split; [reflexivity|]. split; [reflexivity|].
  assert (Hlive : 7%nat ∉ gone studio) by compute_done.
  split; [exact Hlive|].
  destruct (subscriber_gets_snapshot 7%nat "a" studio busy run_a
              eq_refl eq_refl Hlive) as (_ & Hstep & Hwhole & _).
  split.
  - destruct (Hwhole []) as (a' & Hend & Hsent & _). by exists a'.
  - destruct Hstep as (a' & Hsub & _ & Hrecv & _). by exists a'.
Defined.





End Witnesses.

Module StoreProps.
Import RunManagerModel ApiModel Terms MoreTerms Props.

Section RoundTrip.
Context `{Domain}.
Implicit Types (self rm : RunManager) (run r : RunState) (id : string).

(** X1. A record whose configuration the constructor takes back as [c],
    and whose times come back from their ISO texts (the text of the
    completion time, if there is one, not being empty), is read by
    [_dict_to_run_state] from the dictionary [to_dict] makes of it as the
    same record, with [c] for its configuration. *)
Theorem history_round_trip run c :
  PipelineConfig_init (_config_to_dict run) = Some c →
  fromisoformat (isoformat (started_at run)) = Some (started_at run) →
  (∀ t, completed_at run = Some t →
        isoformat t ≠ "" ∧ fromisoformat (isoformat t) = Some t) →
  decode_item (ItemDict (to_dict run)) = Ret (with_config c run).
Proof.
  intros Hc Hs Ht. destruct run as [rid cfg st pr res er sa ca nu].
  unfold decode_item, returned, _dict_to_run_state, to_dict, with_config.
  cbn [d_config d_result d_started_at d_completed_at d_run_id d_status
       d_progress d_error d_notion_url default from_option id
       RunManagerModel.run_id RunManagerModel.config RunManagerModel.status
       RunManagerModel.progress RunManagerModel.result RunManagerModel.error
       RunManagerModel.started_at RunManagerModel.completed_at
       RunManagerModel.notion_url] in *.
  unfold bind at 1. rewrite Hc. unfold ret at 1. cbn [fst snd].
  destruct res as [[w sc ar du err]|];
    (unfold bind, ret, raise, subscript, parse_datetime; simpl; rewrite Hs;
     destruct ca as [t|]; simpl; [|reflexivity];
     destruct (Ht t eq_refl) as [Hne Hiso];
     rewrite bool_decide_eq_false_2 by done; by rewrite Hiso).
Qed.

Lemma loaded_round_trips (l : list RunState) :
  (∀ r, r ∈ l → round_trips r) →
  loaded (ItemDict <$> (to_dict <$> l)) = l
  ∧ item_warnings (ItemDict <$> (to_dict <$> l)) = [].
Proof.
  induction l as [|r l IH]; intros Hl; [done|].
  rewrite !fmap_cons.
  destruct (loaded_cons_ok (ItemDict (to_dict r))
              (ItemDict <$> (to_dict <$> l)) r) as [-> ->].
  { apply Hl. by left. }
  destruct IH as [-> ->]; [|done]. intros r' Hr'. apply Hl. by right.
Qed.

Lemma slice_to_nonneg {A} (n : Z) (l : list A) :
  (0 <= n)%Z → slice_to n l = take (Z.to_nat n) l.
Proof. intros Hn. unfold slice_to. by rewrite (proj2 (Z.ltb_ge _ _)). Qed.

Lemma history_after_first self run :
  (1 <= max_history self)%Z →
  history_after self run
  = run :: take (Z.to_nat (max_history self) - 1)
             (others (run_id run) (loaded_runs (history_file self))).
Proof.
  intros Hn. unfold history_after. rewrite slice_to_nonneg by lia.
  destruct (Z.to_nat (max_history self)) as [|n] eqn:Hz; [lia|].
  simpl. by rewrite Nat.sub_0_r.
Qed.

Lemma others_take_fresh id n (l : list RunState) :
  id ∉ run_id <$> l → others id (take n l) = take n l.
Proof.
  intros Hid. apply others_fresh. intros Hin. apply Hid.
  eapply elem_of_sublist; [done|]. apply fmap_sublist, sublist_take.
Qed.

(** X2. On a disk that takes the write and with records that come back
    from the file as they went in, [save_to_history] returns and
    [_load_history] then returns exactly the run saved followed by the
    earlier entries of other identifiers, cut to the maximum length; with
    a maximum of one or more the run saved is the first entry, and no
    other entry has its identifier. *)
Theorem save_then_load self run :
  fs_writable self = true →
  (∀ r, r ∈ history_after self run → round_trips r) →
  let self' := exec (save_to_history run) self in
  returned (save_to_history run) self = Ret tt
  ∧ _load_history self' = (Ret (history_after self run), self')
  ∧ ((1 <= max_history self)%Z →
     ∃ rest, history_after self run = run :: rest
             ∧ run_id run ∉ run_id <$> rest).
Proof.
  intros Hw Hrt self'. subst self'. unfold returned, exec.
  rewrite save_to_history_spec, Hw. cbn [fst snd].
  split; [done|]. split.
  - rewrite _load_history_spec. cbn [history_file set_log set_history_file].
    unfold file_of, loaded_runs, load_warnings.
    destruct (loaded_round_trips _ Hrt) as [-> ->]. f_equal.
    by rewrite app_nil_r.
  - intros Hn. rewrite history_after_first by done. eexists. split; [done|].
    intros Hin. eapply (others_ids (run_id run)).
    eapply elem_of_sublist; [done|]. apply fmap_sublist, sublist_take.
Qed.

(** X3. A save supersedes the entry of the same identifier: saving a
    run and then a record with its identifier leaves the history file
    that saving the second alone leaves. *)
Theorem save_to_history_supersedes self run run' :
  fs_writable self = true → (0 <= max_history self)%Z →
  (∀ r, r ∈ history_after self run → round_trips r) →
  run_id run' = run_id run →
  history_file (exec (save_to_history run') (exec (save_to_history run) self))
  = history_file (exec (save_to_history run') self).
Proof.
  intros Hw Hn Hrt Hid. unfold exec.
  rewrite (save_to_history_spec self run), Hw. cbn [snd].
  rewrite !save_to_history_spec.
  cbn [fs_writable set_log set_history_file]. rewrite Hw. cbn [snd].
  cbn [history_file set_log set_history_file]. f_equal.
  unfold history_after at 1 3.
  cbn [history_file max_history set_log set_history_file].
  unfold file_of at 1, loaded_runs at 1.
  destruct (loaded_round_trips _ Hrt) as [-> _].
  rewrite !slice_to_nonneg by done. rewrite Hid.
  fold (others (run_id run) (history_after self run)).
  fold (others (run_id run) (loaded_runs (history_file self))).
  destruct (Z.to_nat (max_history self)) as [|n] eqn:Hz; [done|].
  rewrite history_after_first by lia. rewrite Hz. cbn [take].
  rewrite Nat.sub_succ, Nat.sub_0_r. f_equal.
  unfold others at 1. cbn [List.filter].
  rewrite bool_decide_eq_true_2 by done. cbn [negb].
  fold (others (run_id run)
          (take n (others (run_id run) (loaded_runs (history_file self))))).
  rewrite others_take_fresh by apply others_ids.
  by rewrite take_take, Nat.min_id.
Qed.

End RoundTrip.
End StoreProps.

Module RegistryProps.
Import RunManagerModel ApiModel Terms MoreTerms Props.

(** What it takes for a property of the manager to persist under its
    methods: it persists when the log grows and when a record the
    registry holds is replaced by one the relation [R] allows. *)
Section Closure.
Context `{Domain}.
Variable J : RunManager → Prop.
Variable R : RunState → RunState → Prop.
Hypothesis Hlog : ∀ rm l, J rm → J (set_log (log rm ++ l) rm).
Hypothesis Hput : ∀ rm id run run',
  J rm → get_run id rm = Some run → R run run' → J (put id run' rm).
Implicit Types (rm : RunManager) (run : RunState) (id : string).

Lemma closed_rewrite id (f : RunState → RunState) {A} (method : M RunManager A)
    lv event :
  (∀ rm run, get_run id rm = Some run →
     (method rm).2 = logged lv event (put id (f run) rm)) →
  (∀ rm, get_run id rm = None → (method rm).2 = rm) →
  (∀ run, R run (f run)) →
  keeps J method.
Proof using Hlog Hput.
  intros Hpresent Habsent Hf rm Hrm.
  destruct (get_run id rm) as [run|] eqn:Hrun.
  - rewrite (Hpresent _ _ Hrun). apply Hlog. by eapply Hput.
  - by rewrite Habsent.
Qed.

Lemma closed_update_run_status id status now :
  (∀ run, R run (status_written status now run)) →
  keeps J (update_run_status id status now).
Proof using Hlog Hput.
  apply (closed_rewrite id (status_written status now) _
           DEBUG "Updated run status").
  - intros rm run Hrun. by rewrite (update_run_status_present _ _ _ _ _ Hrun).
  - intros rm Hrun. by rewrite update_run_status_absent.
Qed.

Lemma closed_update_run_progress id stage status :
  (∀ run, R run (with_progress (<[stage := status]> (progress run)) run)) →
  keeps J (update_run_progress id stage status).
Proof using Hlog Hput.
  apply (closed_rewrite id
           (λ run, with_progress (<[stage := status]> (progress run)) run) _
           DEBUG "Updated run progress").
  - intros rm run Hrun. by rewrite (update_run_progress_present _ _ _ _ _ Hrun).
  - intros rm Hrun. by rewrite update_run_progress_absent.
Qed.

Lemma closed_set_run_result id res now :
  (∀ run, R run (result_written res now run)) →
  keeps J (set_run_result id res now).
Proof using Hlog Hput.
  apply (closed_rewrite id (result_written res now) _ INFO "Set run result").
  - intros rm run Hrun. by rewrite (set_run_result_present _ _ _ _ _ Hrun).
  - intros rm Hrun. by rewrite set_run_result_absent.
Qed.

Lemma closed_set_run_error id msg now :
  (∀ run, R run (error_written msg now run)) →
  keeps J (set_run_error id msg now).
Proof using Hlog Hput.
  apply (closed_rewrite id (error_written msg now) _ ERROR "Set run error").
  - intros rm run Hrun. by rewrite (set_run_error_present _ _ _ _ _ Hrun).
  - intros rm Hrun. by rewrite set_run_error_absent.
Qed.

Lemma closed_set_notion_url id url :
  (∀ run, R run (with_notion_url (Some url) run)) →
  keeps J (set_notion_url id url).
Proof using Hlog Hput.
  apply (closed_rewrite id (with_notion_url (Some url)) _
           INFO "Set Notion URL").
  - intros rm run Hrun. by rewrite (set_notion_url_present _ _ _ _ Hrun).
  - intros rm Hrun. by rewrite set_notion_url_absent.
Qed.

Lemma closed_cancel_run id now :
  (∀ run, is_active run = true → R run (canceled_at now run)) →
  (∀ rm, J rm → J (task_cancelled id rm)) →
  keeps J (cancel_run id now).
Proof using Hlog Hput.
  intros HR Htask rm Hrm. destruct (get_run id rm) as [run|] eqn:Hrun.
  - destruct (is_active run) eqn:Hact.
    + rewrite (cancel_run_active _ _ _ _ Hrun Hact). cbn [snd].
      apply Hlog, Htask. eapply Hput; eauto.
    + by rewrite (cancel_run_inactive _ _ _ _ Hrun Hact).
  - by rewrite cancel_run_absent.
Qed.

Lemma closed__load_history : keeps J _load_history.
Proof using Hlog.
  intros rm Hrm. rewrite _load_history_spec. by apply Hlog.
Qed.

Lemma closed_list_recent_runs limit : keeps J (list_recent_runs limit).
Proof using Hlog.
  intros rm Hrm. rewrite list_recent_runs_spec. by apply Hlog.
Qed.

Lemma closed_save_to_history run :
  (∀ rm f, J rm → J (set_history_file f rm)) →
  keeps J (save_to_history run).
Proof using Hlog.
  intros Hfile rm Hrm. rewrite save_to_history_spec.
  destruct (fs_writable rm); cbn [snd].
  - rewrite app_assoc.
    change (J (set_log
                 (log (set_log (log rm ++ load_warnings (history_file rm))
                         (set_history_file
                            (file_of (history_after rm run)) rm))
                  ++ [(DEBUG, "Saved run to history")])
                 (set_log (log rm ++ load_warnings (history_file rm))
                    (set_history_file (file_of (history_after rm run)) rm)))).
    apply Hlog.
    change (J (set_log
                 (log (set_history_file (file_of (history_after rm run)) rm)
                  ++ load_warnings (history_file rm))
                 (set_history_file (file_of (history_after rm run)) rm))).
    by apply Hlog, Hfile.
  - by apply Hlog.
Qed.

Lemma closed_create_run config uuid4 now :
  (∀ rm, J rm → (active_count rm < max_concurrent rm)%Z →
         J (put uuid4 (pending_run config uuid4 now) rm)) →
  keeps J (create_run config uuid4 now).
Proof using Hlog.
  intros Hnew rm Hrm.
  destruct (Z.le_gt_cases (max_concurrent rm) (active_count rm)).
  - by rewrite create_run_full.
  - rewrite create_run_free by lia. cbn [snd].
    apply (Hlog (put uuid4 (pending_run config uuid4 now) rm)).
    apply Hnew; [done | lia].
Qed.

(** The rewrites of a record the methods make are all within [R]. *)
Hypothesis HR : ∀ run,
  (∀ status now, R run (status_written status now run))
  ∧ (∀ stage status,
       R run (with_progress (<[stage := status]> (progress run)) run))
  ∧ (∀ res now, R run (result_written res now run))
  ∧ (∀ msg now, R run (error_written msg now run))
  ∧ (∀ url, R run (with_notion_url (Some url) run)).

Lemma closed_operation op :
  (∀ config uuid4 now, op = CreateRun config uuid4 now →
     ∀ rm, J rm → (active_count rm < max_concurrent rm)%Z →
           J (put uuid4 (pending_run config uuid4 now) rm)) →
  (∀ id task, op = RegisterTask id task →
     ∀ rm, J rm → J (set_run_tasks (<[id := task]> (_run_tasks rm)) rm)) →
  (saves op = true → ∀ rm f, J rm → J (set_history_file f rm)) →
  (∀ rm id, J rm → J (task_cancelled id rm)) →
  manager_closed J op.
Proof using Hlog Hput HR.
  intros Hnew Hreg Hfile Htask.
  destruct op; cbn [manager_closed saves] in *.
  - apply closed_create_run. by eapply Hnew.
  - apply closed_update_run_status. intros run. apply HR.
  - apply closed_update_run_progress. intros run. apply HR.
  - apply closed_set_run_result. intros run. apply HR.
  - apply closed_set_run_error. intros run. apply HR.
  - apply closed_set_notion_url. intros run. apply HR.
  - apply closed_cancel_run; [|by intros rm; apply Htask].
    intros run _. exact (proj1 (HR run) "canceled" now).
  - intros rm Hrm. by eapply Hreg.
  - apply closed_save_to_history. by apply Hfile.
  - apply closed_list_recent_runs.
  - done.
  - apply closed_update_run_progress. intros run. apply HR.
  - repeat apply conj.
    + apply closed_update_run_status. intros run. apply HR.
    + apply closed_update_run_status. intros run. apply HR.
    + intros stage status. apply closed_update_run_progress.
      intros run. apply HR.
    + intros res. apply closed_set_run_result. intros run. apply HR.
    + intros msg. apply closed_set_run_error. intros run. apply HR.
    + intros url. apply closed_set_notion_url. intros run. apply HR.
    + intros run. apply closed_save_to_history. by apply Hfile.
  - apply closed_cancel_run; [|by intros rm; apply Htask].
    intros run _. exact (proj1 (HR run) "canceled" now).
  - done.
Qed.

End Closure.

(** From the manager to the API: the functions of api.py reach the
    manager through its methods alone. *)
Section Lifting.
Context `{Domain}.
Variable J : RunManager → Prop.
Implicit Types (a : Api) (rm : RunManager) (run : RunState) (id : string).

Lemma lifted_on_manager {A} (method : M RunManager A) :
  keeps J method → keeps (lifted J) (on_manager method).
Proof.
  intros Hm a (rm & Hrm & HJ). unfold on_manager. rewrite Hrm.
  specialize (Hm rm HJ). destruct (method rm) as [r rm']. simpl in *.
  by exists rm'.
Qed.

Lemma lifted_manager a a' :
  run_manager a' = run_manager a → lifted J a → lifted J a'.
Proof. intros Heq (rm & Hrm & HJ). exists rm. by rewrite Heq. Qed.

Lemma lifted__send_progress id stage status :
  keeps (lifted J) (_send_progress id stage status).
Proof.
  intros a Ha. rewrite _send_progress_after. simpl.
  eapply lifted_manager; [apply run_manager_after_send | done].
Qed.

Lemma lifted_send ws f : keeps (lifted J) (send ws f).
Proof.
  intros a Ha. destruct (is_gone a ws) eqn:Hg.
  - by rewrite send_gone.
  - rewrite send_live by done. by eapply lifted_manager.
Qed.

Lemma lifted_connections (f : Api → gmap string (list WebSocket)) :
  keeps (lifted J) (modify (λ a, set_websocket_connections (f a) a)).
Proof. apply keeps_modify. intros a Ha. by eapply lifted_manager. Qed.

Lemma lifted_websocket_endpoint ws id incoming :
  keeps (lifted J) (websocket_endpoint ws id incoming).
Proof.
  unfold websocket_endpoint. apply keeps_bind.
  { unfold ws_subscribe. apply keeps_bind.
    { apply keeps_modify. intros a Ha.
      destruct (websocket_connections a !! id); [done|].
      by eapply lifted_manager. }
    intros _. apply keeps_bind; [apply lifted_connections|].
    intros _. apply keeps_ret. }
  intros _. apply keeps_try_finally.
  - apply keeps_try_except.
    + apply keeps_bind.
      { unfold ws_initial_state. apply keeps_bind; [apply keeps_get|].
        intros a.
        repeat first [ apply keeps_ret | apply lifted_send | case_match ]. }
      intros _. apply keeps_for_each. intros _ data. unfold ws_receive.
      case_match; [apply lifted_send | apply keeps_ret].
    + intros e. apply keeps_modify. intros a Ha. by eapply lifted_manager.
  - unfold ws_cleanup. apply keeps_bind; [apply keeps_get|]. intros a.
    destruct (websocket_connections a !! id); [|apply keeps_ret].
    apply keeps_bind.
    + unfold remove_connection. apply keeps_bind; [apply keeps_get|].
      intros a0. apply keeps_bind.
      { unfold subscript. case_match; [apply keeps_ret | apply keeps_raise]. }
      intros conns. case_match; [apply lifted_connections | apply keeps_raise].
    + intros _. apply keeps_modify. intros a0 Ha0.
      repeat case_match; try done; by eapply lifted_manager.
Qed.

Lemma lifted__execute_pipeline id ex notion now later :
  manager_closed J (ExecutePipeline id ex notion now later) →
  keeps (lifted J) (_execute_pipeline id ex notion now later).
Proof.
  intros (Hrun & Hcan & Hprog & Hres & Herr & Hurl & Hsave).
  unfold _execute_pipeline.
  apply keeps_bind; [apply keeps_get|]. intros a.
  destruct (run_manager a) as [rm|]; [|apply keeps_ret].
  destruct (get_run id rm); [|apply keeps_ret].
  apply keeps_try_except.
  - apply keeps_bind; [by apply lifted_on_manager|].
    intros _. apply keeps_bind; [apply lifted__send_progress|]. intros _.
    apply keeps_bind.
    { unfold execute. apply keeps_bind.
      - apply keeps_for_each. intros _ cb. unfold progress_callback.
        apply keeps_bind; [apply lifted__send_progress|]. intros _.
        apply lifted_on_manager, Hprog.
      - intros _. destruct (ending ex); [apply keeps_ret | apply keeps_raise]. }
    intros res. unfold record_result.
    apply keeps_bind; [by apply lifted_on_manager|].
    intros _. apply keeps_bind.
    { unfold extract_notion_url.
      repeat first [ apply keeps_ret | case_match
                   | apply lifted_on_manager, Hurl ]. }
    intros _. apply keeps_bind.
    { unfold save_run. apply keeps_bind; [apply keeps_get|]. intros a0.
      repeat first [ apply keeps_ret | apply keeps_raise | case_match
                   | apply lifted_on_manager, Hsave ]. }
    intros _. apply lifted__send_progress.
  - intros e.
    assert (Hfail : keeps (lifted J)
      (do! on_manager (set_run_error id (exn_str e) later) in
       do! _send_progress id "error" "failed" in
       api_logger ERROR "Pipeline execution failed")).
    { apply keeps_bind; [by apply lifted_on_manager|].
      intros _. apply keeps_bind; [apply lifted__send_progress|]. intros _.
      apply keeps_modify. intros a0 Ha0. by eapply lifted_manager. }
    destruct e; try exact Hfail.
    apply keeps_bind; [by apply lifted_on_manager|].
    intros _. apply lifted__send_progress.
Qed.

Lemma lifted_perform op :
  manager_closed J op → keeps (lifted J) (perform op).
Proof.
  intros Hop. destruct op; cbn [manager_closed perform] in *.
  - by apply keeps_discard, lifted_on_manager.
  - by apply lifted_on_manager.
  - by apply lifted_on_manager.
  - by apply lifted_on_manager.
  - by apply lifted_on_manager.
  - by apply lifted_on_manager.
  - by apply keeps_discard, lifted_on_manager.
  - by apply lifted_on_manager.
  - by apply lifted_on_manager.
  - by apply keeps_discard, lifted_on_manager.
  - apply lifted__send_progress.
  - unfold progress_callback.
    apply keeps_bind; [apply lifted__send_progress|]. intros _.
    by apply lifted_on_manager.
  - by apply lifted__execute_pipeline.
  - apply keeps_discard. unfold cancel_run_route.
    apply keeps_bind; [apply keeps_get|]. intros a.
    destruct (run_manager a); [|apply keeps_raise].
    apply keeps_bind; [by apply lifted_on_manager|].
    intros []; [apply keeps_ret | apply keeps_raise].
  - apply lifted_websocket_endpoint.
Qed.

Lemma lifted_perform_all ops :
  (∀ op, op ∈ ops → manager_closed J op) →
  ∀ a, lifted J a → lifted J (perform_all ops a).
Proof.
  induction ops as [|op ops IH]; intros Hops a Ha; [done|].
  cbn [perform_all fold_left]. apply IH.
  - intros op' Hop'. apply Hops. by right.
  - apply lifted_perform; [|done]. apply Hops. by left.
Qed.

End Lifting.

Section DictMore.
Context {V : Type}.
Implicit Types (d : list (string * V)) (k : string) (v : V).

Lemma dict_set_elem k v d k' v' :
  (k', v') ∈ dict_set k v d → (k', v') = (k, v) ∨ (k', v') ∈ d.
Proof.
  induction d as [|[k0 v0] d IH]; simpl.
  - intros ->%list_elem_of_singleton. by left.
  - destruct (decide (k0 = k)) as [->|Hne].
    + intros [->|Hin]%elem_of_cons; [by left | right; by right].
    + intros [->|Hin]%elem_of_cons; [right; by left|].
      destruct (IH Hin) as [?|?]; [by left | right; by right].
Qed.

Lemma dict_set_NoDup k v d :
  NoDup (dict_keys d) → NoDup (dict_keys (dict_set k v d)).
Proof.
  intros Hnd. destruct (dict_get k d) as [v0|] eqn:Hget.
  - by rewrite (dict_keys_set_present _ _ _ _ Hget).
  - rewrite dict_set_fresh by done. unfold dict_keys. rewrite fmap_app.
    apply NoDup_app. split; [done|]. split; [|apply NoDup_singleton].
    intros x Hx ->%list_elem_of_singleton. by apply dict_get_None in Hget.
Qed.

End DictMore.

Section Invariants.
Context `{Domain}.
Implicit Types (a : Api) (rm self : RunManager) (run : RunState) (id : string).

Lemma registry_all_put P id run' rm :
  registry_all P rm → P id run' → registry_all P (put id run' rm).
Proof.
  intros [Hnd Hall] HP. split; cbn [put _active_runs set_active_runs].
  - by apply dict_set_NoDup.
  - intros k v [[= -> ->]|Hin]%dict_set_elem; [done | by apply Hall].
Qed.

Lemma registry_all_registry P rm rm' :
  _active_runs rm' = _active_runs rm → registry_all P rm → registry_all P rm'.
Proof. intros Heq. unfold registry_all. by rewrite Heq. Qed.

Lemma registry_all_get P id run rm :
  registry_all P rm → get_run id rm = Some run → P id run.
Proof. intros [_ Hall] Hrun. by apply Hall, dict_get_elem. Qed.

Lemma registry_all_task_cancelled P id rm :
  registry_all P rm → registry_all P (task_cancelled id rm).
Proof.
  apply registry_all_registry. unfold task_cancelled.
  by destruct (_run_tasks rm !! id).
Qed.

Lemma sound_rewrites run :
  (∀ status now, sound_rewrite run (status_written status now run))
  ∧ (∀ stage status,
       sound_rewrite run
         (with_progress (<[stage := status]> (progress run)) run))
  ∧ (∀ res now, sound_rewrite run (result_written res now run))
  ∧ (∀ msg now, sound_rewrite run (error_written msg now run))
  ∧ (∀ url, sound_rewrite run (with_notion_url (Some url) run)).
Proof.
  repeat apply conj.
  - intros status now. unfold status_written, sound_rewrite, record_ok.
    destruct (is_terminal_status status) eqn:Hs; cbn; [by eauto|].
    split; [done|]. intros _ Ht. congruence.
  - intros stage status. by split.
  - intros res now. split; [done|]. intros _ _. by eexists.
  - intros msg now. split; [done|]. intros _ _. by eexists.
  - intros url. by split.
Qed.

Lemma manager_ok_closed op : manager_closed manager_ok op.
Proof.
  apply (closed_operation manager_ok sound_rewrite).
  - intros rm l. by apply registry_all_registry.
  - intros rm id run run' Hrm Hrun [Hid Hok].
    destruct (registry_all_get _ _ _ _ Hrm Hrun) as [Hid0 Hok0].
    apply registry_all_put; [done|]. split; [congruence | by apply Hok].
  - apply sound_rewrites.
  - intros config uuid4 now _ rm Hrm _. apply registry_all_put; [done|].
    split; [done|]. intros Ht. cbn in Ht. discriminate.
  - intros id task _ rm. by apply registry_all_registry.
  - intros _ rm f. by apply registry_all_registry.
  - intros rm id. apply registry_all_task_cancelled.
Qed.

Lemma manager_ok_init file writable mc mh :
  manager_ok (__init__ file writable mc mh).
Proof. split; [apply NoDup_nil_2 | by intros k v ?%elem_of_nil]. Qed.

(** X4. A manager as [__init__] makes it holds no identifier twice,
    every record under the identifier of the record, and no record in a
    terminal state without a completion time; every sequence of
    operations of the server keeps the registry so. *)
Theorem records_stay_consistent ops a :
  (∀ file writable mc mh, manager_ok (__init__ file writable mc mh))
  ∧ (lifted manager_ok a → lifted manager_ok (perform_all ops a))
  ∧ (∀ rm, manager_ok rm →
       NoDup (dict_keys (_active_runs rm))
       ∧ ∀ id run, get_run id rm = Some run →
           run_id run = id
           ∧ (is_terminal_status (status run) = true →
              is_Some (completed_at run))).
Proof.
  split; [apply manager_ok_init|]. split.
  - apply lifted_perform_all. intros op _. apply manager_ok_closed.
  - intros rm Hrm. split; [apply Hrm|]. intros id run Hrun.
    apply (registry_all_get _ _ _ _ Hrm Hrun).
Qed.

Lemma same_origin_rewrites run :
  (∀ status now, same_origin run (status_written status now run))
  ∧ (∀ stage status,
       same_origin run
         (with_progress (<[stage := status]> (progress run)) run))
  ∧ (∀ res now, same_origin run (result_written res now run))
  ∧ (∀ msg now, same_origin run (error_written msg now run))
  ∧ (∀ url, same_origin run (with_notion_url (Some url) run)).
Proof.
  repeat apply conj; try done.
  intros status now. unfold status_written.
  by destruct (is_terminal_status status).
Qed.

Lemma holds_origin_registry id run rm rm' :
  _active_runs rm' = _active_runs rm →
  holds_origin id run rm → holds_origin id run rm'.
Proof.
  intros Heq (run' & Hrun' & Hsame). exists run'. split; [|done].
  unfold get_run in *. by rewrite Heq.
Qed.

Lemma holds_origin_closed id run op :
  draws_id id op = false → manager_closed (holds_origin id run) op.
Proof.
  intros Hop. apply (closed_operation _ same_origin).
  - intros rm l. by apply holds_origin_registry.
  - intros rm id' run1 run2 (run' & Hrun' & Hsame) Hrun1 H12.
    destruct (decide (id' = id)) as [->|Hne].
    + exists run2. split; [apply get_run_put_eq|].
      rewrite Hrun' in Hrun1. injection Hrun1 as ->.
      destruct Hsame as (? & ? & ?), H12 as (? & ? & ?).
      repeat split; congruence.
    + exists run'. split; [by rewrite get_run_put_ne | done].
  - apply same_origin_rewrites.
  - intros config uuid4 now -> rm (run' & Hrun' & Hsame) _.
    cbn in Hop. apply bool_decide_eq_false in Hop.
    exists run'. split; [by rewrite get_run_put_ne | done].
  - intros id' task _ rm. by apply holds_origin_registry.
  - intros _ rm f. by apply holds_origin_registry.
  - intros rm id'. apply holds_origin_registry. unfold task_cancelled.
    by destruct (_run_tasks rm !! id').
Qed.

(** X5. A run of the registry is there, with the identifier, the
    configuration and the creation time it has, after every sequence of
    operations that does not draw its identifier for a new run: nothing
    takes a run out of the registry, and nothing rewrites these three
    fields. *)
Theorem admitted_run_keeps_origin id run ops a rm :
  run_manager a = Some rm → get_run id rm = Some run →
  (∀ op, op ∈ ops → draws_id id op = false) →
  ∃ rm' run',
    run_manager (perform_all ops a) = Some rm'
    ∧ get_run id rm' = Some run'
    ∧ run_id run' = run_id run
    ∧ config run' = config run
    ∧ started_at run' = started_at run.
Proof.
  intros Hrm Hrun Hops.
  destruct (lifted_perform_all (holds_origin id run) ops) with (a := a)
    as (rm' & Hrm' & run' & Hrun' & Hid & Hc & Hs).
  - intros op Hop. by apply holds_origin_closed, Hops.
  - exists rm. split; [done|]. by exists run.
  - by exists rm', run'.
Qed.

Lemma same_setting_closed f self op :
  (saves op = true → f = None) →
  manager_closed (same_setting f self) op.
Proof.
  intros Hf. apply (closed_operation _ (λ _ _, True)).
  - intros rm l (? & ? & ? & Hl & ?). repeat split; try done.
    cbn. etrans; [done|]. by apply prefix_app_r.
  - by intros rm id run run' ? _ _.
  - done.
  - by intros config uuid4 now _ rm ? _.
  - by intros id task _ rm ?.
  - intros Hs rm f0 (? & ? & ? & ? & _). rewrite (Hf Hs).
    by repeat split.
  - intros rm id ?. unfold task_cancelled.
    by destruct (_run_tasks rm !! id).
Qed.

(** X6. No sequence of operations changes the ceiling of the manager,
    the maximum length of its history or its disk, or takes a record
    from its log; and the history file is as it was unless an operation
    of the sequence saves to it. *)
Theorem settings_never_change ops a rm :
  run_manager a = Some rm →
  ∃ rm',
    run_manager (perform_all ops a) = Some rm'
    ∧ max_concurrent rm' = max_concurrent rm
    ∧ max_history rm' = max_history rm
    ∧ fs_writable rm' = fs_writable rm
    ∧ log rm `prefix_of` log rm'
    ∧ ((∀ op, op ∈ ops → saves op = false) →
       history_file rm' = history_file rm).
Proof.
  intros Hrm.
  destruct (lifted_perform_all (same_setting None rm) ops) with (a := a)
    as (rm' & Hrm' & Hmc & Hmh & Hw & Hl & _).
  { intros op _. by apply same_setting_closed. }
  { exists rm. split; [done|]. by repeat split. }
  exists rm'. repeat (split; [done|]). intros Hops.
  destruct (lifted_perform_all (same_setting (Some (history_file rm)) rm) ops)
    with (a := a) as (rm2 & Hrm2 & _ & _ & _ & _ & Hfile).
  { intros op Hop. apply same_setting_closed. rewrite (Hops _ Hop). done. }
  { exists rm. split; [done|]. repeat split; try done. by intros f0 [= <-]. }
  rewrite Hrm' in Hrm2. injection Hrm2 as <-. by apply Hfile.
Qed.

Lemma no_task_closed c op :
  registers op = false → manager_closed (no_task c) op.
Proof.
  intros Hop. apply (closed_operation _ (λ _ _, True)).
  - by intros rm l ?.
  - by intros rm id run run' ? _ _.
  - done.
  - by intros config uuid4 now _ rm ? _.
  - by intros id task ->.
  - by intros _ rm f ?.
  - intros rm id [Ht Hc]. unfold task_cancelled. rewrite Ht, lookup_empty.
    by split.
Qed.

(** X7. With no task registered, and none registered on the way, no
    sequence of operations cancels a task: the cancellation of a run
    cancels only what [register_task] has stored. *)
Theorem no_task_no_cancellation ops a rm :
  run_manager a = Some rm → _run_tasks rm = ∅ →
  (∀ op, op ∈ ops → registers op = false) →
  ∃ rm',
    run_manager (perform_all ops a) = Some rm'
    ∧ _run_tasks rm' = ∅
    ∧ cancelled rm' = cancelled rm.
Proof.
  intros Hrm Ht Hops.
  destruct (lifted_perform_all (no_task (cancelled rm)) ops) with (a := a)
    as (rm' & Hrm' & Ht' & Hc').
  - intros op Hop. by apply no_task_closed, Hops.
  - exists rm. by repeat split.
  - by exists rm'.
Qed.

(** X8. With a task registered for a run of the registry: cancelling
    the run while it is pending or running returns [true], cancels this
    task and forgets it, and every later cancellation returns [false]
    and changes nothing; for a run in another state the cancellation
    returns [false], changes nothing and leaves the task registered; and
    a task registered earlier for the run is replaced. *)
Theorem registered_task_cancelled_once id run task now rm :
  get_run id rm = Some run →
  let rm1 := exec (register_task id task) rm in
  let rm2 := exec (cancel_run id now) rm1 in
  (is_active run = true →
   returned (cancel_run id now) rm1 = Ret true
   ∧ cancelled rm2 = cancelled rm ++ [task]
   ∧ _run_tasks rm2 = delete id (_run_tasks rm)
   ∧ (∀ later, cancel_run id later rm2 = (Ret false, rm2)))
  ∧ (is_active run = false →
     cancel_run id now rm1 = (Ret false, rm1)
     ∧ _run_tasks rm1 !! id = Some task)
  ∧ (∀ earlier,
       exec (register_task id task) (exec (register_task id earlier) rm)
       = rm1).
Proof.
  intros Hrun rm1 rm2.
  assert (Hrun1 : get_run id rm1 = Some run) by done.
  split; [|split].
  - intros Hact. subst rm2. unfold returned, exec.
    rewrite (cancel_run_active _ _ _ _ Hrun1 Hact). cbn [fst snd].
    split; [done|].
    assert (Htask : _run_tasks (put id (canceled_at now run) rm1) !! id
                    = Some task).
    { subst rm1. cbn. apply lookup_insert_eq. }
    unfold task_cancelled. rewrite Htask.
    split; [done|]. split.
    { subst rm1. cbn. apply delete_insert_eq. }
    intros later. apply (cancel_run_inactive _ _ _ (canceled_at now run)).
    + cbn. apply dict_get_set_eq.
    + done.
  - intros Hact. split; [by apply (cancel_run_inactive _ _ _ run)|].
    subst rm1. cbn. apply lookup_insert_eq.
  - intros earlier. subst rm1. unfold exec, register_task, modify.
    cbn. unfold set_run_tasks. cbn. f_equal. apply insert_insert_eq.
Qed.

Lemma is_active_status_written_eq status now run :
  is_active (status_written status now run) = active_status status.
Proof. unfold status_written. by destruct (is_terminal_status status). Qed.

Lemma within_ceiling_put id run run' rm :
  within_ceiling rm → get_run id rm = Some run →
  no_activation run run' → within_ceiling (put id run' rm).
Proof.
  unfold within_ceiling. intros Hc Hrun Hact.
  change (max_concurrent (put id run' rm)) with (max_concurrent rm).
  rewrite !active_count_eq in *.
  pose proof (count_active_set id run run' (_active_runs rm) Hrun) as Hcount.
  change (_active_runs (put id run' rm))
    with (dict_set id run' (_active_runs rm)).
  unfold no_activation in Hact.
  destruct (is_active run'), (is_active run); try lia; by specialize (Hact eq_refl).
Qed.

Lemma within_ceiling_admitted config uuid4 now rm :
  (active_count rm < max_concurrent rm)%Z →
  within_ceiling (put uuid4 (pending_run config uuid4 now) rm).
Proof.
  intros Hfree. unfold within_ceiling.
  change (max_concurrent (put uuid4 (pending_run config uuid4 now) rm))
    with (max_concurrent rm).
  destruct (get_run uuid4 rm) as [run|] eqn:Hrun.
  - rewrite !active_count_eq in *.
    pose proof (count_active_set uuid4 run (pending_run config uuid4 now)
                  (_active_runs rm) Hrun) as Hcount.
    change (_active_runs (put uuid4 (pending_run config uuid4 now) rm))
      with (dict_set uuid4 (pending_run config uuid4 now) (_active_runs rm)).
    change (is_active (pending_run config uuid4 now)) with true in Hcount.
    destruct (is_active run); lia.
  - rewrite active_count_put_fresh by done. lia.
Qed.

Lemma within_ceiling_same rm rm' :
  _active_runs rm' = _active_runs rm → max_concurrent rm' = max_concurrent rm →
  within_ceiling rm → within_ceiling rm'.
Proof.
  unfold within_ceiling, active_count. by intros -> ->.
Qed.

(** X9. A manager that has no more active runs than its ceiling allows
    stays so under each of its methods; under [update_run_status]
    provided the status written is not an active one or the run written
    to is active. *)
Theorem ceiling_kept rm :
  within_ceiling rm →
  (∀ config uuid4 now, within_ceiling (exec (create_run config uuid4 now) rm))
  ∧ (∀ id status now,
       active_status status = false
       ∨ (∃ run, get_run id rm = Some run ∧ is_active run = true) →
       within_ceiling (exec (update_run_status id status now) rm))
  ∧ (∀ id stage status,
       within_ceiling (exec (update_run_progress id stage status) rm))
  ∧ (∀ id res now, within_ceiling (exec (set_run_result id res now) rm))
  ∧ (∀ id msg now, within_ceiling (exec (set_run_error id msg now) rm))
  ∧ (∀ id url, within_ceiling (exec (set_notion_url id url) rm))
  ∧ (∀ id now, within_ceiling (exec (cancel_run id now) rm))
  ∧ (∀ id task, within_ceiling (exec (register_task id task) rm))
  ∧ (∀ run, within_ceiling (exec (save_to_history run) rm))
  ∧ (∀ limit, within_ceiling (exec (list_recent_runs limit) rm)).
Proof.
  intros Hc.
  assert (Hlog : ∀ rm0 l, within_ceiling rm0 →
                          within_ceiling (set_log (log rm0 ++ l) rm0)).
  { intros rm0 l. by apply within_ceiling_same. }
  assert (Hput : ∀ rm0 id run run', within_ceiling rm0 →
            get_run id rm0 = Some run → no_activation run run' →
            within_ceiling (put id run' rm0)).
  { intros rm0 id run run'. apply within_ceiling_put. }
  repeat apply conj.
  - intros config uuid4 now.
    apply (closed_create_run within_ceiling Hlog); [|done].
    intros rm0 _. apply within_ceiling_admitted.
  - intros id status now [Hs|(run & Hrun & Hact)].
    + apply (closed_update_run_status _ _ Hlog Hput); [|done].
      intros run. unfold no_activation.
      by rewrite is_active_status_written_eq, Hs.
    + unfold exec. rewrite (update_run_status_present _ _ _ _ _ Hrun).
      cbn [snd]. apply (Hlog (put id (status_written status now run) rm)).
      apply (within_ceiling_put _ run); [done | done | by intros _].
  - intros id stage status.
    apply (closed_update_run_progress _ _ Hlog Hput); [|done].
    by intros run Ha.
  - intros id res now. apply (closed_set_run_result _ _ Hlog Hput); [|done].
    intros run. unfold no_activation. by rewrite is_active_result_written.
  - intros id msg now. apply (closed_set_run_error _ _ Hlog Hput); [|done].
    by intros run Ha.
  - intros id url. apply (closed_set_notion_url _ _ Hlog Hput); [|done].
    by intros run Ha.
  - intros id now. apply (closed_cancel_run _ _ Hlog Hput); [| |done].
    + by intros run _ Ha.
    + intros rm0. apply within_ceiling_same; unfold task_cancelled;
        by destruct (_run_tasks rm0 !! id).
  - intros id task. by apply (within_ceiling_same rm).
  - intros run. apply (closed_save_to_history _ Hlog); [|done].
    intros rm0 f. by apply within_ceiling_same.
  - intros limit. by apply (closed_list_recent_runs _ Hlog).
Qed.

End Invariants.

End RegistryProps.

Module OrchestratorProps.
Import RunManagerModel ApiModel Terms MoreTerms Props.

Section Pipeline.
Context `{Domain}.
Implicit Types (a : Api) (rm : RunManager) (run : RunState) (id : string).






End Pipeline.

Section Delivery.
Context `{Domain}.
Implicit Types (a : Api) (ws : WebSocket) (run : RunState) (id : string)
  (conns : list WebSocket).

Lemma elem_of_live a conns ws : ws ∈ live a conns ↔ ws ∈ conns ∧ ws ∉ gone a.
Proof.
  unfold live. rewrite elem_of_filter, negb_true_iff. unfold is_gone.
  by rewrite bool_decide_eq_false.
Qed.

(** X11. [_send_progress] returns in every state and touches neither
    the manager, nor the log, nor the connections of other runs.  Without
    a connection for the run, or without the run, it changes nothing;
    else it sends the frame with the progress of the run to the
    connections whose peer is there, in their order, and keeps these
    connections only. *)
Theorem send_progress_best_effort id stage status a :
  let a' := exec (_send_progress id stage status) a in
  returned (_send_progress id stage status) a = Ret tt
  ∧ run_manager a' = run_manager a
  ∧ gone a' = gone a
  ∧ api_log a' = api_log a
  ∧ (∀ id', id' ≠ id →
       websocket_connections a' !! id' = websocket_connections a !! id')
  ∧ (websocket_connections a !! id = None ∨ run_of id a = None → a' = a)
  ∧ (∀ conns run,
       websocket_connections a !! id = Some conns → run_of id a = Some run →
       websocket_connections a' !! id = Some (live a conns)
       ∧ sent a'
         = sent a
           ++ frames_to (live a conns) (JsonFrame stage status (progress run))
       ∧ (∀ ws, ws ∈ live a conns ↔ ws ∈ conns ∧ ws ∉ gone a)
       ∧ live a conns `sublist_of` conns).
Proof.
  intros a'. subst a'. unfold returned, exec.
  rewrite _send_progress_after. cbn [fst snd]. unfold after_send.
  split; [done|].
  destruct (websocket_connections a !! id) as [conns|] eqn:Hconns;
    [destruct (run_of id a) as [run|] eqn:Hrun|];
    repeat apply conj; try done.
  - intros id' Hne. cbn. by rewrite lookup_insert_ne.
  - by intros [?|?].
  - intros conns' run' [= <-] [= <-]. cbn.
    split; [apply lookup_insert_eq|]. split; [done|].
    split; [apply elem_of_live | apply filter_sublist].
Qed.






End Delivery.

End OrchestratorProps.

Module PresetProps.
Import Raising PresetManagerModel PresetTerms Props.
Implicit Types (self : PresetManager) (f : file) (d : list (string * json))
  (name : string) (config : json).

Lemma dict_get_del_eq {V} k (d : list (string * V)) :
  dict_get k (dict_del k d) = None.
Proof.
  induction d as [|[k0 v0] d IH]; [done|]. unfold dict_del in *. simpl.
  destruct (decide (k0 = k)) as [->|Hne].
  - by rewrite bool_decide_eq_true_2.
  - rewrite bool_decide_eq_false_2 by done. simpl.
    by rewrite decide_False.
Qed.

Lemma dict_get_del_ne {V} k k' (d : list (string * V)) :
  k ≠ k' → dict_get k' (dict_del k d) = dict_get k' d.
Proof.
  intros Hne. induction d as [|[k0 v0] d IH]; [done|].
  unfold dict_del in *. simpl.
  destruct (decide (k0 = k)) as [->|Hne0].
  - rewrite bool_decide_eq_true_2 by done. simpl.
    by rewrite decide_False.
  - rewrite bool_decide_eq_false_2 by done. simpl.
    destruct (decide (k0 = k')); [done | apply IH].
Qed.

Lemma dict_has_true {V} k (d : list (string * V)) :
  dict_has k d = true ↔ is_Some (dict_get k d).
Proof. unfold dict_has. apply bool_decide_eq_true. Qed.

Lemma dict_has_false {V} k (d : list (string * V)) :
  dict_has k d = false ↔ dict_get k d = None.
Proof.
  unfold dict_has. rewrite bool_decide_eq_false.
  by rewrite eq_None_not_Some.
Qed.

Lemma loaded_from_quiet self :
  load_warning (presets_file self) = [] → loaded_from self = self.
Proof.
  unfold loaded_from. intros ->. rewrite app_nil_r. by destruct self.
Qed.

Lemma presets_of_loaded_from self : presets_of (loaded_from self) = presets_of self.
Proof. done. Qed.

Lemma _load_presets_spec self :
  _load_presets self = (Done (presets_of self), loaded_from self).
Proof.
  unfold _load_presets, xbind at 1, xget, presets_of.
  destruct (presets_file self) as [| |[data|]] eqn:Hf.
  - unfold xret. f_equal. symmetry. apply loaded_from_quiet. by rewrite Hf.
  - unfold xtry, xbind, xraise, logger, xmodify, xret, loaded_from. simpl.
    by rewrite Hf.
  - unfold xtry, xbind, xret. simpl. f_equal.
    symmetry. apply loaded_from_quiet. by rewrite Hf.
  - unfold xtry, xbind, xraise, logger, xmodify, xret, loaded_from. simpl.
    by rewrite Hf.
Qed.

Lemma get_preset_spec name self :
  get_preset name self
  = (Done (mkPreset name <$> dict_get name (presets_of self)), loaded_from self).
Proof.
  unfold get_preset, xbind. rewrite _load_presets_spec.
  by destruct (dict_get name (presets_of self)).
Qed.

Lemma list_presets_spec self :
  list_presets self
  = (Done ((λ kv, mkPreset kv.1 kv.2) <$> presets_of self), loaded_from self).
Proof. unfold list_presets, xbind. by rewrite _load_presets_spec. Qed.

(** The manager once a write of [d] has gone through. *)
Lemma _save_presets_spec d self :
  _save_presets d self
  = if writable self
    then (Done tt, set_presets_file (Holding (Some (JObject d))) self)
    else (Failed (OSErrorOf "write_text"), self).
Proof. unfold _save_presets, xbind, xget. by destruct (writable self). Qed.


Lemma create_preset_spec name config self :
  create_preset name config self
  = if dict_has name (presets_of self) then
      (Failed (ValueErrorOf ("Preset '" +:+ name +:+ "' already exists")),
       loaded_from self)
    else if writable self then
      (Done (mkPreset name config),
       set_log (log (loaded_from self)
                ++ [(RunManagerModel.INFO, "Created preset")])
         (set_presets_file
            (Holding (Some (JObject (dict_set name config (presets_of self)))))
            (loaded_from self)))
    else (Failed (OSErrorOf "write_text"), loaded_from self).
Proof.
  unfold create_preset, xbind at 1. rewrite _load_presets_spec.
  destruct (dict_has name (presets_of self)); [done|].
  unfold xbind at 1. rewrite _save_presets_spec.
  change (writable (loaded_from self)) with (writable self).
  by destruct (writable self).
Qed.

Lemma update_preset_spec name config self :
  update_preset name config self
  = if negb (dict_has name (presets_of self)) then
      (Failed (ValueErrorOf ("Preset '" +:+ name +:+ "' does not exist")),
       loaded_from self)
    else if writable self then
      (Done (mkPreset name config),
       set_log (log (loaded_from self)
                ++ [(RunManagerModel.INFO, "Updated preset")])
         (set_presets_file
            (Holding (Some (JObject (dict_set name config (presets_of self)))))
            (loaded_from self)))
    else (Failed (OSErrorOf "write_text"), loaded_from self).
Proof.
  unfold update_preset, xbind at 1. rewrite _load_presets_spec.
  destruct (dict_has name (presets_of self)); [|done]. cbn [negb].
  unfold xbind at 1. rewrite _save_presets_spec.
  change (writable (loaded_from self)) with (writable self).
  by destruct (writable self).
Qed.

Lemma delete_preset_spec name self :
  delete_preset name self
  = if negb (dict_has name (presets_of self)) then (Done false, loaded_from self)
    else if bool_decide (name = "Recommended") then
      (Failed (ValueErrorOf "Cannot delete the default 'Recommended' preset"),
       loaded_from self)
    else if writable self then
      (Done true,
       set_log (log (loaded_from self)
                ++ [(RunManagerModel.INFO, "Deleted preset")])
         (set_presets_file
            (Holding (Some (JObject (dict_del name (presets_of self)))))
            (loaded_from self)))
    else (Failed (OSErrorOf "write_text"), loaded_from self).
Proof.
  unfold delete_preset, xbind at 1. rewrite _load_presets_spec.
  destruct (dict_has name (presets_of self)); [|done]. cbn [negb].
  destruct (bool_decide (name = "Recommended")); [done|].
  unfold xbind at 1. rewrite _save_presets_spec.
  change (writable (loaded_from self)) with (writable self).
  by destruct (writable self).
Qed.

(** X14. [create_preset] refuses a name the file holds with a
    ValueError, and on a disk that refuses the write it fails with the
    error of the write; else it returns the preset and appends it to the
    file, after which [get_preset] finds it, other names are read as
    before, and creating the name again is refused. *)
Theorem create_preset_once name config self :
  let d := presets_of self in
  (is_Some (dict_get name d) →
   create_preset name config self
   = (Failed (ValueErrorOf ("Preset '" +:+ name +:+ "' already exists")),
      loaded_from self))
  ∧ (dict_get name d = None → writable self = false →
     create_preset name config self
     = (Failed (OSErrorOf "write_text"), loaded_from self))
  ∧ (dict_get name d = None → writable self = true →
     let self' := xexec (create_preset name config) self in
     xreturned (create_preset name config) self = Done (mkPreset name config)
     ∧ presets_file self' = Holding (Some (JObject (d ++ [(name, config)])))
     ∧ xreturned (get_preset name) self' = Done (Some (mkPreset name config))
     ∧ (∀ other, other ≠ name →
          xreturned (get_preset other) self'
          = xreturned (get_preset other) self)
     ∧ (∀ config',
          xreturned (create_preset name config') self'
          = Failed (ValueErrorOf ("Preset '" +:+ name +:+ "' already exists")))).
Proof.
  intros d. subst d. repeat apply conj.
  - intros Hin%dict_has_true. by rewrite create_preset_spec, Hin.
  - intros Hout%dict_has_false Hw. by rewrite create_preset_spec, Hout, Hw.
  - intros Hnone Hw self'. subst self'. unfold xreturned, xexec.
    pose proof Hnone as Hout%dict_has_false.
    rewrite (create_preset_spec name config self), Hout, Hw. cbn [fst snd].
    split; [done|]. split.
    { cbn. by rewrite dict_set_fresh. }
    split.
    { rewrite get_preset_spec. cbn. unfold presets_of. cbn.
      by rewrite Props.dict_get_set_eq. }
    split.
    { intros other Hne. rewrite !get_preset_spec. cbn. unfold presets_of at 1.
      cbn. by rewrite Props.dict_get_set_ne. }
    intros config'. rewrite create_preset_spec.
    assert (Hin : dict_has name
              (presets_of
                 (set_log (log (loaded_from self)
                           ++ [(RunManagerModel.INFO, "Created preset")])
                    (set_presets_file
                       (Holding
                          (Some (JObject (dict_set name config (presets_of self)))))
                       (loaded_from self)))) = true).
    { apply dict_has_true. unfold presets_of. cbn.
      rewrite Props.dict_get_set_eq. by eexists. }
    by rewrite Hin.
Qed.

(** X15. [update_preset] refuses a name the file does not hold with a
    ValueError; else, on a disk that takes the write, it returns the
    preset and puts its configuration in the place of the old one, so
    that the names keep their order, [get_preset] finds the new
    configuration, and other names are read as before. *)
Theorem update_preset_in_place name config self :
  let d := presets_of self in
  (dict_get name d = None →
   update_preset name config self
   = (Failed (ValueErrorOf ("Preset '" +:+ name +:+ "' does not exist")),
      loaded_from self))
  ∧ (is_Some (dict_get name d) → writable self = true →
     let self' := xexec (update_preset name config) self in
     xreturned (update_preset name config) self = Done (mkPreset name config)
     ∧ presets_file self' = Holding (Some (JObject (dict_set name config d)))
     ∧ dict_keys (presets_of self') = dict_keys d
     ∧ xreturned (get_preset name) self' = Done (Some (mkPreset name config))
     ∧ (∀ other, other ≠ name →
          xreturned (get_preset other) self'
          = xreturned (get_preset other) self)).
Proof.
  intros d. subst d. split.
  - intros Hout%dict_has_false. by rewrite update_preset_spec, Hout.
  - intros Hsome Hw self'. subst self'. unfold xreturned, xexec.
    pose proof Hsome as Hin%dict_has_true.
    rewrite (update_preset_spec name config self), Hin, Hw. cbn [fst snd negb].
    split; [done|]. split; [done|]. split.
    { destruct Hsome as [old Hold]. unfold presets_of at 1.
      cbn [presets_file set_log set_presets_file stored].
      by rewrite (Props.dict_keys_set_present _ _ _ _ Hold). }
    split.
    { rewrite get_preset_spec. cbn. unfold presets_of. cbn.
      by rewrite Props.dict_get_set_eq. }
    intros other Hne. rewrite !get_preset_spec. cbn. unfold presets_of at 1.
    cbn. by rewrite Props.dict_get_set_ne.
Qed.

(** X16. [delete_preset] returns [false] for a name the file does not
    hold, the name of the default preset included; raises a ValueError
    for the default preset when the file holds it; and else, on a disk
    that takes the write, returns [true] and removes the preset, after
    which [get_preset] finds nothing under the name, other names are
    read as before, and deleting again returns [false]. *)
Theorem delete_preset_guarded name self :
  let d := presets_of self in
  (dict_get name d = None → delete_preset name self = (Done false, loaded_from self))
  ∧ (is_Some (dict_get "Recommended" d) →
     delete_preset "Recommended" self
     = (Failed (ValueErrorOf "Cannot delete the default 'Recommended' preset"),
        loaded_from self))
  ∧ (is_Some (dict_get name d) → name ≠ "Recommended" → writable self = true →
     let self' := xexec (delete_preset name) self in
     xreturned (delete_preset name) self = Done true
     ∧ presets_file self' = Holding (Some (JObject (dict_del name d)))
     ∧ xreturned (get_preset name) self' = Done None
     ∧ (∀ other, other ≠ name →
          xreturned (get_preset other) self'
          = xreturned (get_preset other) self)
     ∧ xreturned (delete_preset name) self' = Done false).
Proof.
  intros d. subst d. repeat apply conj.
  - intros Hout%dict_has_false. by rewrite delete_preset_spec, Hout.
  - intros Hin%dict_has_true. by rewrite delete_preset_spec, Hin.
  - intros Hsome Hne Hw self'. subst self'. unfold xreturned, xexec.
    pose proof Hsome as Hin%dict_has_true.
    rewrite (delete_preset_spec name self), Hin, Hw. cbn [fst snd negb].
    rewrite bool_decide_eq_false_2 by done. cbn [fst snd].
    split; [done|]. split; [done|]. split.
    { rewrite get_preset_spec. cbn. unfold presets_of. cbn.
      by rewrite dict_get_del_eq. }
    split.
    { intros other Hother. rewrite !get_preset_spec. cbn.
      unfold presets_of at 1. cbn. by rewrite dict_get_del_ne. }
    rewrite delete_preset_spec.
    assert (Hout : dict_has name
              (presets_of
                 (set_log (log (loaded_from self)
                           ++ [(RunManagerModel.INFO, "Deleted preset")])
                    (set_presets_file
                       (Holding (Some (JObject (dict_del name (presets_of self)))))
                       (loaded_from self)))) = false).
    { apply dict_has_false. unfold presets_of. cbn. apply dict_get_del_eq. }
    by rewrite Hout.
Qed.

Lemma existsb_name k d :
  existsb (λ p, bool_decide (PresetManagerModel.name p = k))
    ((λ kv, mkPreset kv.1 kv.2) <$> d)
  = dict_has k d.
Proof.
  unfold dict_has. induction d as [|[k0 v0] d IH]; [done|].
  rewrite fmap_cons. cbn [existsb dict_get PresetManagerModel.name fst snd].
  destruct (decide (k0 = k)) as [->|Hne].
  - rewrite bool_decide_eq_true_2 by done. cbn [orb].
    by rewrite bool_decide_eq_true_2 by eauto.
  - rewrite bool_decide_eq_false_2 by done. apply IH.
Qed.

Lemma dict_get_set_is_Some {V} k k' (v : V) (d : list (string * V)) :
  is_Some (dict_get k d) → is_Some (dict_get k (dict_set k' v d)).
Proof.
  intros Hk. destruct (decide (k' = k)) as [->|Hne].
  - rewrite Props.dict_get_set_eq. by eexists.
  - by rewrite Props.dict_get_set_ne.
Qed.

Lemma has_recommended_quiet self :
  has_recommended self → loaded_from self = self.
Proof.
  unfold has_recommended, presets_of. intros [v Hv].
  apply loaded_from_quiet.
  by destruct (presets_file self) as [| |[[]|]].
Qed.

Lemma __init___spec self :
  __init__ self
  = if dict_has "Recommended" (presets_of self) then (Done tt, loaded_from self)
    else if writable self then
      (Done tt,
       set_log
         (log (loaded_from (loaded_from self))
          ++ [(RunManagerModel.INFO, "Created preset")])
         (set_presets_file
            (Holding
               (Some (JObject (presets_of self ++ [("Recommended", recommended)]))))
            (loaded_from (loaded_from self))))
    else (Failed (OSErrorOf "write_text"), loaded_from (loaded_from self)).
Proof.
  unfold __init__, _ensure_default_preset, xbind at 1.
  rewrite list_presets_spec, existsb_name.
  destruct (dict_has "Recommended" (presets_of self)) eqn:Hrec; [done|].
  cbn [negb]. unfold xbind at 1. rewrite create_preset_spec.
  rewrite presets_of_loaded_from, Hrec.
  change (writable (loaded_from self)) with (writable self).
  destruct (writable self); [|done]. unfold xret.
  apply dict_has_false in Hrec. by rewrite dict_set_fresh.
Qed.

Lemma has_recommended_serve r self :
  has_recommended self → has_recommended (xexec (serve r) self).
Proof.
  intros Hrec. unfold xexec.
  destruct r as [|name|name config|name config|name];
    cbn [serve]; unfold discard, xbind.
  - by rewrite list_presets_spec.
  - by rewrite get_preset_spec.
  - rewrite create_preset_spec.
    destruct (dict_has name (presets_of self)); [done|].
    destruct (writable self); [|done]. cbn.
    unfold has_recommended, presets_of. cbn. by apply dict_get_set_is_Some.
  - rewrite update_preset_spec.
    destruct (dict_has name (presets_of self)); [|done]. cbn [negb].
    destruct (writable self); [|done]. cbn.
    unfold has_recommended, presets_of. cbn. by apply dict_get_set_is_Some.
  - rewrite delete_preset_spec.
    destruct (dict_has name (presets_of self)); [|done]. cbn [negb].
    destruct (bool_decide (name = "Recommended")) eqn:Hname; [done|].
    apply bool_decide_eq_false in Hname.
    destruct (writable self); [|done]. cbn.
    unfold has_recommended, presets_of. cbn. by rewrite dict_get_del_ne.
Qed.

(** X17. On a disk that takes the write [__init__] returns and leaves a
    file with the preset "Recommended", appended to what the file held
    if it was not there.  With the preset there [__init__] changes
    nothing, on any disk; without it and on a disk that refuses the
    write, [__init__] raises the error of the write.  No sequence of
    requests to the manager takes the preset away. *)
Theorem recommended_always_there :
  (∀ f,
     let self' := xexec __init__ (new f true) in
     xreturned __init__ (new f true) = Done tt
     ∧ has_recommended self'
     ∧ (¬ has_recommended (new f true) →
        presets_file self'
        = Holding (Some (JObject (stored f ++ [("Recommended", recommended)])))))
  ∧ (∀ f w, has_recommended (new f w) → __init__ (new f w) = (Done tt, new f w))
  ∧ (∀ f, ¬ has_recommended (new f false) →
          xreturned __init__ (new f false) = Failed (OSErrorOf "write_text"))
  ∧ (∀ rs self, has_recommended self → has_recommended (serve_all rs self)).
Proof.
  repeat apply conj.
  - intros f self'. subst self'. unfold xreturned, xexec.
    rewrite __init___spec. cbn [writable new].
    destruct (dict_has "Recommended" (presets_of (new f true))) eqn:Hrec.
    + apply dict_has_true in Hrec. cbn [fst snd]. by repeat split.
    + cbn [fst snd]. split; [done|]. split; [|done].
      unfold has_recommended, presets_of. cbn.
      rewrite <-dict_set_fresh by (by apply dict_has_false).
      rewrite Props.dict_get_set_eq. by eexists.
  - intros f w Hrec. rewrite __init___spec.
    rewrite (proj2 (dict_has_true _ _) Hrec).
    by rewrite has_recommended_quiet.
  - intros f Hrec. unfold xreturned. rewrite __init___spec.
    destruct (dict_has "Recommended" (presets_of (new f false))) eqn:Hhas.
    + by apply dict_has_true in Hhas.
    + done.
  - intros rs. induction rs as [|r rs IH]; intros self Hrec; [done|].
    cbn [serve_all fold_left]. by apply IH, has_recommended_serve.
Qed.

End PresetProps.

Module UrlProps.
Import UrlValidatorModel UrlTerms Props.

Section Strip.
Implicit Types (p s t w : list ascii) (chars : list (list ascii)).

Lemma starts_with_spec p s : starts_with p s = true ↔ ∃ t, s = p ++ t.
Proof.
  revert s. induction p as [|c p IH]; intros s; simpl.
  - split; [by exists s | done].
  - destruct s as [|c' s]; [split; [done | by intros [t ?]]|].
    rewrite andb_true_iff, bool_decide_eq_true, IH. split.
    + intros [-> [t ->]]. by exists t.
    + intros [t [= -> ->]]. split; [done | by exists t].
Qed.

Lemma starts_with_take p s n :
  starts_with p (take n s) = true → starts_with p s = true.
Proof.
  rewrite !starts_with_spec. intros [t Ht]. exists (t ++ drop n s).
  by rewrite app_assoc, <-Ht, take_drop.
Qed.

Lemma starts_with_length p s : starts_with p s = true → length p <= length s.
Proof.
  intros [t ->]%starts_with_spec. rewrite length_app. lia.
Qed.

Lemma find_clean chars s :
  List.find (λ w, starts_with w s) chars = None ↔ clean_front chars s.
Proof.
  unfold clean_front. induction chars as [|w chars IH]; simpl.
  - split; [by intros _ w ?%elem_of_nil | done].
  - destruct (starts_with w s) eqn:Hw.
    + split; [done|]. intros Hall. specialize (Hall w (proj2 (elem_of_cons _ _ _) (or_introl eq_refl))).
      congruence.
    + rewrite IH. split.
      * intros Hall w' [->|?]%elem_of_cons; [done | by apply Hall].
      * intros Hall w' Hw'. apply Hall. by right.
Qed.

Lemma find_starts chars s w :
  List.find (λ w, starts_with w s) chars = Some w →
  w ∈ chars ∧ starts_with w s = true.
Proof.
  intros [Hin Hw]%List.find_some. split; [by apply list_elem_of_In | done].
Qed.

Lemma lstrip_chars_fixed chars n s :
  clean_front chars s → lstrip_chars chars n s = s.
Proof.
  intros Hclean%find_clean. destruct n; [done|]. simpl. by rewrite Hclean.
Qed.

Lemma lstrip_chars_clean chars n : ∀ s,
  (∀ w, w ∈ chars → w ≠ []) → length s <= n →
  clean_front chars (lstrip_chars chars n s).
Proof.
  induction n as [|n IH]; intros s Hne Hlen; simpl.
  - destruct s; [|simpl in Hlen; lia]. intros w Hw.
    specialize (Hne w Hw). by destruct w.
  - destruct (List.find (λ w, starts_with w s) chars) as [w|] eqn:Hfind.
    + apply find_starts in Hfind as [Hin Hw]. apply IH; [done|].
      pose proof (starts_with_length _ _ Hw). specialize (Hne w Hin).
      rewrite length_drop. destruct w; [done|]. simpl in *. lia.
    + by apply find_clean.
Qed.

Lemma lstrip_chars_drop chars n : ∀ s,
  ∃ k, lstrip_chars chars n s = drop k s.
Proof.
  induction n as [|n IH]; intros s; simpl; [by exists 0|].
  destruct (List.find (λ w, starts_with w s) chars) as [w|]; [|by exists 0].
  destruct (IH (drop (length w) s)) as [k ->]. exists (length w + k).
  by rewrite drop_drop.
Qed.

Lemma whitespace_nonempty w : w ∈ whitespace → w ≠ [].
Proof.
  unfold whitespace. intros Hw.
  repeat (apply elem_of_cons in Hw as [->|Hw]; [done|]).
  by apply elem_of_nil in Hw.
Qed.

Lemma whitespace_back_nonempty w : w ∈ reverse <$> whitespace → w ≠ [].
Proof.
  intros (w0 & -> & Hw0)%list_elem_of_fmap Hnil.
  apply (whitespace_nonempty w0 Hw0).
  apply (f_equal reverse) in Hnil. by rewrite reverse_involutive in Hnil.
Qed.

Lemma lstrip_clean s : clean_front whitespace (lstrip s).
Proof. apply lstrip_chars_clean; [apply whitespace_nonempty | done]. Qed.

Lemma rstrip_clean_back s :
  clean_front (reverse <$> whitespace) (reverse (rstrip s)).
Proof.
  unfold rstrip. rewrite reverse_involutive.
  apply lstrip_chars_clean; [apply whitespace_back_nonempty|].
  by rewrite length_reverse.
Qed.

Lemma rstrip_take s : ∃ n, rstrip s = take n s.
Proof.
  unfold rstrip.
  destruct (lstrip_chars_drop (reverse <$> whitespace) (length s) (reverse s))
    as [k ->].
  exists (length s - k). by rewrite drop_reverse, reverse_involutive.
Qed.

Lemma rstrip_clean_front s :
  clean_front whitespace s → clean_front whitespace (rstrip s).
Proof.
  intros Hclean w Hw. destruct (rstrip_take s) as [n ->].
  specialize (Hclean w Hw).
  destruct (starts_with w (take n s)) eqn:Hs; [|done].
  apply starts_with_take in Hs. congruence.
Qed.

Lemma rstrip_fixed s :
  clean_front (reverse <$> whitespace) (reverse s) → rstrip s = s.
Proof.
  intros Hclean. unfold rstrip. rewrite lstrip_chars_fixed by done.
  apply reverse_involutive.
Qed.

Lemma strip_list_idempotent s :
  rstrip (lstrip (rstrip (lstrip s))) = rstrip (lstrip s).
Proof.
  assert (Hfront : clean_front whitespace (rstrip (lstrip s)))
    by apply rstrip_clean_front, lstrip_clean.
  unfold lstrip at 1. rewrite lstrip_chars_fixed by done.
  apply rstrip_fixed, rstrip_clean_back.
Qed.

Lemma strip_idempotent (s : string) : strip (strip s) = strip s.
Proof.
  unfold strip. rewrite list_ascii_of_string_of_list_ascii.
  by rewrite strip_list_idempotent.
Qed.

End Strip.

Section Search.
Implicit Types (s t u : string).

Lemma list_ascii_of_app s t :
  list_ascii_of_string (s +:+ t)
  = list_ascii_of_string s ++ list_ascii_of_string t.
Proof. induction s as [|c s IH]; [done|]. simpl. by rewrite IH. Qed.

Lemma list_ascii_inj s t :
  list_ascii_of_string s = list_ascii_of_string t → s = t.
Proof.
  intros Heq. apply (f_equal string_of_list_ascii) in Heq.
  by rewrite !string_of_list_ascii_of_string in Heq.
Qed.

Lemma ends_with_spec suffix s :
  ends_with suffix s = true ↔ ∃ pre, s = pre +:+ suffix.
Proof.
  unfold ends_with. rewrite starts_with_spec. split.
  - intros [t Ht]. exists (string_of_list_ascii (reverse t)).
    apply list_ascii_inj.
    rewrite list_ascii_of_app, list_ascii_of_string_of_list_ascii.
    apply (f_equal reverse) in Ht.
    by rewrite reverse_involutive, reverse_app, reverse_involutive in Ht.
  - intros [pre ->]. exists (reverse (list_ascii_of_string pre)).
    by rewrite list_ascii_of_app, reverse_app.
Qed.

Lemma list_ascii_of_lower s :
  list_ascii_of_string (lower s) = lower_ascii <$> list_ascii_of_string s.
Proof. induction s as [|c s IH]; [done|]. simpl. by rewrite IH. Qed.

Lemma lower_ascii_newline c :
  lower_ascii c = ascii_of_nat 10 → c = ascii_of_nat 10.
Proof. by destruct c as [[] [] [] [] [] [] [] []]. Qed.

(** A stripped text does not end in a newline, in either case of its
    letters. *)
Lemma stripped_no_newline s text :
  ends_with (text +:+ newline) (lower (strip s)) = false.
Proof.
  destruct (ends_with (text +:+ newline) (lower (strip s))) eqn:Hends; [|done].
  exfalso. unfold ends_with in Hends.
  rewrite list_ascii_of_app, reverse_app in Hends.
  apply starts_with_spec in Hends as [t Ht].
  rewrite list_ascii_of_lower, <-fmap_reverse in Ht.
  unfold strip in Ht. rewrite list_ascii_of_string_of_list_ascii in Ht.
  pose proof (rstrip_clean_back (lstrip (list_ascii_of_string s))) as Hclean.
  destruct (reverse (rstrip (lstrip (list_ascii_of_string s)))) as [|c r];
    [done|].
  cbn in Ht. injection Ht as Hc _. apply lower_ascii_newline in Hc as ->.
  specialize (Hclean [ascii_of_nat 10]).
  rewrite (proj2 (starts_with_spec _ _)) in Hclean by (by exists r).
  assert (Hin : [ascii_of_nat 10] ∈ reverse <$> whitespace).
  { apply list_elem_of_fmap. exists [ascii_of_nat 10]. split; [done|].
    unfold whitespace, bytes. cbn. right. left. }
  by specialize (Hclean Hin).
Qed.

Lemma rss_indicators_spec s :
  existsb (λ pattern, re_search pattern (lower (strip s))) rss_indicators = true
  ↔ rss_like (strip s).
Proof.
  unfold rss_indicators, rss_like, rss_words. cbn [existsb re_search].
  rewrite stripped_no_newline, !orb_false_r, !orb_true_iff.
  rewrite ends_with_spec, !contains_spec. split.
  - intros [Hxml|Hword]; [by left | right].
    destruct Hword as [(pre & post & ?)|[(pre & post & ?)|[(pre & post & ?)|
      [(pre & post & ?)|[(pre & post & ?)|(pre & post & ?)]]]]];
      eexists _, pre, post; (split; [|done]).
    + apply elem_of_cons; by left.
    + do 1 right. apply elem_of_cons; by left.
    + do 2 right. apply elem_of_cons; by left.
    + do 3 right. apply elem_of_cons; by left.
    + do 4 right. apply elem_of_cons; by left.
    + do 5 right. apply elem_of_cons; by left.
  - intros [Hxml|(w & pre & post & Hw & Heq)]; [by left | right].
    repeat (apply elem_of_cons in Hw as [->|Hw]; [by eauto 10|]).
    by apply elem_of_nil in Hw.
Qed.

End Search.

Section Validate.
Context `{UrlLib}.
Implicit Types (url u : string).

Lemma blank_test url :
  bool_decide (url = "") || bool_decide (strip url = "")
  = bool_decide (strip url = "").
Proof.
  destruct (decide (url = "")) as [->|Hne].
  - by rewrite !bool_decide_eq_true_2.
  - by rewrite (bool_decide_eq_false_2 (url = "")).
Qed.

(** The verdict on an address that is not blank, by what the two
    library calls say of it. *)
Lemma validate_url_stripped url :
  strip url ≠ "" →
  validate_url url
  = if match is_youtube_url (strip url) with Some b => b | None => false end
    then mkVerdict true "youtube" None
    else
      match urlparse (strip url) with
      | inr text => invalid ("Invalid URL format: " +:+ text)
      | inl parsed =>
          if bool_decide (scheme parsed = "http")
             || bool_decide (scheme parsed = "https")
          then
            if bool_decide (netloc parsed = "") then invalid "Invalid URL format"
            else if existsb (λ pattern, re_search pattern (lower (strip url)))
                      rss_indicators
            then mkVerdict true "rss" None
            else mkVerdict true "podcast_page" None
          else invalid "URL must start with http:// or https://"
      end.
Proof.
  intros Hne. unfold validate_url. rewrite blank_test.
  rewrite bool_decide_eq_false_2 by done.
  destruct (match is_youtube_url (strip url) with
            | Some b => b | None => false end); [done|].
  destruct (urlparse (strip url)) as [parsed|text]; [|done].
  destruct (decide (scheme parsed = "http")) as [Hs|Hs1].
  { rewrite Hs. by rewrite (bool_decide_eq_true_2 ("http" = "http")). }
  destruct (decide (scheme parsed = "https")) as [Hs|Hs2].
  { rewrite Hs. by rewrite (bool_decide_eq_true_2 ("https" = "https")). }
  rewrite (bool_decide_eq_false_2 (scheme parsed = "http")) by done.
  rewrite (bool_decide_eq_false_2 (scheme parsed = "https")) by done.
  cbn [orb].
  assert (Hout : bool_decide (scheme parsed ∈ ["http"; "https"]) = false).
  { apply bool_decide_eq_false.
    intros [?|[?|?%elem_of_nil]%elem_of_cons]%elem_of_cons; done. }
  rewrite Hout. cbn [negb]. by rewrite orb_true_r.
Qed.

Lemma validate_url_ignores_blank url :
  strip url = "" → validate_url url = invalid "URL cannot be empty".
Proof.
  intros Hblank. unfold validate_url. rewrite blank_test.
  by rewrite bool_decide_eq_true_2.
Qed.

(** X18. [validate_url] sees the address without the white space around
    it: stripping twice is stripping once, the verdict on the stripped
    address is the verdict on the address, and the verdict is "URL cannot
    be empty" exactly when nothing is left of the address. *)
Theorem validate_url_ignores_whitespace url :
  strip (strip url) = strip url
  ∧ validate_url (strip url) = validate_url url
  ∧ (strip url = "" ↔ validate_url url = invalid "URL cannot be empty").
Proof.
  split; [apply strip_idempotent|]. split.
  - unfold validate_url. by rewrite !blank_test, !strip_idempotent.
  - split.
    + intros Hblank. unfold validate_url. rewrite blank_test.
      by rewrite bool_decide_eq_true_2.
    + intros Hv. destruct (decide (strip url = "")) as [|Hne]; [done|].
      exfalso. rewrite validate_url_stripped in Hv by done.
      unfold invalid in Hv. repeat case_match; discriminate.
Qed.

(** X19. The verdict on an address that is not blank follows the order
    of the tests: "youtube" when [is_youtube_url] accepts the address;
    else invalid with the text of the error of the parser, invalid for a
    scheme other than http and https, and invalid for an address without
    a host; else "rss" when the address, in lower case, ends in ".xml"
    or has one of the six words of a feed in it, and "podcast_page" when
    it does not. *)
Theorem validate_url_classifies url :
  strip url ≠ "" →
  let u := strip url in
  (is_youtube_url u = Some true → validate_url url = mkVerdict true "youtube" None)
  ∧ (is_youtube_url u ≠ Some true →
     (∀ text, urlparse u = inr text →
        validate_url url = invalid ("Invalid URL format: " +:+ text))
     ∧ (∀ parsed, urlparse u = inl parsed →
          (scheme parsed ≠ "http" → scheme parsed ≠ "https" →
           validate_url url = invalid "URL must start with http:// or https://")
          ∧ (scheme parsed = "http" ∨ scheme parsed = "https" →
             (netloc parsed = "" → validate_url url = invalid "Invalid URL format")
             ∧ (netloc parsed ≠ "" → rss_like u →
                validate_url url = mkVerdict true "rss" None)
             ∧ (netloc parsed ≠ "" → ¬ rss_like u →
                validate_url url = mkVerdict true "podcast_page" None)))).
Proof.
  intros Hne u. subst u. rewrite validate_url_stripped by done. split.
  - by intros ->.
  - intros Hyt.
    assert (Hno : match is_youtube_url (strip url) with
                  | Some b => b | None => false end = false).
    { destruct (is_youtube_url (strip url)) as [[]|]; done. }
    rewrite Hno. split.
    + by intros text ->.
    + intros parsed ->. split.
      * intros H1 H2.
        rewrite (bool_decide_eq_false_2 (scheme parsed = "http")) by done.
        by rewrite (bool_decide_eq_false_2 (scheme parsed = "https")).
      * intros Hs.
        assert (Hhttp : bool_decide (scheme parsed = "http")
                        || bool_decide (scheme parsed = "https") = true).
        { destruct Hs as [->| ->]; done. }
        rewrite Hhttp. repeat apply conj.
        -- intros Hn. by rewrite bool_decide_eq_true_2.
        -- intros Hn Hrss. rewrite bool_decide_eq_false_2 by done.
           by rewrite (proj2 (rss_indicators_spec url) Hrss).
        -- intros Hn Hrss. rewrite bool_decide_eq_false_2 by done.
           destruct (existsb _ rss_indicators) eqn:Hex; [|done].
           by apply rss_indicators_spec in Hex.
Qed.

Lemma verdict_valid_error url :
  UrlValidatorModel.error (validate_url url) = None →
  valid (validate_url url) = true.
Proof.
  destruct (decide (strip url = "")) as [Hblank|Hne].
  { apply validate_url_ignores_blank in Hblank as ->. done. }
  rewrite validate_url_stripped by done. unfold invalid.
  repeat case_match; done.
Qed.

(** X20. Every verdict is well formed: it is valid exactly when its
    type is not "invalid", and exactly when it carries no error; its
    type is one of four; it is "youtube" exactly when the address is not
    blank and [is_youtube_url] accepts it; and a valid verdict of another
    type is on an address with the scheme http or https and a host. *)
Theorem verdict_well_formed url :
  let v := validate_url url in
  (valid v = true ↔ type v ≠ "invalid")
  ∧ (valid v = true ↔ error v = None)
  ∧ type v ∈ ["youtube"; "rss"; "podcast_page"; "invalid"]
  ∧ (type v = "youtube" ↔ is_youtube_url (strip url) = Some true ∧ strip url ≠ "")
  ∧ (valid v = true → type v ≠ "youtube" →
     ∃ parsed, urlparse (strip url) = inl parsed
               ∧ (scheme parsed = "http" ∨ scheme parsed = "https")
               ∧ netloc parsed ≠ "").
Proof.
  intros v. subst v.
  destruct (decide (strip url = "")) as [Hblank|Hne].
  { pose proof Hblank as Hv.
    apply validate_url_ignores_blank in Hv as ->. cbn.
    repeat split; try done; [apply list_elem_of_In; cbn; tauto | by intros [_ ?]]. }
  rewrite validate_url_stripped by done.
  destruct (is_youtube_url (strip url)) as [[]|] eqn:Hyt;
    [cbn; repeat split; try done; apply list_elem_of_In; cbn; tauto|..].
  all: destruct (urlparse (strip url)) as [parsed|text] eqn:Hparse;
    [|cbn; repeat split; try done;
      [apply list_elem_of_In; cbn; tauto | by intros [? _]]].
  all: destruct (bool_decide (scheme parsed = "http")
                 || bool_decide (scheme parsed = "https")) eqn:Hs;
    [|cbn; repeat split; try done;
      [apply list_elem_of_In; cbn; tauto | by intros [? _]]].
  all: destruct (bool_decide (netloc parsed = "")) eqn:Hn;
    [cbn; repeat split; try done;
      [apply list_elem_of_In; cbn; tauto | by intros [? _]]|].
  all: apply orb_true_iff in Hs;
       rewrite !bool_decide_eq_true in Hs; apply bool_decide_eq_false in Hn.
  all: destruct (existsb _ rss_indicators);
       cbn; repeat split; try done;
       try (apply list_elem_of_In; cbn; tauto); try (by intros [? _]);
       intros _ _; by exists parsed.
Qed.

End Validate.

End UrlProps.

Module ReadRoutesProps.
Import RunManagerModel ApiModel Terms MoreTerms ReadRoutesModel Props.

Section ReadRoutes.
Context `{Domain} `{Disk}.
Implicit Types (a : Api) (rm : RunManager) (run : RunState) (id : string).

Lemma find_run_spec id a :
  find_run id a
  = (match run_manager a with
     | None => Raise (HTTPException 500 "Run manager not initialized")
     | Some rm =>
         match get_run id rm with
         | None => Raise (HTTPException 404 ("Run '" +:+ id +:+ "' not found"))
         | Some run => Ret run
         end
     end, a).
Proof.
  unfold find_run, bind, get. destruct (run_manager a) as [rm|]; [|done].
  by destruct (get_run id rm).
Qed.






(** X23. For an identifier the registry does not hold, the routes that
    read a run ([get_run], [get_transcript], [export_artifact]) answer
    404 with the identifier in the text, and the route that cancels
    answers 400; without a manager all four answer 500.  The state is
    left as it is. *)
Theorem unknown_run_answers id format now a :
  run_of id a = None →
  let not_found := HTTPException 404 ("Run '" +:+ id +:+ "' not found") in
  let no_manager := HTTPException 500 "Run manager not initialized" in
  (run_manager a = None →
   get_run_route id a = (Raise no_manager, a)
   ∧ get_transcript id a = (Raise no_manager, a)
   ∧ export_artifact id format a = (Raise no_manager, a)
   ∧ cancel_run_route id now a = (Raise no_manager, a))
  ∧ (is_Some (run_manager a) →
     get_run_route id a = (Raise not_found, a)
     ∧ get_transcript id a = (Raise not_found, a)
     ∧ export_artifact id format a = (Raise not_found, a)
     ∧ cancel_run_route id now a
       = (Raise (HTTPException 400 "Run cannot be canceled"), a)).
Proof.
  intros Hnone not_found no_manager. subst not_found no_manager. split.
  - intros Hrm.
    unfold get_run_route, get_transcript, export_artifact, cancel_run_route, bind.
    rewrite find_run_spec. unfold get. by rewrite Hrm.
  - intros [rm Hrm]. unfold run_of in Hnone. rewrite Hrm in Hnone.
    cbn in Hnone.
    unfold get_run_route, get_transcript, export_artifact, bind.
    rewrite find_run_spec, Hrm, Hnone. repeat (split; [done|]).
    rewrite (cancel_run_route_spec _ _ _ _ Hrm).
    unfold returned, exec. rewrite (cancel_run_absent _ _ _ Hnone).
    cbn [fst snd]. f_equal. rewrite <-Hrm. apply set_run_manager_id.
Qed.

End ReadRoutes.
End ReadRoutesProps.

Module WriteRoutesProps.
Import RunManagerModel ApiModel Terms MoreTerms Raising WriteRoutesModel
  RouteTerms Props.

Section Dicts.
Context {V : Type}.
Implicit Types (d other : list (string * V)) (k : string) (v : V).

Lemma dict_get_set k k' v d :
  dict_get k (dict_set k' v d) = if decide (k' = k) then Some v else dict_get k d.
Proof.
  destruct (decide (k' = k)) as [->|Hne].
  - apply dict_get_set_eq.
  - by apply dict_get_set_ne.
Qed.

Lemma dict_get_update k other : ∀ d,
  NoDup (dict_keys other) →
  dict_get k (dict_update other d)
  = match dict_get k other with Some v => Some v | None => dict_get k d end.
Proof.
  induction other as [|[k0 v0] other IH]; intros d Hnd; [done|].
  apply NoDup_cons in Hnd as [Hk0 Hnd].
  cbn [dict_update fold_left fst snd dict_get].
  change (fold_left (λ d kv, dict_set kv.1 kv.2 d) other (dict_set k0 v0 d))
    with (dict_update other (dict_set k0 v0 d)).
  rewrite IH by done. rewrite dict_get_set.
  destruct (decide (k0 = k)) as [->|Hne]; [|done].
  by rewrite (proj2 (dict_get_None k other)).
Qed.

Lemma dict_get_setdefault k k' v d :
  dict_get k (dict_setdefault k' v d)
  = match dict_get k d with
    | Some v0 => Some v0
    | None => if decide (k' = k) then Some v else None
    end.
Proof.
  unfold dict_setdefault. destruct (dict_get k' d) as [v'|] eqn:Hk'.
  - destruct (dict_get k d) eqn:Hk; [done|].
    destruct (decide (k' = k)) as [->|]; [congruence | done].
  - rewrite dict_get_set. destruct (decide (k' = k)) as [->|Hne].
    + by rewrite Hk'.
    + by destruct (dict_get k d).
Qed.

End Dicts.

Section UrlToConfig.
Context `{Settings} `{UrlLib}.
Implicit Types (url ty k : string) (adv : option (list (string * Any))).

Lemma base_entries_eq ty url :
  (if bool_decide (ty = "youtube")
   then dict_set "youtube_url" (any_str url)
          [("verbose", any_bool false); ("clean", any_bool false);
           ("no_keep_audio", any_bool false)]
   else dict_set "rss_url" (any_str url)
          [("verbose", any_bool false); ("clean", any_bool false);
           ("no_keep_audio", any_bool false)])
  = base_entries ty url.
Proof. unfold base_entries. by destruct (bool_decide (ty = "youtube")). Qed.

Lemma advanced_update adv (d : list (string * Any)) :
  match adv with
  | Some (kv :: advanced') => dict_update (kv :: advanced') d
  | Some [] | None => d
  end = dict_update (default [] adv) d.
Proof. by destruct adv as [[|kv l]|]. Qed.

(** The dictionary before the entries for Notion are set. *)
Lemma filled_lookup ty url adv k :
  NoDup (dict_keys (default [] adv)) →
  dict_get k
    (dict_setdefault "deepcast_temp" openai_temperature
       (dict_setdefault "deepcast_model" openai_model
          (dict_setdefault "compute" default_compute
             (dict_setdefault "model" default_asr_model
                (dict_update (default [] adv) (base_entries ty url))))))
  = match dict_get k (default [] adv) with
    | Some v => Some v
    | None =>
        match dict_get k (base_entries ty url) with
        | Some v => Some v
        | None => dict_get k default_entries
        end
    end.
Proof.
  intros Hnd. rewrite !dict_get_setdefault, dict_get_update by done.
  destruct (dict_get k (default [] adv)); [done|].
  destruct (dict_get k (base_entries ty url)); [done|].
  unfold default_entries. cbn [dict_get]. by repeat case_decide.
Qed.

Lemma config_entries_lookup ty url adv k :
  NoDup (dict_keys (default [] adv)) →
  dict_get k (config_entries ty url adv) = entry_of ty url adv k.
Proof.
  intros Hnd. unfold config_entries, entry_of.
  rewrite base_entries_eq, advanced_update.
  assert (Hnotion :
    dict_get "notion"
      (dict_setdefault "deepcast_temp" openai_temperature
         (dict_setdefault "deepcast_model" openai_model
            (dict_setdefault "compute" default_compute
               (dict_setdefault "model" default_asr_model
                  (dict_update (default [] adv) (base_entries ty url))))))
    = dict_get "notion" (default [] adv)).
  { rewrite filled_lookup by done.
    destruct (dict_get "notion" (default [] adv)); [done|].
    unfold base_entries. by destruct (bool_decide (ty = "youtube")). }
  rewrite Hnotion. fold (notion_enabled adv).
  destruct (notion_enabled adv).
  - rewrite !dict_get_set, filled_lookup by done.
    unfold notion_entries. cbn [dict_get].
    repeat case_decide; simplify_eq; done.
  - by rewrite filled_lookup.
Qed.

(** X25. The entries [_url_to_config] hands to the constructor, for
    options that have no key twice.  A key has the value of the first of
    these that has it: the Notion settings, when the options ask for
    Notion and a database is set; the options; the three flags and the
    address, under "youtube_url" or "rss_url" by the type of the
    address; the defaults for the models.  So the options win over the
    address and the defaults, and lose to the Notion settings. *)
Theorem url_to_config_entries ty url adv :
  NoDup (dict_keys (default [] adv)) →
  let d := config_entries ty url adv in
  let source := if bool_decide (ty = "youtube") then "youtube_url" else "rss_url" in
  (∀ k, dict_get k d = entry_of ty url adv k)
  ∧ (∀ k v, dict_get k (default [] adv) = Some v →
       notion_enabled adv = false ∨ dict_get k notion_entries = None →
       dict_get k d = Some v)
  ∧ (notion_enabled adv = true →
     ∀ k v, dict_get k notion_entries = Some v → dict_get k d = Some v)
  ∧ (dict_get source (default [] adv) = None →
     dict_get source d = Some (any_str url))
  ∧ (∀ k v, dict_get k (default [] adv) = None →
       dict_get k default_entries = Some v → dict_get k d = Some v).
Proof.
  intros Hnd d source. subst d source. split; [|split; [|split; [|split]]].
  - intros k. by apply config_entries_lookup.
  - intros k v Hk Hside. rewrite config_entries_lookup by done.
    unfold entry_of. rewrite Hk.
    destruct Hside as [-> | ->]; [done|]. by destruct (notion_enabled adv).
  - intros Hon k v Hk. rewrite config_entries_lookup by done.
    unfold entry_of. by rewrite Hon, Hk.
  - intros Hsrc. rewrite config_entries_lookup by done.
    unfold entry_of. rewrite Hsrc.
    unfold notion_entries, base_entries.
    destruct (bool_decide (ty = "youtube")); cbn [dict_get];
      by destruct (notion_enabled adv).
  - intros k v Hk Hdef. rewrite config_entries_lookup by done.
    unfold entry_of. rewrite Hk, Hdef.
    assert (Hnot : dict_get k notion_entries = None).
    { revert Hdef. unfold default_entries, notion_entries. cbn [dict_get].
      repeat case_decide; simplify_eq; done. }
    assert (Hbase : dict_get k (base_entries ty url) = None).
    { revert Hdef. unfold default_entries, base_entries.
      destruct (bool_decide (ty = "youtube")); cbn [dict_get];
        repeat case_decide; simplify_eq; done. }
    rewrite Hnot, Hbase. by destruct (notion_enabled adv).
Qed.

End UrlToConfig.

Section CreateRun.
Context `{Settings} `{UrlLib}.
Variable ill_typed :
  PresetManagerModel.json → RunRequest → string → Z → X Server string.
Implicit Types (s : Server) (rm : RunManager) (request : RunRequest)
  (options : option (list (string * Any))).

Lemma xtry_bind_done {S A B} (m : X S A) (k : A → X S B) handlers
    (st st1 : S) v :
  m st = (Done v, st1) → xtry (xbind m k) handlers st = xtry (k v) handlers st1.
Proof. intros Hm. unfold xtry, xbind. by rewrite Hm. Qed.

Lemma xtry_bind_failed {S A B} (m : X S A) (k : A → X S B) handlers
    (st st1 : S) e :
  m st = (Failed e, st1) →
  xtry (xbind m k) handlers st
  = match handlers e with
    | Some handler => handler st1
    | None => (Failed e, st1)
    end.
Proof. intros Hm. unfold xtry, xbind. by rewrite Hm. Qed.

Lemma set_api_id s : set_api (api s) s = s.
Proof. by destruct s. Qed.

Lemma on_presets_get_preset name pm s :
  on_presets (PresetManagerModel.get_preset name) pm s
  = (Done (PresetManagerModel.mkPreset name
             <$> dict_get name (PresetTerms.presets_of pm)),
     set_preset_manager (Some (PresetTerms.loaded_from pm)) s).
Proof.
  unfold on_presets. by rewrite PresetProps.get_preset_spec.
Qed.

Lemma create_run_route_found request uuid4 now s rm options :
  run_manager (api s) = Some rm → preset_found s request options →
  create_run_route ill_typed request uuid4 now s
  = xtry (start_run request options uuid4 now) create_run_handlers
      (after_lookup s request).
Proof.
  intros Hrm Hfound. unfold create_run_route, xbind at 1, xget. rewrite Hrm.
  unfold after_lookup.
  destruct Hfound as [[Hnone ->]|(name & pm & members & Hname & Hne & Hpm & Hget & ->)].
  - assert (Hstart : ∀ s0,
      xtry (start_run request None uuid4 now) create_run_handlers s0
      = xtry (start_run request None uuid4 now) create_run_handlers s0) by done.
    destruct Hnone as [Hp|Hp]; rewrite Hp.
    + erewrite xtry_bind_done by reflexivity.
      unfold start_run, merged_options. by destruct (advanced request).
    + erewrite xtry_bind_done by reflexivity.
      unfold start_run, merged_options. by destruct (advanced request).
  - rewrite Hname, Hpm. destruct name as [|c name]; [done|].
    erewrite xtry_bind_done; last first.
    { unfold xbind at 1. rewrite on_presets_get_preset, Hget. reflexivity. }
    cbn [PresetManagerModel.config].
    unfold start_run, merged_options. by destruct (advanced request).
Qed.

Lemma create_run_route_missing request uuid4 now s rm name :
  run_manager (api s) = Some rm → preset_missing s request name →
  create_run_route ill_typed request uuid4 now s
  = (Failed (HTTPExceptionOf 500
               (http_text 404 ("Preset '" +:+ name +:+ "' not found"))),
     api_logged ERROR "Failed to create run" (after_lookup s request)).
Proof.
  intros Hrm (Hname & Hne & Hmissing).
  unfold create_run_route, xbind at 1, xget. rewrite Hrm, Hname.
  unfold after_lookup. rewrite Hname.
  destruct name as [|c name]; [done|].
  destruct (preset_manager s) as [pm|] eqn:Hpm.
  - erewrite xtry_bind_failed; last first.
    { unfold xbind at 1. rewrite on_presets_get_preset.
      rewrite (Hmissing pm eq_refl). reflexivity. }
    reflexivity.
  - erewrite xtry_bind_failed by reflexivity. reflexivity.
Qed.

Lemma api_after_lookup s request : api (after_lookup s request) = api s.
Proof.
  unfold after_lookup.
  by destruct (preset request) as [[|c n]|], (preset_manager s).
Qed.

Lemma untouched_after_lookup s request : untouched s (after_lookup s request).
Proof.
  unfold untouched, after_lookup.
  destruct (preset request) as [[|c n]|], (preset_manager s) as [pm|] eqn:Hpm;
    rewrite ?Hpm; done.
Qed.

Lemma _url_to_config_invalid url options :
  UrlValidatorModel.valid (UrlValidatorModel.validate_url url) = false →
  ∃ text,
    UrlValidatorModel.error (UrlValidatorModel.validate_url url) = Some text
    ∧ _url_to_config url options = Failed (ValueErrorOf ("Invalid URL: " +:+ text)).
Proof.
  intros Hv. unfold _url_to_config. rewrite Hv. cbn [negb].
  destruct (UrlValidatorModel.error (UrlValidatorModel.validate_url url))
    as [text|] eqn:Herr; [by exists text|].
  apply (UrlProps.verdict_valid_error url) in Herr. congruence.
Qed.

(** X26. The refusals of the route [create_run].  Without a manager it
    answers 500.  For a preset that is not to be had it answers 500 as
    well, with the 404 of the lookup in the text, and logs one error.
    For a preset that is found and an address the validator rejects it
    answers 400 with the text of the validator.  In each case the manager, the connections, the
    frames sent, the background tasks and the presets file are as they
    were. *)
Theorem create_run_route_refusals request uuid4 now s :
  (run_manager (api s) = None →
   create_run_route ill_typed request uuid4 now s
   = (Failed (HTTPExceptionOf 500 "Run manager not initialized"), s))
  ∧ (∀ name,
       is_Some (run_manager (api s)) → preset_missing s request name →
       create_run_route ill_typed request uuid4 now s
       = (Failed (HTTPExceptionOf 500
                    (http_text 404 ("Preset '" +:+ name +:+ "' not found"))),
          api_logged ERROR "Failed to create run" (after_lookup s request)))
  ∧ (∀ options,
       is_Some (run_manager (api s)) → preset_found s request options →
       UrlValidatorModel.valid (UrlValidatorModel.validate_url (url request))
       = false →
       ∃ text,
         UrlValidatorModel.error (UrlValidatorModel.validate_url (url request))
         = Some text
         ∧ create_run_route ill_typed request uuid4 now s
           = (Failed (HTTPExceptionOf 400 ("Invalid URL: " +:+ text)),
              after_lookup s request))
  ∧ untouched s (after_lookup s request)
  ∧ untouched s (api_logged ERROR "Failed to create run" (after_lookup s request)).
Proof.
  split; [|split; [|split; [|split]]].
  - intros Hrm. unfold create_run_route, xbind, xget. by rewrite Hrm.
  - intros name [rm Hrm] Hmissing. by eapply create_run_route_missing.
  - intros options [rm Hrm] Hfound Hv.
    destruct (_url_to_config_invalid (url request)
                (merged_options options (advanced request)) Hv)
      as (text & Herr & Hcfg).
    exists text. split; [done|].
    rewrite (create_run_route_found _ _ _ _ rm options Hrm Hfound).
    unfold xtry, start_run. by rewrite Hcfg.
  - apply untouched_after_lookup.
  - destruct (untouched_after_lookup s request) as (? & ? & ? & ? & ?).
    by repeat split.
Qed.

(** X27. For a request whose preset is found, whose address is valid and
    whose entries the constructor takes as [config]: with the manager at
    its ceiling the route answers 429 with the message of the manager,
    and starts nothing; below the ceiling it returns the identifier
    drawn, with the pending run under it in the registry, the other runs
    as they were, and one more background task, for this identifier and
    this configuration. *)
Theorem create_run_route_admission request uuid4 now s rm options config :
  run_manager (api s) = Some rm → preset_found s request options →
  let v := UrlValidatorModel.validate_url (url request) in
  UrlValidatorModel.valid v = true →
  PipelineConfig_init
    (config_entries (UrlValidatorModel.type v) (url request)
       (merged_options options (advanced request))) = Some config →
  ((max_concurrent rm <= active_count rm)%Z →
   create_run_route ill_typed request uuid4 now s
   = (Failed (HTTPExceptionOf 429 (capacity_message rm)),
      after_lookup s request))
  ∧ ((active_count rm < max_concurrent rm)%Z →
     ∃ s' rm',
       create_run_route ill_typed request uuid4 now s = (Done uuid4, s')
       ∧ background s' = background s ++ [(uuid4, config)]
       ∧ run_manager (api s') = Some rm'
       ∧ get_run uuid4 rm' = Some (pending_run config uuid4 now)
       ∧ (∀ id, id ≠ uuid4 → get_run id rm' = get_run id rm)
       ∧ preset_manager s' = preset_manager (after_lookup s request)).
Proof.
  intros Hrm Hfound v Hv Hinit. subst v.
  rewrite (create_run_route_found _ _ _ _ rm options Hrm Hfound).
  assert (Hcfg : _url_to_config (url request)
                   (merged_options options (advanced request)) = Done config).
  { unfold _url_to_config. by rewrite Hv, Hinit. }
  unfold start_run. rewrite Hcfg.
  assert (Hrm1 : run_manager (api (after_lookup s request)) = Some rm)
    by by rewrite api_after_lookup.
  split.
  - intros Hfull.
    erewrite xtry_bind_failed; last first.
    { unfold on_api. rewrite (on_manager_some _ _ _ Hrm1).
      rewrite create_run_full by done. cbn [fst snd of_exn].
      rewrite <-Hrm1, set_run_manager_id, set_api_id. reflexivity. }
    reflexivity.
  - intros Hfree.
    eexists _, _. split.
    { unfold xtry, xbind at 1, on_api.
      rewrite (on_manager_some _ _ _ Hrm1).
      rewrite create_run_free by done. cbn [fst snd]. reflexivity. }
    cbn. destruct (untouched_after_lookup s request) as (_ & _ & _ & Hb & _).
    rewrite Hb. split; [done|]. split; [done|].
    split; [apply dict_get_set_eq|]. split; [|done].
    intros id Hne. unfold get_run. cbn. by rewrite dict_get_set_ne.
Qed.

End CreateRun.

Section PresetRoutes.
Context `{Settings} `{UrlLib}.
Implicit Types (s : Server) (pm : PresetManagerModel.PresetManager)
  (name : string).

(** X24. Without a preset manager the two routes that write presets
    answer 500.  With one, [create_preset] answers 400 for a name the
    file holds, lets the error of a refused write through, and else
    returns the preset and appends it to the file; [delete_preset]
    answers 404 for a name the file does not hold, 400 for the default
    preset, and else deletes the preset from the file. *)
Theorem preset_routes_answers name config s :
  (preset_manager s = None →
   create_preset_route name config s = (Failed no_preset_manager, s)
   ∧ delete_preset_route name s = (Failed no_preset_manager, s))
  ∧ (∀ pm, preset_manager s = Some pm →
       let d := PresetTerms.presets_of pm in
       let kept := set_preset_manager (Some (PresetTerms.loaded_from pm)) s in
       (is_Some (dict_get name d) →
        create_preset_route name config s
        = (Failed (HTTPExceptionOf 400
                     ("Preset '" +:+ name +:+ "' already exists")), kept))
       ∧ (dict_get name d = None → PresetManagerModel.writable pm = false →
          create_preset_route name config s
          = (Failed (OSErrorOf "write_text"), kept))
       ∧ (dict_get name d = None → PresetManagerModel.writable pm = true →
          ∃ pm',
            create_preset_route name config s
            = (Done (name, config), set_preset_manager (Some pm') s)
            ∧ PresetTerms.presets_of pm'
              = d ++ [(name, PresetManagerModel.JObject config)])
       ∧ (dict_get name d = None →
          delete_preset_route name s
          = (Failed (HTTPExceptionOf 404
                       ("Preset '" +:+ name +:+ "' not found")), kept))
       ∧ (is_Some (dict_get name d) → name = "Recommended" →
          delete_preset_route name s
          = (Failed (HTTPExceptionOf 400
                       "Cannot delete the default 'Recommended' preset"),
             kept))
       ∧ (is_Some (dict_get name d) → name ≠ "Recommended" →
          PresetManagerModel.writable pm = true →
          ∃ pm',
            delete_preset_route name s
            = (Done "deleted", set_preset_manager (Some pm') s)
            ∧ PresetTerms.presets_of pm' = PresetManagerModel.dict_del name d)).
Proof.
  split.
  - intros Hpm. unfold create_preset_route, delete_preset_route, xbind, xget.
    by rewrite Hpm.
  - intros pm Hpm d kept. subst d kept.
    assert (Hcreate : create_preset_route name config s
      = match PresetManagerModel.create_preset name
                (PresetManagerModel.JObject config) pm with
        | (Done preset, pm') =>
            (Done (PresetManagerModel.name preset, config),
             set_preset_manager (Some pm') s)
        | (Failed (ValueErrorOf t), pm') =>
            (Failed (HTTPExceptionOf 400 t), set_preset_manager (Some pm') s)
        | (Failed e, pm') => (Failed e, set_preset_manager (Some pm') s)
        end).
    { unfold create_preset_route, xbind at 1, xget. rewrite Hpm.
      unfold xtry, xbind, on_presets.
      destruct (PresetManagerModel.create_preset _ _ pm) as [[p|e] pm'];
        [done|]. by destruct e. }
    assert (Hdelete : delete_preset_route name s
      = match PresetManagerModel.delete_preset name pm with
        | (Done true, pm') => (Done "deleted", set_preset_manager (Some pm') s)
        | (Done false, pm') =>
            (Failed (HTTPExceptionOf 404
                       ("Preset '" +:+ name +:+ "' not found")),
             set_preset_manager (Some pm') s)
        | (Failed (ValueErrorOf t), pm') =>
            (Failed (HTTPExceptionOf 400 t), set_preset_manager (Some pm') s)
        | (Failed e, pm') => (Failed e, set_preset_manager (Some pm') s)
        end).
    { unfold delete_preset_route, xbind at 1, xget. rewrite Hpm.
      unfold xtry, xbind, on_presets.
      destruct (PresetManagerModel.delete_preset _ pm) as [[[]|e] pm'];
        [done|done|]. by destruct e. }
    rewrite Hcreate, Hdelete.
    rewrite PresetProps.create_preset_spec, PresetProps.delete_preset_spec.
    split; [|split; [|split; [|split; [|split]]]].
    + intros Hin%PresetProps.dict_has_true. by rewrite Hin.
    + intros Hout%PresetProps.dict_has_false Hw. by rewrite Hout, Hw.
    + intros Hnone Hw. pose proof Hnone as Hout%PresetProps.dict_has_false.
      rewrite Hout, Hw. eexists. split; [done|].
      unfold PresetTerms.presets_of at 1. cbn.
      by rewrite dict_set_fresh.
    + intros Hout%PresetProps.dict_has_false. by rewrite Hout.
    + intros Hin%PresetProps.dict_has_true ->. by rewrite Hin.
    + intros Hin%PresetProps.dict_has_true Hne Hw. rewrite Hin, Hw.
      rewrite bool_decide_eq_false_2 by done. cbn. by eexists.
Qed.

End PresetRoutes.

End WriteRoutesProps.

Module DebugCliProps.
Import DebugCliModel DebugCliTerms.

Section DebugCli.
Context `{CliEnv}.
Implicit Types (config : DebugConfig) (parts : list string) (part : string).

Lemma elem_of_append_if part condition p parts :
  part ∈ parts → part ∈ append_if condition p parts.
Proof.
  intros Hin. unfold append_if. destruct condition; [|done].
  apply elem_of_app. by left.
Qed.

Lemma elem_of_option_append part (v : option string) (f : string → string) parts :
  part ∈ parts →
  part ∈ match v with Some text => parts ++ [f text] | None => parts end.
Proof. intros Hin. destruct v; [|done]. apply elem_of_app. by left. Qed.


Lemma append_if_inv part condition p parts :
  part ∈ append_if condition p parts → part ∈ parts ∨ part = p.
Proof.
  unfold append_if. destruct condition; [|by left].
  intros [?|?%list_elem_of_singleton]%elem_of_app; auto.
Qed.

Lemma option_append_inv part (v : option string) (f : string → string) parts :
  part ∈ match v with Some text => parts ++ [f text] | None => parts end →
  part ∈ parts ∨ ∃ text, part = f text.
Proof.
  destruct v as [text|]; [|by left].
  intros [?|?%list_elem_of_singleton]%elem_of_app; eauto.
Qed.

Lemma source_step_inv part config :
  part ∈ match given (show config), given (rss_url config),
               given (youtube_url config) with
         | Some text, _, _ => ["podx run"] ++ [quoted "--show" text]
         | None, Some text, _ => ["podx run"] ++ [quoted "--rss-url" text]
         | None, None, Some text => ["podx run"] ++ [quoted "--youtube-url" text]
         | None, None, None => ["podx run"]
         end →
  part = "podx run" ∨ source_part config = Some part.
Proof.
  unfold source_part.
  destruct (given (show config)), (given (rss_url config)),
    (given (youtube_url config)); cbn;
    intros Hin; repeat (apply elem_of_cons in Hin as [->|Hin]; [by auto|]);
    by apply elem_of_nil in Hin.
Qed.

Lemma head_append_if x condition p parts :
  (∃ rest, parts = x :: rest) → ∃ rest, append_if condition p parts = x :: rest.
Proof.
  intros [rest ->]. unfold append_if. destruct condition; by eexists.
Qed.

Lemma head_option_append x (v : option string) (f : string → string) parts :
  (∃ rest, parts = x :: rest) →
  ∃ rest,
    match v with Some text => parts ++ [f text] | None => parts end = x :: rest.
Proof. intros [rest ->]. destruct v; by eexists. Qed.

Lemma asr_step_inv part (v : option string) parts :
  part ∈ match v with
         | Some provider_value =>
             append_if (negb (bool_decide (provider_value = "auto")))
               ("--asr-provider " +:+ provider_value) parts
         | None => parts
         end →
  part ∈ parts ∨ ∃ text, part = "--asr-provider " +:+ text.
Proof.
  destruct v as [pv|]; [|by left].
  intros [?| ->]%append_if_inv; eauto.
Qed.

Ltac not_a_source :=
  let text := fresh "text" in
  let Heq := fresh "Heq" in
  intros (text & [Heq|[Heq|Heq]]); vm_compute in Heq; simplify_eq.

(** X29. The command starts with "podx run" and names one source at
    most: the part for the show, else for the feed, else for the video
    is in the command, no other part that names a source is, and a show
    that is given is the one named. *)
Theorem one_source_option config :
  (∃ rest, debug_cli_parts config = "podx run" :: rest)
  ∧ (∀ part, source_part config = Some part → part ∈ debug_cli_parts config)
  ∧ (∀ part, part ∈ debug_cli_parts config → names_source part →
             source_part config = Some part)
  ∧ (∀ text, given (show config) = Some text →
             source_part config = Some (quoted "--show" text)).
Proof.
  split; [|split; [|split]].
  - unfold debug_cli_parts. cbv zeta.
    do 6 apply head_append_if.
    apply head_option_append with (f := λ db_id, quoted "--db" (redact db_id)).
    do 9 apply head_append_if.
    assert (Hasr : ∀ parts, (∃ rest, parts = "podx run" :: rest) →
      ∃ rest,
        match given (asr_provider config) with
        | Some provider_value =>
            append_if (negb (bool_decide (provider_value = "auto")))
              ("--asr-provider " +:+ provider_value) parts
        | None => parts
        end = "podx run" :: rest).
    { intros parts Hparts. destruct (given (asr_provider config)); [|done].
      by apply head_append_if. }
    apply Hasr. do 3 apply head_append_if.
    apply head_option_append with (f := quoted "--title-contains").
    apply head_option_append with (f := quoted "--date").
    destruct (given (show config)), (given (rss_url config)),
      (given (youtube_url config)); by eexists.
  - intros part Hsrc. unfold debug_cli_parts. cbv zeta.
    do 6 apply elem_of_append_if. apply elem_of_option_append
      with (f := λ db_id, quoted "--db" (redact db_id)).
    do 9 apply elem_of_append_if.
    assert (Hasr : ∀ parts, part ∈ parts →
      part ∈ match given (asr_provider config) with
             | Some provider_value =>
                 append_if (negb (bool_decide (provider_value = "auto")))
                   ("--asr-provider " +:+ provider_value) parts
             | None => parts
             end).
    { intros parts Hin. destruct (given (asr_provider config)); [|done].
      by apply elem_of_append_if. }
    apply Hasr. do 3 apply elem_of_append_if.
    apply elem_of_option_append with (f := quoted "--title-contains").
    apply elem_of_option_append with (f := quoted "--date").
    revert Hsrc. unfold source_part.
    destruct (given (show config)), (given (rss_url config)),
      (given (youtube_url config)); intros [= <-];
      apply elem_of_app; right; by apply list_elem_of_singleton.
  - intros part Hin Hsource. unfold debug_cli_parts in Hin. cbv zeta in Hin.
    repeat (apply append_if_inv in Hin as [Hin| ->];
            [|exfalso; revert Hsource; not_a_source]).
    apply (option_append_inv _ _ (λ db_id, quoted "--db" (redact db_id)))
      in Hin as [Hin|[db_id ->]];
      [|exfalso; revert Hsource; not_a_source].
    repeat (apply append_if_inv in Hin as [Hin| ->];
            [|exfalso; revert Hsource; not_a_source]).
    apply asr_step_inv in Hin as [Hin|[pv ->]];
      [|exfalso; revert Hsource; not_a_source].
    repeat (apply append_if_inv in Hin as [Hin| ->];
            [|exfalso; revert Hsource; not_a_source]).
    apply (option_append_inv _ _ (quoted "--title-contains"))
      in Hin as [Hin|[t ->]]; [|exfalso; revert Hsource; not_a_source].
    apply (option_append_inv _ _ (quoted "--date"))
      in Hin as [Hin|[t ->]]; [|exfalso; revert Hsource; not_a_source].
    apply source_step_inv in Hin as [->|Hin]; [|done].
    exfalso. revert Hsource. not_a_source.
  - intros text Hshow. unfold source_part. by rewrite Hshow.
Qed.

End DebugCli.
End DebugCliProps.

(** ** The further properties at work *)

Module MoreWitnesses.
Import RunManagerModel ApiModel Terms MoreTerms Props Sample Scenarios
  MoreScenarios StoreProps RegistryProps OrchestratorProps.
Local Open Scope Z_scope.

(** The run "x" comes back from its dictionary as it went in. *)
Lemma round_trip_scenario :
  decode_item (ItemDict (to_dict run_x)) = Ret run_x.
Proof.
  apply (history_round_trip run_x cfg);
    [reflexivity | reflexivity | intros t [= <-]; by split].
Defined.

Lemma archive_round_trips r :
  r ∈ [run_z; run_x] ∨ r ∈ [run_z_failed; run_x] → round_trips r.
Proof.
  intros [Hr|Hr];
    repeat (apply elem_of_cons in Hr as [->|Hr]; [reflexivity|]);
    by apply elem_of_nil in Hr.
Qed.

(** The archive after the run "z" is saved holds "z" then "x", and
    reads back so. *)
Lemma save_load_scenario :
  returned (save_to_history run_z) archive = Ret tt
  ∧ returned _load_history (exec (save_to_history run_z) archive)
    = Ret [run_z; run_x].
Proof.
  destruct (save_then_load archive run_z eq_refl) as (Hret & Hload & _).
  { intros r Hr. apply archive_round_trips. by left. }
  split; [exact Hret|]. unfold returned. by rewrite Hload.
Defined.

(** Saving the run "z" again, failed this time, leaves what saving the
    failed record alone would have left. *)
Lemma save_again_scenario :
  history_file (exec (save_to_history run_z_failed)
                  (exec (save_to_history run_z) archive))
  = file_of [run_z_failed; run_x].
Proof.
  rewrite (save_to_history_supersedes archive run_z run_z_failed eq_refl).
  - reflexivity.
  - by vm_compute.
  - intros r Hr. apply archive_round_trips. by left.
  - reflexivity.
Defined.

Lemma manager_ok_busy : manager_ok busy.
Proof.
  split; [apply NoDup_singleton|].
  intros k v [[= -> ->]|?%elem_of_nil]%elem_of_cons; [|done].
  split; [done|]. intros Ht. vm_compute in Ht. discriminate.
Qed.

(** Whatever the session does, the registry stays consistent. *)
Lemma consistent_scenario : lifted manager_ok (perform_all session studio).
Proof.
  destruct (records_stay_consistent session studio) as (_ & Hkeep & _).
  apply Hkeep. exists busy. split; [reflexivity | apply manager_ok_busy].
Defined.

Lemma session_ops (P : operation → Prop) :
  P (ProgressCallback "a" "align" "Alignment completed successfully") →
  P (CreateRun cfg "b" 2) → P (CancelRoute "a" 5) →
  P (UpdateRunStatus "a" "running" 6) →
  P (ExecutePipeline "a" (mkExecution [] (inl clean_result)) None 7 8) →
  P (WebsocketEndpoint 1%nat "a" ["ping"]) → P (ListRecentRuns None) →
  ∀ op, op ∈ session → P op.
Proof.
  intros ? ? ? ? ? ? ? op Hop. unfold session in Hop.
  repeat (apply elem_of_cons in Hop as [->|Hop]; [done|]).
  by apply elem_of_nil in Hop.
Qed.

(** Through the session the run "a" keeps its identifier, its
    configuration and its creation time. *)
Lemma origin_scenario :
  ∃ rm' run',
    run_manager (perform_all session studio) = Some rm'
    ∧ get_run "a" rm' = Some run'
    ∧ run_id run' = "a" ∧ config run' = cfg ∧ started_at run' = 1.
Proof.
  destruct (admitted_run_keeps_origin "a" run_a session studio busy
              eq_refl eq_refl) as (rm' & run' & ? & ? & ? & ? & ?).
  { by apply session_ops. }
  by exists rm', run'.
Defined.

(** Through the session the ceiling, the length of the history and the
    disk stay what they were. *)
Lemma settings_scenario :
  ∃ rm',
    run_manager (perform_all session studio) = Some rm'
    ∧ max_concurrent rm' = 1 ∧ max_history rm' = 20
    ∧ fs_writable rm' = true.
Proof.
  destruct (settings_never_change session studio busy eq_refl)
    as (rm' & ? & ? & ? & ? & _).
  by exists rm'.
Defined.

(** No task is registered in the session, and none is cancelled by
    it, the cancellation of the run "a" included. *)
Lemma no_task_scenario :
  ∃ rm',
    run_manager (perform_all session studio) = Some rm'
    ∧ _run_tasks rm' = ∅ ∧ cancelled rm' = [].
Proof.
  destruct (no_task_no_cancellation session studio busy eq_refl eq_refl)
    as (rm' & ? & ? & ?).
  { by apply session_ops. }
  by exists rm'.
Defined.

(** A task registered for the run "a" is cancelled with it. *)
Lemma task_scenario :
  returned (cancel_run "a" 5) (exec (register_task "a" 7%nat) busy) = Ret true
  ∧ cancelled (exec (cancel_run "a" 5) (exec (register_task "a" 7%nat) busy))
    = [7%nat].
Proof.
  destruct (registered_task_cancelled_once "a" run_a 7%nat 5 busy eq_refl)
    as (Hactive & _).
  destruct (Hactive eq_refl) as (Hret & Hcancelled & _).
  split; [exact Hret | exact Hcancelled].
Defined.

(** With its one slot taken the manager stays within its ceiling when
    a run is asked for and when the run under way is cancelled. *)
Lemma ceiling_scenario :
  within_ceiling (exec (create_run cfg "b" 2) busy)
  ∧ within_ceiling (exec (cancel_run "a" 5) busy).
Proof.
  destruct (ceiling_kept busy) as (Hcreate & _ & _ & _ & _ & _ & Hcancel & _).
  { by vm_compute. }
  split; [apply Hcreate | apply Hcancel].
Defined.



End MoreWitnesses.

Module PresetWitnesses.
Import Raising PresetManagerModel PresetTerms PresetProps PresetScenarios.


(** A name of the shelf cannot be created again. *)
Lemma create_twice_scenario :
  create_preset "Quick" quick shelf
  = (Failed (ValueErrorOf "Preset 'Quick' already exists"), shelf).
Proof.
  pose proof (create_preset_once "Quick" quick shelf) as Hc.
  cbv zeta in Hc. destruct Hc as [Hthere _].
  apply Hthere. by eexists.
Defined.

(** An update leaves the presets of the shelf in their order. *)
Lemma update_scenario :
  dict_keys (presets_of (xexec (update_preset "Quick" JNull) shelf))
  = ["Recommended"; "Quick"].
Proof.
  pose proof (update_preset_in_place "Quick" JNull shelf) as Hu.
  cbv zeta in Hu. destruct Hu as [_ Hthere].
  destruct Hthere as (_ & _ & Hkeys & _); [by eexists | done | exact Hkeys].
Defined.

(** The default preset of the shelf is not to be deleted, the other
    one is. *)
Lemma delete_scenario :
  xreturned (delete_preset "Recommended") shelf
  = Failed (ValueErrorOf "Cannot delete the default 'Recommended' preset")
  ∧ xreturned (delete_preset "Quick") shelf = Done true
  ∧ xreturned (delete_preset "Quick") (xexec (delete_preset "Quick") shelf)
    = Done false.
Proof.
  pose proof (delete_preset_guarded "Quick" shelf) as Hd.
  cbv zeta in Hd. destruct Hd as (_ & Hdefault & Hother).
  split; [unfold xreturned; rewrite Hdefault; [done | by eexists]|].
  destruct Hother as (Hfirst & _ & _ & _ & Hsecond); [by eexists | done | done |].
  by split.
Defined.

(** Over a file that holds a list the default preset is written, and
    the list is lost. *)
Lemma default_scenario :
  xreturned __init__ garbled = Done tt
  ∧ presets_file (xexec __init__ garbled)
    = Holding (Some (JObject [("Recommended", recommended)])).
Proof.
  destruct recommended_always_there as (Hinit & _).
  pose proof (Hinit (Holding (Some (JArray [])))) as Hg. cbv zeta in Hg.
  destruct Hg as (Hret & _ & Hfile). split; [exact Hret|].
  apply Hfile. by intros [? [=]].
Defined.

End PresetWitnesses.

Module UrlWitnesses.
Import UrlValidatorModel UrlTerms UrlProps UrlSample.

(** The blanks around an address do not count. *)
Lemma blanks_scenario :
  validate_url "  https://youtu.be/abc " = validate_url "https://youtu.be/abc".
Proof.
  destruct (validate_url_ignores_whitespace "  https://youtu.be/abc ")
    as (_ & Hsame & _).
  exact (eq_sym Hsame).
Defined.

(** An address with "/podcast" in it is taken for a feed. *)
Lemma podcast_scenario :
  validate_url " https://example.com/podcast " = mkVerdict true "rss" None.
Proof.
  pose proof (validate_url_classifies " https://example.com/podcast ") as Hc.
  cbv zeta in Hc. destruct Hc as [_ Hother]; [by vm_compute|].
  destruct Hother as [_ Hparsed]; [by vm_compute|].
  destruct (Hparsed (mkParseResult "https" "example.com")) as [_ Hhttp];
    [by vm_compute|].
  destruct Hhttp as (_ & Hrss & _); [by right|].
  apply Hrss; [by vm_compute|].
  right. exists "/podcast", "https://example.com", "".
  split; [|by vm_compute].
  apply list_elem_of_In. cbn. tauto.
Defined.

(** The verdict on an address without a host is well formed. *)
Lemma verdict_scenario :
  type (validate_url "https:///feed") = "invalid"
  ∧ type (validate_url "https:///feed")
    ∈ ["youtube"; "rss"; "podcast_page"; "invalid"].
Proof.
  pose proof (verdict_well_formed "https:///feed") as Hv. cbv zeta in Hv.
  destruct Hv as (_ & _ & Hin & _). split; [by vm_compute | exact Hin].
Defined.

End UrlWitnesses.

Module ReadWitnesses.
Import RunManagerModel ApiModel Terms ReadRoutesModel ReadRoutesProps.
Import Sample Scenarios MoreScenarios.
Local Open Scope Z_scope.



(** A run that is not known is not found when read, and a bad request
    when cancelled. *)
Lemma unknown_scenario :
  get_run_route "zz" studio
  = (Raise (HTTPException 404 "Run 'zz' not found"), studio)
  ∧ cancel_run_route "zz" 5 studio
    = (Raise (HTTPException 400 "Run cannot be canceled"), studio).
Proof.
  pose proof (unknown_run_answers "zz" "txt" 5 studio eq_refl) as Hu.
  cbv zeta in Hu. destruct Hu as [_ Hsome].
  destruct Hsome as (Hget & _ & _ & Hcancel); [by eexists|].
  split; [exact Hget | exact Hcancel].
Defined.

End ReadWitnesses.

Module RouteWitnesses.
Import RunManagerModel ApiModel Raising WriteRoutesModel RouteTerms.
Import WriteRoutesProps UrlSample RouteSample.
Local Open Scope Z_scope.

(** With Notion asked for, the database of the settings is entered,
    and the address goes in as the feed. *)
Lemma entries_scenario :
  dict_get "notion_db" (config_entries "rss" (url feed_request) feed_options)
  = Some "0123456789abcdefg"
  ∧ dict_get "rss_url" (config_entries "rss" (url feed_request) feed_options)
    = Some "https://example.com/feed.xml"
  ∧ dict_get "diarize" (config_entries "rss" (url feed_request) feed_options)
    = Some "False".
Proof.
  pose proof (url_to_config_entries "rss" (url feed_request) feed_options)
    as He.
  cbv zeta in He. destruct He as (_ & Hadv & Hnotion & Hsource & _);
    [compute_done|].
  split; [by apply Hnotion|]. split; [by apply Hsource|].
  apply Hadv; [done | by right].
Defined.

Lemma found_quick : preset_found office feed_request (Some quick_options).
Proof.
  right. exists "Quick", PresetScenarios.shelf,
    [("diarize", PresetManagerModel.JBool false)].
  by repeat split.
Qed.

(** The request for the feed is admitted by the free office, and its
    pipeline is handed to the background. *)
Lemma feed_admission_scenario :
  ∃ s',
    create_run_route ill_typed_sample feed_request "r1" 3 office
    = (Done "r1", s')
    ∧ background s' = [("r1", feed_config)].
Proof.
  pose proof (create_run_route_admission ill_typed_sample feed_request "r1" 3
                office _ (Some quick_options) feed_config eq_refl found_quick)
    as Ha.
  cbv zeta in Ha. destruct Ha as [_ Hfree]; [by vm_compute | by vm_compute|].
  destruct Hfree as (s' & rm' & Hrun & Hbg & _); [by vm_compute|].
  by exists s'.
Defined.

(** A preset that is not on the shelf is answered with 500, the 404
    of the lookup in its text. *)
Lemma refusal_scenario :
  xreturned (create_run_route ill_typed_sample
               (mkRunRequest "https://example.com/feed.xml" (Some "Slow") None)
               "r1" 3) office
  = Failed (HTTPExceptionOf 500 "404: Preset 'Slow' not found").
Proof.
  destruct (create_run_route_refusals ill_typed_sample
              (mkRunRequest "https://example.com/feed.xml" (Some "Slow") None)
              "r1" 3 office) as (_ & Hmissing & _).
  unfold xreturned. rewrite (Hmissing "Slow"); [done | by eexists|].
  split; [done|]. split; [done|]. by intros pm [= <-].
Defined.

End RouteWitnesses.

Module CliWitnesses.
Import DebugCliModel DebugCliTerms DebugCliProps MoreScenarios.


End CliWitnesses.
